(** * musclefs: the 9P request dispatcher and its control file

    A shallow embedding of [musclefs.go] (package [main]) and of
    [internal/p9util/translation.go].  The dispatcher is a set of handlers
    ([Walk], [Open], [Create], ...) that run under one mutex, talk to the
    tree engine, the tree store, the lock table and the 9P library, and keep
    a little state of their own (the [Aux] slot of every fid, the [fsNode]
    objects these slots point to, and the control file).

    The handlers are embedded as programs over a signature of calls
    ([Call]): every method of a package that the handler invokes is one
    call, answered by the environment.  A program is run against an
    environment ([run]); the run yields the handler's result, the final
    environment and the list of calls made, with their answers, in order. *)

From Stdlib Require Import ZArith Lia Bool Ascii String.
From stdpp Require Import base option list strings gmap pretty.

Local Open Scope string_scope.
Local Open Scope list_scope.
Local Open Scope Z_scope.

(** ** Go values *)

(** [uint32] and friends are modelled as [Z]; the all-ones values are the
    "do not touch" markers of a 9P [Twstat]. *)
Definition uint8_max : Z := 0xFF.
Definition uint16_max : Z := 0xFFFF.
Definition uint32_max : Z := 0xFFFFFFFF.
Definition uint64_max : Z := 0xFFFFFFFFFFFFFFFF.

(** [*tree.Node]: a reference to a node owned by the tree engine. *)
Definition NodeRef : Type := N.
(** [*tree.Tree] values other than [ops.tree] (historical trees). *)
Definition TreeRef : Type := N.
(** [*srv.Fid]: the fid objects are owned by the 9P library. *)
Definition FidRef : Type := N.
(** [*fsNode]: address of an [fsNode] allocated by the dispatcher. *)
Definition loc : Type := N.
(** [*nodeLock]: a handle into the lock table. *)
Definition nodeLock : Type := Z.
(** [storage.Pointer]: an opaque key, compared by value. *)
Definition Pointer : Type := string.

Definition Pointer_Equals (a b : Pointer) : bool := bool_decide (a = b).

(** Go [error] values.  [P9Error] is [*p.Error]; [GoError] is what
    [fmt.Errorf], [errors.New] and [errors.Errorf] build; [ErrNotExist] and
    [ErrNotEmpty] are the sentinels of package [tree]; [Wrap] is an error
    wrapping a cause ([%w], [errors.Wrapf]). *)
Inductive error : Type :=
| P9Error (Err : string) (Errornum : Z)
| GoError (msg : string)
| ErrNotExist
| ErrNotEmpty
| Wrap (msg : string) (cause : error).

#[global] Instance error_eq_dec : EqDecision error.
Proof. solve_decision. Defined.

(** [errors.Is err target]. *)
Fixpoint errors_Is (err target : error) : bool :=
  if bool_decide (err = target) then true
  else match err with
       | Wrap _ cause => errors_Is cause target
       | _ => false
       end.

(** Error numbers and canned errors of go9p ([p.EPERM], [srv.Eperm], ...). *)
Definition EPERM : Z := 1.
Definition ENOENT : Z := 2.
Definition EINVAL : Z := 22.
Definition ENOTEMPTY : Z := 39.

Definition Eperm : error := P9Error "permission denied" EPERM.
Definition Enoent : error := P9Error "file not found" ENOENT.
Definition Enotempty : error := P9Error "directory not empty" EPERM.

Definition Eunlinked : error := P9Error "fid points to unlinked node" EINVAL.

(** ** Mode bits (go9p, package [p]) *)

Definition DMDIR : Z := 0x80000000.
Definition DMAPPEND : Z := 0x40000000.
Definition DMEXCL : Z := 0x20000000.
Definition DMMOUNT : Z := 0x10000000.
Definition DMAUTH : Z := 0x08000000.
Definition DMTMP : Z := 0x04000000.
Definition DMSYMLINK : Z := 0x02000000.
Definition DMLINK : Z := 0x01000000.
Definition DMDEVICE : Z := 0x00800000.
Definition DMNAMEDPIPE : Z := 0x00200000.
Definition DMSOCKET : Z := 0x00100000.
Definition DMSETUID : Z := 0x00080000.
Definition DMSETGID : Z := 0x00040000.

Definition QTDIR : Z := 0x80.
Definition QTEXCL : Z := 0x20.

Definition OTRUNC : Z := 16.
Definition ORCLOSE : Z := 64.

(** Modelled from the spec: [tree.DMDIR] is declared in package [tree], which
    is not part of the dispatcher's source; file modes follow the 9P layout
    of the mode bits (6.1), so it is the directory bit. *)
Definition tree_DMDIR : Z := 0x80000000.

(** ** [unsupportedModes] and [knownModes] *)

(** The map literal, as the list of its entries in the order of the source. *)
Definition unsupportedModes : list (Z * error) :=
  [ (DMAPPEND, GoError "append-only files are not supported");
    (DMMOUNT, GoError "mounted channels are not supported");
    (DMAUTH, GoError "authentication files are not supported");
    (DMTMP, GoError "temporary files are not supported");
    (DMSYMLINK, GoError "symbolic links are not supported");
    (DMLINK, GoError "hard links are not supported");
    (DMDEVICE, GoError "device files are not supported");
    (DMNAMEDPIPE, GoError "named pipes are not supported");
    (DMSOCKET, GoError "sockets are not supported");
    (DMSETUID, GoError "setuid files are not supported");
    (DMSETGID, GoError "setgid files are not supported") ].

(** [init]: [knownModes = 0777 | DMDIR | DMEXCL] (octal 0777 is 511), then
    or-ed with every key of [unsupportedModes]. *)
Definition knownModes : Z :=
  fold_left (fun acc e => Z.lor acc (fst e)) unsupportedModes
            (Z.lor (Z.lor 511 DMDIR) DMEXCL).

(** [%b]: binary digits of a non-negative number. *)
Fixpoint fmt_b_pos (p : positive) (acc : string) : string :=
  match p with
  | xH => String "1"%char acc
  | xO q => fmt_b_pos q (String "0"%char acc)
  | xI q => fmt_b_pos q (String "1"%char acc)
  end.

Definition fmt_b (z : Z) : string :=
  match z with
  | Zpos p => fmt_b_pos p ""
  | _ => "0"
  end.

(** The loop [for bit, err := range unsupportedModes] of [checkMode], run
    over the entries in the order [order] in which the runtime yields them. *)
Fixpoint rangeUnsupported (order : list (Z * error)) (mode : Z) : option error :=
  match order with
  | [] => None
  | (bit, err) :: rest =>
      if negb (Z.land mode bit =? 0) then Some err
      else rangeUnsupported rest mode
  end.

(** ** Records of go9p and of package [tree] *)

(** [p.Qid]. *)
Record Qid : Type := mkQid { Qid_Type : Z; Qid_Version : Z; Qid_Path : Z }.

(** [p.Dir] (the 9P2000 fields; the server runs with [Dotu = false]). *)
Record Dir : Type := mkDir {
  Dir_Type : Z;
  Dir_Dev : Z;
  Dir_Qid : Qid;
  Dir_Mode : Z;
  Dir_Atime : Z;
  Dir_Mtime : Z;
  Dir_Length : Z;
  Dir_Name : string;
  Dir_Uid : string;
  Dir_Gid : string;
  Dir_Muid : string
}.

(** The zero value of [p.Dir] ([var dir p.Dir]). *)
Definition Dir_zero : Dir :=
  mkDir 0 0 (mkQid 0 0 0) 0 0 0 0 "" "" "" "".

(** The predicates of [p.Dir] that [Wstat] consults: a field asks for a
    change unless it holds its "do not touch" value. *)
Definition ChangeLength (d : Dir) : bool := negb (Dir_Length d =? uint64_max).
Definition ChangeName (d : Dir) : bool := negb (bool_decide (Dir_Name d = "")).
Definition ChangeMode (d : Dir) : bool := negb (Dir_Mode d =? uint32_max).
Definition ChangeMtime (d : Dir) : bool := negb (Dir_Mtime d =? uint32_max).
Definition ChangeGID (d : Dir) : bool := negb (bool_decide (Dir_Gid d = "")).

(** [ChangeIllegalFields]: the fields a [Twstat] may not change are type,
    dev and qid; go9p also counts atime and muid (which is why [Wstat]
    overwrites them before asking). *)
Definition ChangeIllegalFields (d : Dir) : bool :=
  negb (Dir_Type d =? uint16_max)
  || negb (Dir_Dev d =? uint32_max)
  || negb (Qid_Type (Dir_Qid d) =? uint8_max)
  || negb (Qid_Version (Dir_Qid d) =? uint32_max)
  || negb (Qid_Path (Dir_Qid d) =? uint64_max)
  || negb (Dir_Atime d =? uint32_max)
  || negb (bool_decide (Dir_Muid d = "")).

(** [tree.NodeInfo], with the fields that [translation.go] reads. *)
Record NodeInfo : Type := mkNodeInfo {
  ni_ID : Z;
  ni_Version : Z;
  ni_Mode : Z;
  ni_Size : Z;
  ni_Modified : Z;
  ni_Name : string
}.

(** Modelled from the spec: [tree.Revision] is declared in package [tree].
    A revision records a snapshot and the pointer of its parent revision
    (3.4); the dispatcher reads its key ([Key]) and its short rendering
    ([ShortString]). *)
Record Revision : Type := mkRevision {
  rev_Key : Pointer;
  rev_Parent : Pointer;
  rev_ShortString : string
}.

(** The fields of the T-message ([r.Tc]) that the handlers read.  A byte
    slice and a Go string are both sequences of bytes; both are strings
    here, and the conversion [string(r.Tc.Data)] is the identity. *)
Record Fcall : Type := mkFcall {
  Tc_Wname : list string;
  Tc_Mode : Z;
  Tc_Perm : Z;
  Tc_Name : string;
  Tc_Count : Z;
  Tc_Offset : Z;
  Tc_Data : string;
  Tc_Dir : Dir
}.

(** [*srv.Req]. *)
Record Req : Type := mkReq { Fid : FidRef; Newfid : FidRef; Tc : Fcall }.

(** What a handler hands to [r.Respond...]. [RespondError] takes an
    [interface{}]: the handlers pass errors and, twice, a plain string. *)
Inductive Response : Type :=
| Rerror (e : error)
| RerrorString (s : string)
| Rattach (q : Qid)
| Rwalk (qids : list Qid)
| Ropen (q : Qid) (iounit : Z)
| Rcreate (q : Qid) (iounit : Z)
| Rread (data : string)
| Rwrite (count : Z)
| Rclunk
| Rremove
| Rstat (d : Dir)
| Rwstat.

(** Values logged through logrus fields. *)
Inductive LogField : Type :=
| FString (s : string)
| FError (e : error)
| FDir (d : Dir)
| FQid (q : Qid)
| FNode (n : NodeRef).

(** ** The dispatcher's own memory *)

(** [fid.Aux]: either the control node [ops.c] or a pointer to an [fsNode]. *)
Inductive Aux : Type :=
| AuxCtl
| AuxNode (l : loc).

(** [fsNode].  The embedded [p9util.DirBuffer] is kept as the list of the
    entries written since the last [Reset]. *)
Record fsNode : Type := mkFsNode {
  fs_Node : NodeRef;
  fs_dirb : list Dir;
  fs_lock : option nodeLock
}.

(** [ctl]: the control node, with the response text of the last command. *)
Record ctl : Type := mkCtl { ctl_contents : string; ctl_D : Dir }.

(** The memory the handlers read and write directly: the [Aux] slot of every
    fid ([None] is [nil]), the [fsNode] objects by address, and [ops.c]. *)
Record State : Type := mkState {
  st_aux : gmap FidRef Aux;
  st_heap : gmap loc fsNode;
  st_c : ctl
}.

(** [ops.tree]. *)
Definition ops_tree : TreeRef := 0%N.

(** ** Calls into the packages the dispatcher uses *)

Inductive Call : Type -> Type :=
(* methods of *tree.Node *)
| Node_IsDir (n : NodeRef) : Call bool
| Node_IsRoot (n : NodeRef) : Call bool
| Node_Unlinked (n : NodeRef) : Call bool
| Node_Ref (n : NodeRef) (reason : string) : Call unit
| Node_Unref (n : NodeRef) (reason : string) : Call unit
| Node_Children (n : NodeRef) : Call (list NodeRef)
| Node_Info (n : NodeRef) : Call NodeInfo
| Node_Path (n : NodeRef) : Call string
| Node_Truncate (n : NodeRef) (size : Z) : Call (option error)
| Node_ReadAt (n : NodeRef) (count off : Z) : Call (string * option error)
| Node_WriteAt (n : NodeRef) (data : string) (off : Z) : Call (option error)
| Node_Rename (n : NodeRef) (name : string) : Call unit
| Node_Touch (n : NodeRef) (mtime : Z) : Call unit
| Node_SetPerm (n : NodeRef) (perm : Z) : Call unit
| Node_Trim (n : NodeRef) : Call unit
(* methods of *tree.Tree *)
| Tree_Attach (t : TreeRef) : Call NodeRef
| Tree_Root (t : TreeRef) : Call NodeRef
| Tree_Walk (t : TreeRef) (n : NodeRef) (names : list string)
    : Call (list NodeRef * option error)
| Tree_Add (t : TreeRef) (parent : NodeRef) (name : string) (perm : Z)
    : Call (NodeRef * option error)
| Tree_Remove (t : TreeRef) (n : NodeRef) : Call (option error)
| Tree_Grow (t : TreeRef) (n : NodeRef) : Call (option error)
| Tree_Flush (t : TreeRef) : Call (option error)
| Tree_Seal (t : TreeRef) : Call (option error)
| Tree_SetRevision (t : TreeRef) (rev : Revision) : Call unit
| Tree_PullWorklog (t localbase remotebase : TreeRef)
    : Call (string * option error)
| Tree_ListNodesInUse (t : TreeRef) : Call (list string)
| Tree_DumpNodes (t : TreeRef) : Call unit
| Tree_Ignore (t : TreeRef) (revision path : string) : Call unit
| Tree_Rename (t : TreeRef) (source target : string) : Call (option error)
| Tree_RemoveForMerge (t : TreeRef) (n : NodeRef) : Call (option error)
| Tree_Graft (t : TreeRef) (parent child : NodeRef) (name : string)
    : Call (option error)
(* functions of package tree *)
| NewTree_WithRevision (key : Pointer) : Call (TreeRef * option error)
| NewRevision (root : NodeRef) (parent : Pointer) : Call Revision
(* methods of *tree.Store (ops.treeStore), package storage *)
| LocalBasePointer : Call (Pointer * option error)
| RemoteBasePointer : Call (Pointer * option error)
| SetLocalBasePointer (p : Pointer) : Call (option error)
| SetRemoteBasePointer (p : Pointer) : Call (option error)
| StoreRevision (rev : Revision) : Call (option error)
| NewPointerFromHex (hex : string) : Call (Pointer * option error)
(* package main, other files: lock table, side mode table, diff, ctl *)
| lockNode (fid : FidRef) (n : NodeRef) : Call (option nodeLock)
| unlockNode (l : nodeLock) : Call unit
| moreMode (path : Z) : Call Z
| setMoreMode (path mode : Z) : Call unit
| doDiff (args : list string) : Call (string * option error)
| ctl_read (contents : string) (count off : Z) : Call string
(* p9util: reads of the package variables, and the directory buffer *)
| NodeUID : Call string
| NodeGID : Call string
| DirBuffer_Read (entries : list Dir) (count off : Z)
    : Call (string * option error)
(* go9p *)
| Respond (resp : Response) : Call unit
| InitRread (count : Z) : Call (option error)
(* logrus, fmt, time *)
| Log (level : string) (fields : list (string * LogField)) (msg : string)
    : Call unit
| ParseLevel (level : string) : Call (string * option error)
| SetLevel (level : string) : Call unit
| Printf (text : string) : Call unit
| Now_Unix : Call Z.

(** ** Programs *)

(** A handler either returns, panics (a failed type assertion or an index
    out of range), or makes a call and goes on with the answer. *)
Inductive Prog (A : Type) : Type :=
| Ret (a : A)
| Panic (why : string)
| Vis {R : Type} (c : Call R) (k : R -> Prog A).

Arguments Ret {A} a.
Arguments Panic {A} why.
Arguments Vis {A R} c k.

Fixpoint Prog_bind {A B : Type} (p : Prog A) (f : A -> Prog B) : Prog B :=
  match p with
  | Ret a => f a
  | Panic why => Panic why
  | Vis c k => Vis c (fun r => Prog_bind (k r) f)
  end.

(** Handlers thread the dispatcher's memory through calls. *)
Definition M (A : Type) : Type := State -> Prog (A * State).

Definition ret {A : Type} (a : A) : M A := fun s => Ret (a, s).
Definition bind {A B : Type} (m : M A) (f : A -> M B) : M B :=
  fun s => Prog_bind (m s) (fun x => f (fst x) (snd x)).

Declare Scope prog_scope.
Delimit Scope prog_scope with prog.
Notation "x ← y ; z" := (bind y (fun x => z))
  (at level 20, y at level 100, z at level 200, only parsing) : prog_scope.
Notation "x ;; z" := (bind x (fun _ => z))
  (at level 100, z at level 200, only parsing, right associativity) : prog_scope.
Local Open Scope prog_scope.

Definition call {R : Type} (c : Call R) : M R :=
  fun s => Vis c (fun r => Ret (r, s)).
Definition panic {A : Type} (why : string) : M A := fun _ => Panic why.
Definition get : M State := fun s => Ret (s, s).
Definition put (s : State) : M unit := fun _ => Ret (tt, s).
Definition skip : M unit := ret tt.

(** One observed call with its answer. *)
Inductive Event : Type :=
| Ev {R : Type} (c : Call R) (r : R).

Inductive Outcome (A : Type) : Type :=
| Done (a : A)
| Panicked (why : string).

Arguments Done {A} a.
Arguments Panicked {A} why.

(** An environment answers every call from its own state [W]. *)
Definition Env (W : Type) : Type := forall R : Type, Call R -> W -> R * W.

(** Put an event in front of the events of the rest of a run. *)
Definition after_event {W A : Type} (e : Event)
    (rest : Outcome A * W * list Event) : Outcome A * W * list Event :=
  match rest with
  | (o, w, t) => (o, w, e :: t)
  end.

Fixpoint run {W A : Type} (env : Env W) (p : Prog A) (w : W)
  : Outcome A * W * list Event :=
  match p with
  | Ret a => (Done a, w, [])
  | Panic why => (Panicked why, w, [])
  | Vis c k =>
      match env _ c w with
      | (r, w') => after_event (Ev c r) (run env (k r) w')
      end
  end.

Definition outcome {W A : Type} (env : Env W) (p : Prog A) (w : W) : Outcome A :=
  fst (fst (run env p w)).
Definition endworld {W A : Type} (env : Env W) (p : Prog A) (w : W) : W :=
  snd (fst (run env p w)).
Definition trace {W A : Type} (env : Env W) (p : Prog A) (w : W) : list Event :=
  snd (run env p w).

(** ** Helpers on the dispatcher's memory *)

Definition getAux (fid : FidRef) : M (option Aux) :=
  s ← get; ret (st_aux s !! fid).

Definition setAux (fid : FidRef) (a : Aux) : M unit :=
  s ← get; put (mkState (<[fid := a]> (st_aux s)) (st_heap s) (st_c s)).

(** The type assertion of [fid.Aux] to a pointer to [fsNode], reached when [fid.Aux] is not
    [ops.c]: it panics on [nil]. *)
Definition asFsNode (a : option Aux) : M loc :=
  match a with
  | Some (AuxNode l) => ret l
  | _ => panic "interface conversion: interface is nil, not *fsNode"
  end.

(** Reading and writing an [fsNode] through its pointer. *)
Definition deref (l : loc) : M fsNode :=
  s ← get;
  match st_heap s !! l with
  | Some fn => ret fn
  | None => panic "invalid memory address or nil pointer dereference"
  end.

Definition assign (l : loc) (fn : fsNode) : M unit :=
  s ← get; put (mkState (st_aux s) (<[l := fn]> (st_heap s)) (st_c s)).

(** [&fsNode{...}]: a fresh object. *)
Definition new (fn : fsNode) : M loc :=
  s ← get;
  let l := fresh (dom (st_heap s)) in
  put (mkState (st_aux s) (<[l := fn]> (st_heap s)) (st_c s));;
  ret l.

Definition getCtl : M ctl := s ← get; ret (st_c s).
Definition setCtl (c : ctl) : M unit :=
  s ← get; put (mkState (st_aux s) (st_heap s) c).

Definition respond (resp : Response) : M unit := call (Respond resp).

Fixpoint mapM {A B : Type} (f : A -> M B) (l : list A) : M (list B) :=
  match l with
  | [] => ret []
  | x :: rest => y ← f x; ys ← mapM f rest; ret (y :: ys)
  end.

(** ** [internal/p9util/translation.go] *)

Definition NodeQID (node : NodeRef) : M Qid :=
  ni ← call (Node_Info node);
  ret (mkQid (if negb (Z.land (ni_Mode ni) tree_DMDIR =? 0) then QTDIR else 0)
              (ni_Version ni) (ni_ID ni)).

Definition NodeDirVar (node : NodeRef) (dir : Dir) : M Dir :=
  ni ← call (Node_Info node);
  uid ← call NodeUID;
  gid ← call NodeGID;
  ret (mkDir (Dir_Type dir) (Dir_Dev dir)
          (mkQid (if negb (Z.land (ni_Mode ni) tree_DMDIR =? 0) then QTDIR else 0)
                 (ni_Version ni) (ni_ID ni))
          (ni_Mode ni) (ni_Modified ni) (ni_Modified ni) (ni_Size ni)
          (ni_Name ni) uid gid (Dir_Muid dir)).

Definition NodeDir (node : NodeRef) : M Dir := NodeDirVar node Dir_zero.

(** ** Go library functions on strings *)

(** Operands of a formatting verb. *)
Inductive Arg : Type :=
| AString (s : string)
| AStrings (l : list string)
| AInt (z : Z)
| APointer (p : Pointer)
| AError (e : error)
| ANode (n : NodeRef).

(** White space of [strings.Fields] in the ASCII range (the table
    [asciiSpace] of package [strings]). *)
Definition isSpace (a : ascii) : bool :=
  match N_of_ascii a with
  | 9%N | 10%N | 11%N | 12%N | 13%N | 32%N => true
  | _ => false
  end.

(** The white space of [unicode.IsSpace] beyond the ASCII range, as the
    three bytes of its UTF-8 encoding: U+1680, U+2000 to U+200A, U+2028,
    U+2029, U+202F, U+205F and U+3000. *)
Definition isSpace3 (a b c : N) : bool :=
  ((a =? 0xE1) && (b =? 0x9A) && (c =? 0x80)
   || (a =? 0xE2) && (b =? 0x80)
      && ((0x80 <=? c) && (c <=? 0x8A)
          || (c =? 0xA8) || (c =? 0xA9) || (c =? 0xAF))
   || (a =? 0xE2) && (b =? 0x81) && (c =? 0x9F)
   || (a =? 0xE3) && (b =? 0x80) && (c =? 0x80))%N.

(** The number of bytes of the white-space character that a string starts
    with, and [0] when it does not start with one.  A Go string is its
    bytes; [strings.Fields] decodes them as UTF-8 once one of them is not
    ASCII, and splits on [unicode.IsSpace]: the six ASCII characters, U+0085
    and U+00A0 (two bytes each), and the characters of [isSpace3].  The
    first byte of each of these encodings is not a continuation byte, so
    it is never inside the encoding of another character, and the bytes
    of a character that is not white space are read one by one. *)
Definition space_width (s : string) : nat :=
  match s with
  | EmptyString => 0
  | String a rest =>
      if isSpace a then 1
      else
        match rest with
        | EmptyString => 0
        | String b rest' =>
            if ((N_of_ascii a =? 0xC2)
                && ((N_of_ascii b =? 0x85) || (N_of_ascii b =? 0xA0)))%N
            then 2
            else
              match rest' with
              | EmptyString => 0
              | String c _ =>
                  if isSpace3 (N_of_ascii a) (N_of_ascii b) (N_of_ascii c)
                  then 3 else 0
              end
        end
  end%nat.

Definition isEmpty (s : string) : bool :=
  match s with
  | EmptyString => true
  | _ => false
  end.

(** [strings.Fields]: the maximal runs of characters that are not white
    space ([word] is the run being read, [skip] the number of bytes that
    are left of the white-space character being read). *)
Fixpoint Fields_from (s word : string) (skip : nat) : list string :=
  match s with
  | EmptyString => if isEmpty word then [] else [word]
  | String a rest =>
      match skip with
      | S k => Fields_from rest word k
      | O =>
          match space_width s with
          | O => Fields_from rest (word +:+ String a "") 0
          | S k =>
              if isEmpty word then Fields_from rest "" k
              else word :: Fields_from rest "" k
          end
      end
  end.

Definition Fields (s : string) : list string := Fields_from s "" 0.

(** [strings.Split(s, "/")]. *)
Fixpoint Split_from (s piece : string) : list string :=
  match s with
  | EmptyString => [piece]
  | String a rest =>
      if Ascii.eqb a "/"%char then piece :: Split_from rest ""
      else Split_from rest (piece +:+ String a "")
  end.

Definition Split (s : string) : list string := Split_from s "".

(** [strings.SplitN(s, "/", 2)]: cut at the first separator only. *)
Fixpoint SplitN2_from (s piece : string) : list string :=
  match s with
  | EmptyString => [piece]
  | String a rest =>
      if Ascii.eqb a "/"%char then [piece; rest]
      else SplitN2_from rest (piece +:+ String a "")
  end.

Definition SplitN2 (s : string) : list string := SplitN2_from s "".

(** [sort.Strings]: increasing byte-wise order. *)
Fixpoint sort_insert (x : string) (l : list string) : list string :=
  match l with
  | [] => [x]
  | y :: rest => if String.leb x y then x :: l else y :: sort_insert x rest
  end.

Definition sort_Strings (l : list string) : list string :=
  fold_right sort_insert [] l.

(** [uint32(x)], and [int64(x)] of an unsigned 64-bit value; [int(x)] is
    [int64(x)] on the 64-bit platforms the server runs on. *)
Definition to_uint32 (z : Z) : Z := z mod 2 ^ 32.
Definition to_int64 (z : Z) : Z := if z <? 2 ^ 63 then z else z - 2 ^ 64.

Definition len (s : string) : Z := Z.of_nat (String.length s).

Definition newline : string := String (ascii_of_N 10) "".

(** ** [musclefs.go] *)

Section Dispatcher.

(** [fmt.Sprintf], for the verbs whose rendering depends on packages that
    are not part of the dispatcher ([%v] of a pointer, [%+v] of an error,
    [%q], ...). *)
Variable Sprintf : string -> list Arg -> string.

(** The order in which the runtime yields the entries of the map
    [unsupportedModes] to a [range] loop: some arrangement of its entries. *)
Variable order : list (Z * error).

Definition checkMode (node : option NodeRef) (mode : Z) : M (option error) :=
  r ← match node with
      | Some n =>
          d ← call (Node_IsDir n);
          if d && (Z.land mode DMDIR =? 0)
          then ret (Some (GoError "a directory cannot become a regular file"))
          else
            d' ← call (Node_IsDir n);
            if negb d' && negb (Z.land mode DMDIR =? 0)
            then ret (Some (GoError "a regular file cannot become a directory"))
            else ret None
      | None => ret None
      end;
  match r with
  | Some err => ret (Some err)
  | None =>
      match rangeUnsupported order mode with
      | Some err => ret (Some err)
      | None =>
          let extra := Z.ldiff mode knownModes in
          if negb (extra =? 0)
          then ret (Some (GoError ("unrecognized mode bits: " +:+ fmt_b extra)))
          else ret None
      end
  end.

(** [prepareForReads], a method of [fsNode]: the loop reuses one [dir] variable. *)
Fixpoint prepareForReads_loop (children : list NodeRef) (dir : Dir)
    (dirb : list Dir) : M (list Dir) :=
  match children with
  | [] => ret dirb
  | child :: rest =>
      dir' ← NodeDirVar child dir;
      prepareForReads_loop rest dir' (dirb ++ [dir'])
  end.

Definition prepareForReads (l : loc) : M unit :=
  node ← deref l;
  children ← call (Node_Children (fs_Node node));
  dirb ← prepareForReads_loop children Dir_zero [];
  assign l (mkFsNode (fs_Node node) dirb (fs_lock node)).

Definition FidDestroy (fid : FidRef) : M unit :=
  a ← getAux fid;
  match a with
  | None => skip
  | Some AuxCtl => skip
  | Some (AuxNode l) =>
      node ← deref l;
      call (Node_Unref (fs_Node node) "FidDestroy");;
      match fs_lock node with
      | Some lk =>
          call (unlockNode lk);;
          assign l (mkFsNode (fs_Node node) (fs_dirb node) None)
      | None => skip
      end
  end.

Definition Attach (r : Req) : M unit :=
  root ← call (Tree_Attach ops_tree);
  call (Node_Ref root "Attach");;
  l ← new (mkFsNode root [] None);
  setAux (Fid r) (AuxNode l);;
  qid ← NodeQID root;
  respond (Rattach qid).

Definition Walk (r : Req) : M unit :=
  a ← getAux (Fid r);
  match a with
  | Some AuxCtl =>
      if bool_decide (length (Tc_Wname (Tc r)) = 0%nat)
      then setAux (Newfid r) AuxCtl;; respond (Rwalk [])
      else respond (Rerror Eperm)
  | _ =>
      l ← asFsNode a;
      node ← deref l;
      unlinked ← call (Node_Unlinked (fs_Node node));
      if unlinked then respond (Rerror Eunlinked)
      else if bool_decide (length (Tc_Wname (Tc r)) = 0%nat)
      then
        call (Node_Ref (fs_Node node) "clone");;
        setAux (Newfid r) (AuxNode l);;
        respond (Rwalk [])
      else
        isroot ← call (Node_IsRoot (fs_Node node));
        if isroot && bool_decide (Tc_Wname (Tc r) = ["ctl"])
        then
          setAux (Newfid r) AuxCtl;;
          c ← getCtl;
          respond (Rwalk [Dir_Qid (ctl_D c)])
        else
          res ← call (Tree_Walk ops_tree (fs_Node node) (Tc_Wname (Tc r)));
          let nodes := fst res in
          let notexist :=
            match snd res with
            | Some e => errors_Is e ErrNotExist
            | None => false
            end in
          if notexist && bool_decide (length nodes = 0%nat)
          then respond (Rerror Enoent)
          else
            (* the error is cleared when it was "not found" and at least
               one node was walked *)
            let err := if notexist then None else snd res in
            match err with
            | Some e =>
                path ← call (Node_Path (fs_Node node));
                call (Log "error" [("path", FString path); ("cause", FError e)]
                          "Could not walk");;
                respond (Rerror Eperm)
            | None =>
                qids ← mapM NodeQID nodes;
                (if bool_decide (length qids = length (Tc_Wname (Tc r)))
                 then
                   match last nodes with
                   | Some targetNode =>
                       l' ← new (mkFsNode targetNode [] None);
                       setAux (Newfid r) (AuxNode l');;
                       call (Node_Ref targetNode "successful walk")
                   | None => panic "index out of range [-1]"
                   end
                 else skip);;
                respond (Rwalk qids)
            end
  end.

Definition Open (r : Req) : M unit :=
  (if negb (Z.land (Tc_Mode (Tc r)) ORCLOSE =? 0)
   then respond (Rerror Eperm) else skip);;
  a ← getAux (Fid r);
  match a with
  | Some AuxCtl =>
      c ← getCtl;
      respond (Ropen (Dir_Qid (ctl_D c)) 0)
  | _ =>
      l ← asFsNode a;
      node ← deref l;
      unlinked ← call (Node_Unlinked (fs_Node node));
      if unlinked then respond (Rerror Eunlinked)
      else
        qid ← NodeQID (fs_Node node);
        m ← call (moreMode (Qid_Path qid));
        (* [None]: the handler has responded and returned *)
        locked ←
          (if negb (Z.land m DMEXCL =? 0)
           then
             lk ← call (lockNode (Fid r) (fs_Node node));
             assign l (mkFsNode (fs_Node node) (fs_dirb node) lk);;
             match lk with
             | None => respond (RerrorString "file already locked");; ret None
             | Some _ =>
                 ret (Some (mkQid (Z.lor (Qid_Type qid) QTEXCL)
                                  (Qid_Version qid) (Qid_Path qid)))
             end
           else ret (Some qid));
        match locked with
        | None => skip
        | Some qid =>
            isdir ← call (Node_IsDir (fs_Node node));
            if isdir
            then
              err ← call (Tree_Grow ops_tree (fs_Node node));
              match err with
              | Some e => respond (Rerror e)
              | None => prepareForReads l;; respond (Ropen qid 0)
              end
            else if negb (Z.land (Tc_Mode (Tc r)) OTRUNC =? 0)
            then
              err ← call (Node_Truncate (fs_Node node) 0);
              match err with
              | Some e => respond (Rerror e)
              | None => respond (Ropen qid 0)
              end
            else respond (Ropen qid 0)
        end
  end.

Definition Create (r : Req) : M unit :=
  a ← getAux (Fid r);
  match a with
  | Some AuxCtl => respond (Rerror Eperm)
  | _ =>
      l ← asFsNode a;
      parent ← deref l;
      unlinked ← call (Node_Unlinked (fs_Node parent));
      if unlinked then respond (Rerror Eunlinked)
      else
        bad ← checkMode None (Tc_Perm (Tc r));
        match bad with
        | Some e => respond (Rerror e)
        | None =>
            res ← call (Tree_Add ops_tree (fs_Node parent)
                                 (Tc_Name (Tc r)) (Tc_Perm (Tc r)));
            match snd res with
            | Some e => respond (Rerror e)
            | None =>
                let node := fst res in
                call (Node_Ref node "create");;
                call (Node_Unref (fs_Node parent) "created child");;
                child ← new (mkFsNode node [] None);
                setAux (Fid r) (AuxNode child);;
                qid ← NodeQID node;
                if negb (Z.land (Tc_Perm (Tc r)) DMEXCL =? 0)
                then
                  call (setMoreMode (Qid_Path qid) DMEXCL);;
                  lk ← call (lockNode (Fid r) node);
                  assign child (mkFsNode node [] lk);;
                  match lk with
                  | None => respond (RerrorString "out of locks")
                  | Some _ =>
                      respond (Rcreate (mkQid (Z.lor (Qid_Type qid) QTEXCL)
                                         (Qid_Version qid) (Qid_Path qid)) 0)
                  end
                else respond (Rcreate qid 0)
            end
        end
  end.

Definition Dir_set_Atime (d : Dir) (atime : Z) : Dir :=
  mkDir (Dir_Type d) (Dir_Dev d) (Dir_Qid d) (Dir_Mode d) atime (Dir_Mtime d)
        (Dir_Length d) (Dir_Name d) (Dir_Uid d) (Dir_Gid d) (Dir_Muid d).
Definition Dir_set_Mtime (d : Dir) (mtime : Z) : Dir :=
  mkDir (Dir_Type d) (Dir_Dev d) (Dir_Qid d) (Dir_Mode d) (Dir_Atime d) mtime
        (Dir_Length d) (Dir_Name d) (Dir_Uid d) (Dir_Gid d) (Dir_Muid d).
Definition Dir_set_Length (d : Dir) (length : Z) : Dir :=
  mkDir (Dir_Type d) (Dir_Dev d) (Dir_Qid d) (Dir_Mode d) (Dir_Atime d)
        (Dir_Mtime d) length (Dir_Name d) (Dir_Uid d) (Dir_Gid d) (Dir_Muid d).
Definition Dir_set_Muid (d : Dir) (muid : string) : Dir :=
  mkDir (Dir_Type d) (Dir_Dev d) (Dir_Qid d) (Dir_Mode d) (Dir_Atime d)
        (Dir_Mtime d) (Dir_Length d) (Dir_Name d) (Dir_Uid d) (Dir_Gid d) muid.
Definition Dir_set_Mode (d : Dir) (mode : Z) : Dir :=
  mkDir (Dir_Type d) (Dir_Dev d) (Dir_Qid d) mode (Dir_Atime d)
        (Dir_Mtime d) (Dir_Length d) (Dir_Name d) (Dir_Uid d) (Dir_Gid d)
        (Dir_Muid d).
Definition Dir_set_Qid_Type (d : Dir) (t : Z) : Dir :=
  mkDir (Dir_Type d) (Dir_Dev d)
        (mkQid t (Qid_Version (Dir_Qid d)) (Qid_Path (Dir_Qid d)))
        (Dir_Mode d) (Dir_Atime d) (Dir_Mtime d) (Dir_Length d) (Dir_Name d)
        (Dir_Uid d) (Dir_Gid d) (Dir_Muid d).

Definition Read (r : Req) : M unit :=
  bad ← call (InitRread (Tc_Count (Tc r)));
  match bad with
  | Some e => respond (Rerror e)
  | None =>
      a ← getAux (Fid r);
      match a with
      | Some AuxCtl =>
          now ← call Now_Unix;
          c ← getCtl;
          setCtl (mkCtl (ctl_contents c) (Dir_set_Atime (ctl_D c) (to_uint32 now)));;
          data ← call (ctl_read (ctl_contents c) (Tc_Count (Tc r))
                                (to_int64 (Tc_Offset (Tc r))));
          respond (Rread data)
      | _ =>
          l ← asFsNode a;
          node ← deref l;
          unlinked ← call (Node_Unlinked (fs_Node node));
          if unlinked then respond (Rerror Eunlinked)
          else
            isdir ← call (Node_IsDir (fs_Node node));
            res ← (if isdir
                   then call (DirBuffer_Read (fs_dirb node) (Tc_Count (Tc r))
                                             (to_int64 (Tc_Offset (Tc r))))
                   else call (Node_ReadAt (fs_Node node) (Tc_Count (Tc r))
                                          (to_int64 (Tc_Offset (Tc r)))));
            match snd res with
            | Some e =>
                path ← call (Node_Path (fs_Node node));
                call (Log "error" [("path", FString path); ("cause", FError e)]
                          "Could not read");;
                respond (Rerror Eperm)
            | None => respond (Rread (fst res))
            end
      end
  end.

(** [args[i]], which panics out of range. *)
Definition index {A : Type} (l : list A) (i : nat) : M A :=
  match l !! i with
  | Some x => ret x
  | None => panic "index out of range"
  end.

Definition setLevel (level : string) : M (option error) :=
  res ← call (ParseLevel level);
  match snd res with
  | Some err => ret (Some err)
  | None => call (SetLevel (fst res));; ret None
  end.

(** The helper [output] of [runCommand]: add the error to the output
    buffer and return it. *)
Definition output (outputBuffer : string) (err : error) : string * option error :=
  (outputBuffer +:+ Sprintf "%+v" [AError err], Some err).

(** The cases of the [switch] in [runCommand].  Each yields the output
    buffer and the error with which [runCommand] returns. *)

Definition runCommand_unlink (args : list string) (outputBuffer : string)
  : M (string * option error) :=
  if bool_decide (length args = 0%nat)
  then ret (outputBuffer, Some (GoError "missing argument to unlink"))
  else
    arg0 ← index args 0;
    let elems := Split arg0 in
    if bool_decide (length elems = 0%nat)
    then ret (outputBuffer,
              Some (GoError (Sprintf "not enough elements in path: %v" [AString arg0])))
    else
      r ← call (Tree_Root ops_tree);
      res ← call (Tree_Walk ops_tree r elems);
      let nn := fst res in
      match snd res with
      | Some err =>
          ret (outputBuffer,
               Some (Wrap (Sprintf "could not walk the local tree along %v"
                                   [AStrings elems]) err))
      | None =>
          if negb (bool_decide (length nn = length elems))
          then ret (outputBuffer,
                    Some (GoError (Sprintf "walked %d path elements, required %d"
                                     [AInt (Z.of_nat (length nn));
                                      AInt (Z.of_nat (length elems))])))
          else
            n ← index nn (length nn - 1);
            err ← call (Tree_RemoveForMerge ops_tree n);
            ret (outputBuffer, err)
      end.

Definition runCommand_graft (args : list string) (outputBuffer : string)
  : M (string * option error) :=
  arg0 ← index args 0;
  let parts := Split arg0 in
  revision ← index parts 0;
  let historicalPath := drop 1 parts in
  arg1 ← index args 1;
  let localPath := Split arg1 in
  localBaseName ← index localPath (length localPath - 1);
  let localPath := take (length localPath - 1) localPath in
  let outputBuffer :=
    outputBuffer +:+
    Sprintf ("Grafting the node identified by the path elements %v from the revision %q into the local tree by walking the path elements %v" +:+ newline)
            [AStrings historicalPath; AString revision; AStrings localPath] in
  key ← call (NewPointerFromHex revision);
  match snd key with
  | Some err =>
      ret (outputBuffer,
           Some (Wrap (Sprintf "%q: %w" [AString revision; AError err]) err))
  | None =>
      ht ← call (NewTree_WithRevision (fst key));
      match snd ht with
      | Some err =>
          ret (outputBuffer,
               Some (GoError (Sprintf "could not load tree %q: %v"
                                [AString revision; AError err])))
      | None =>
          let historicalTree := fst ht in
          historicalRoot ← call (Tree_Attach historicalTree);
          h ← call (Tree_Walk historicalTree historicalRoot historicalPath);
          match snd h with
          | Some err =>
              ret (outputBuffer,
                   Some (GoError (Sprintf "could not walk tree %q along nodes %v: %v"
                                    [AString revision; AStrings historicalPath;
                                     AError err])))
          | None =>
              let hNodes := fst h in
              localRoot ← call (Tree_Root ops_tree);
              lres ← call (Tree_Walk ops_tree localRoot localPath);
              match snd lres with
              | Some err =>
                  ret (outputBuffer,
                       Some (GoError (Sprintf "could not walk the local tree along %v: %v"
                                        [AStrings localPath; AError err])))
              | None =>
                  let lNodes := fst lres in
                  let localParent := default localRoot (last lNodes) in
                  historicalChild ← index hNodes (length hNodes - 1);
                  call (Printf (Sprintf ("Attempting graft of %s into %s" +:+ newline)
                                        [ANode historicalChild; ANode localParent]));;
                  err ← call (Tree_Graft ops_tree localParent historicalChild
                                         localBaseName);
                  match err with
                  | Some e =>
                      call (Log "error" [("receiver", FNode localParent);
                                         ("donor", FNode historicalChild);
                                         ("cause", FError e)] "Graft failed");;
                      ret (outputBuffer, Some Eperm)
                  | None => ret (outputBuffer, None)
                  end
              end
          end
      end
  end.

Definition runCommand_pull (outputBuffer : string) : M (string * option error) :=
  lb ← call LocalBasePointer;
  match snd lb with
  | Some err => ret (output outputBuffer err)
  | None =>
  let localbase := fst lb in
  rb ← call RemoteBasePointer;
  match snd rb with
  | Some err => ret (output outputBuffer err)
  | None =>
  let remotebase := fst rb in
  if Pointer_Equals localbase remotebase
  then ret (outputBuffer +:+ "local base matches remote base, pull is a no-op"
                         +:+ newline, None)
  else
    lt ← call (NewTree_WithRevision localbase);
    match snd lt with
    | Some err => ret (output outputBuffer err)
    | None =>
    let localbasetree := fst lt in
    rt ← call (NewTree_WithRevision remotebase);
    match snd rt with
    | Some err => ret (output outputBuffer err)
    | None =>
    let remotebasetree := fst rt in
    wl ← call (Tree_PullWorklog ops_tree localbasetree remotebasetree);
    match snd wl with
    | Some err => ret (output outputBuffer err)
    | None =>
    let commands := fst wl in
    if bool_decide (String.length commands = 0%nat)
    then
      let outputBuffer :=
        outputBuffer +:+ "no commands to run, pull is a no-op" +:+ newline in
      bad ← call (SetLocalBasePointer remotebase);
      match bad with
      | Some err => ret (output outputBuffer err)
      | None => ret (outputBuffer, None)
      end
    else ret (outputBuffer +:+ commands, None)
    end end end end end.

Definition runCommand_push (outputBuffer : string) : M (string * option error) :=
  lb ← call LocalBasePointer;
  match snd lb with
  | Some err => ret (output outputBuffer err)
  | None =>
  let localbase := fst lb in
  rb ← call RemoteBasePointer;
  match snd rb with
  | Some err => ret (output outputBuffer err)
  | None =>
  let remotebase := fst rb in
  if negb (Pointer_Equals localbase remotebase)
  then ret (output outputBuffer
              (GoError (Sprintf "local base %v does not match remote base %v, pull first"
                          [APointer localbase; APointer remotebase])))
  else
    let outputBuffer :=
      outputBuffer +:+ "local base matches remote base, push allowed" +:+ newline in
    bad ← call (Tree_Flush ops_tree);
    match bad with
    | Some err => ret (output outputBuffer err)
    | None =>
    let outputBuffer := outputBuffer +:+ "push: flushed" +:+ newline in
    bad ← call (Tree_Seal ops_tree);
    match bad with
    | Some err => ret (output outputBuffer err)
    | None =>
    let outputBuffer := outputBuffer +:+ "push: sealed" +:+ newline in
    localroot ← call (Tree_Root ops_tree);
    revision ← call (NewRevision localroot remotebase);
    bad ← call (StoreRevision revision);
    match bad with
    | Some err => ret (output outputBuffer err)
    | None =>
    call (Tree_SetRevision ops_tree revision);;
    let outputBuffer :=
      outputBuffer +:+ Sprintf ("push: revision created: %s" +:+ newline)
                               [AString (rev_ShortString revision)] in
    bad ← call (SetRemoteBasePointer (rev_Key revision));
    match bad with
    | Some err => ret (output outputBuffer err)
    | None =>
    let outputBuffer :=
      outputBuffer +:+ Sprintf ("push: updated remote base pointer: %v" +:+ newline)
                               [APointer (rev_Key revision)] in
    bad ← call (SetLocalBasePointer (rev_Key revision));
    match bad with
    | Some err => ret (output outputBuffer err)
    | None =>
    let outputBuffer :=
      outputBuffer +:+ Sprintf ("push: updated local base pointer: %v" +:+ newline)
                               [APointer (rev_Key revision)] in
    ret (outputBuffer, None)
    end end end end end end end.

(** The [switch cmd] of [runCommand]. *)
Definition runCommand_switch (cmd : string) (args : list string)
    (outputBuffer : string) : M (string * option error) :=
  if String.eqb cmd "diff" then
    res ← call (doDiff args);
    ret (outputBuffer +:+ fst res, snd res)
  else if String.eqb cmd "level" then
    arg0 ← index args 0;
    bad ← setLevel arg0;
    ret (outputBuffer, bad)
  else if String.eqb cmd "lsof" then
    paths ← call (Tree_ListNodesInUse ops_tree);
    ret (fold_left (fun buf path => buf +:+ path +:+ newline)
                   (sort_Strings paths) outputBuffer, None)
  else if String.eqb cmd "dump" then
    call (Tree_DumpNodes ops_tree);;
    ret (outputBuffer, None)
  else if String.eqb cmd "keep-local-for" then
    arg0 ← index args 0;
    let parts := SplitN2 arg0 in
    part0 ← index parts 0;
    part1 ← index parts 1;
    call (Tree_Ignore ops_tree part0 part1);;
    ret (outputBuffer, None)
  else if String.eqb cmd "rename" then
    arg0 ← index args 0;
    arg1 ← index args 1;
    bad ← call (Tree_Rename ops_tree arg0 arg1);
    match bad with
    | Some err =>
        ret (outputBuffer,
             Some (GoError (Sprintf "could not rename %q to %q: %v"
                              [AString arg0; AString arg1; AError err])))
    | None => ret (outputBuffer, None)
    end
  else if String.eqb cmd "unlink" then runCommand_unlink args outputBuffer
  else if String.eqb cmd "graft" then runCommand_graft args outputBuffer
  else if String.eqb cmd "trim" then
    root ← call (Tree_Root ops_tree);
    call (Node_Trim root);;
    ret (outputBuffer, None)
  else if String.eqb cmd "flush" then
    bad ← call (Tree_Flush ops_tree);
    match bad with
    | Some err =>
        ret (outputBuffer,
             Some (GoError (Sprintf "could not flush: %v" [AError err])))
    | None => ret (outputBuffer +:+ "flushed" +:+ newline, None)
    end
  else if String.eqb cmd "pull" then runCommand_pull outputBuffer
  else if String.eqb cmd "push" then runCommand_push outputBuffer
  else
    ret (outputBuffer,
         Some (GoError (Sprintf "command not recognized: %q" [AString cmd]))).

(** [runCommand]: the deferred function stores the output buffer in the
    control node on every return after the command has been split. *)
Definition runCommand (cmd : string) : M (option error) :=
  match Fields cmd with
  | [] => ret None
  | cmd :: args =>
      res ← runCommand_switch cmd args "";
      c ← getCtl;
      setCtl (mkCtl (fst res) (Dir_set_Length (ctl_D c) (len (fst res))));;
      ret (snd res)
  end.

Definition Write (r : Req) : M unit :=
  a ← getAux (Fid r);
  match a with
  | Some AuxCtl =>
      now ← call Now_Unix;
      c ← getCtl;
      setCtl (mkCtl (ctl_contents c) (Dir_set_Mtime (ctl_D c) (to_uint32 now)));;
      bad ← runCommand (Tc_Data (Tc r));
      match bad with
      | Some err => respond (Rerror err)
      | None => respond (Rwrite (to_uint32 (len (Tc_Data (Tc r)))))
      end
  | _ =>
      l ← asFsNode a;
      node ← deref l;
      unlinked ← call (Node_Unlinked (fs_Node node));
      if unlinked then respond (Rerror Eunlinked)
      else
        bad ← call (Node_WriteAt (fs_Node node) (Tc_Data (Tc r))
                                 (to_int64 (Tc_Offset (Tc r))));
        match bad with
        | Some err => respond (Rerror err)
        | None => respond (Rwrite (to_uint32 (len (Tc_Data (Tc r)))))
        end
  end.

Definition Clunk (r : Req) : M unit :=
  a ← getAux (Fid r);
  match a with
  | Some AuxCtl => skip
  | _ =>
      l ← asFsNode a;
      node ← deref l;
      match fs_lock node with
      | Some lk =>
          call (unlockNode lk);;
          assign l (mkFsNode (fs_Node node) (fs_dirb node) None)
      | None => skip
      end
  end;;
  respond Rclunk.

Definition Remove (r : Req) : M unit :=
  a ← getAux (Fid r);
  match a with
  | Some AuxCtl => respond (Rerror Eperm)
  | _ =>
      l ← asFsNode a;
      node ← deref l;
      unlinked ← call (Node_Unlinked (fs_Node node));
      if unlinked then respond (Rerror Eunlinked)
      else
        bad ← call (Tree_Remove ops_tree (fs_Node node));
        match bad with
        | Some err =>
            if errors_Is err ErrNotEmpty then respond (Rerror Enotempty)
            else
              path ← call (Node_Path (fs_Node node));
              call (Log "info" []
                        (Sprintf "%s: %+v" [AString path; AError err]));;
              respond (Rerror Eperm)
        | None => respond Rremove
        end
  end.

Definition Stat (r : Req) : M unit :=
  a ← getAux (Fid r);
  match a with
  | Some AuxCtl =>
      c ← getCtl;
      respond (Rstat (ctl_D c))
  | _ =>
      l ← asFsNode a;
      node ← deref l;
      unlinked ← call (Node_Unlinked (fs_Node node));
      if unlinked then respond (Rerror Eunlinked)
      else
        dir ← NodeDir (fs_Node node);
        m ← call (moreMode (Qid_Path (Dir_Qid dir)));
        let dir :=
          if negb (Z.land m DMEXCL =? 0)
          then Dir_set_Qid_Type (Dir_set_Mode dir (Z.lor (Dir_Mode dir) DMEXCL))
                                (Z.lor (Qid_Type (Dir_Qid dir)) QTEXCL)
          else Dir_set_Qid_Type (Dir_set_Mode dir (Z.ldiff (Dir_Mode dir) DMEXCL))
                                (Z.ldiff (Qid_Type (Dir_Qid dir)) QTEXCL) in
        respond (Rstat dir)
  end.

(** The block [if dir.ChangeLength()] of [Wstat].  The result is [false]
    when the handler has responded and returned inside the block. *)
Definition Wstat_length (node : NodeRef) (dir : Dir) : M bool :=
  if ChangeLength dir
  then
    isdir ← call (Node_IsDir node);
    if isdir then respond (Rerror Eperm);; ret false
    else
      bad ← call (Node_Truncate node (Dir_Length dir));
      match bad with
      | Some err =>
          call (Log "error" [("cause", FError err)] "Could not truncate");;
          respond (Rerror Eperm);;
          ret false
      | None => ret true
      end
  else ret true.

(** The block [if dir.ChangeMode()] of [Wstat], with the same convention. *)
Definition Wstat_mode (node : NodeRef) (dir : Dir) : M bool :=
  if ChangeMode dir
  then
    bad ← checkMode (Some node) (Dir_Mode dir);
    match bad with
    | Some err => respond (Rerror err);; ret false
    | None =>
        qid ← NodeQID node;
        (if negb (Z.land (Dir_Mode dir) DMEXCL =? 0)
         then call (setMoreMode (Qid_Path qid) DMEXCL)
         else call (setMoreMode (Qid_Path qid) 0));;
        call (Node_SetPerm node (Z.land (Dir_Mode dir) 511));;
        ret true
    end
  else ret true.

Definition Wstat (r : Req) : M unit :=
  a ← getAux (Fid r);
  match a with
  | Some AuxCtl => respond (Rerror Eperm)
  | _ =>
      l ← asFsNode a;
      node ← deref l;
      unlinked ← call (Node_Unlinked (fs_Node node));
      if unlinked then respond (Rerror Eunlinked)
      else
        let dir := Tc_Dir (Tc r) in
        go ← Wstat_length (fs_Node node) dir;
        if negb go then skip
        else
          let dir := Dir_set_Muid (Dir_set_Atime dir uint32_max) "" in
          if ChangeIllegalFields dir
          then
            path ← call (Node_Path (fs_Node node));
            call (Log "warning" [("path", FString path); ("dir", FDir dir);
                                 ("qid", FQid (Dir_Qid dir))]
                      "Trying to change illegal fields");;
            respond (Rerror Eperm)
          else
            (if ChangeName dir
             then call (Node_Rename (fs_Node node) (Dir_Name dir)) else skip);;
            (if ChangeMtime dir
             then call (Node_Touch (fs_Node node) (Dir_Mtime dir)) else skip);;
            go ← Wstat_mode (fs_Node node) dir;
            if negb go then skip
            else if ChangeGID dir then respond (Rerror Eperm)
            else respond Rwstat
  end.

End Dispatcher.

(** ** Observations on a run *)

(** The responses handed to the 9P library, in order. *)
Definition response_of (e : Event) : option Response :=
  match e with
  | Ev c _ =>
      match c with
      | Respond resp => Some resp
      | _ => None
      end
  end.

Definition responses (t : list Event) : list Response := omap response_of t.

(** Calls that change the tree: its nodes, their attributes, content or
    reference counts, or what is persisted of it. *)
Definition modifies_tree {R : Type} (c : Call R) : bool :=
  match c with
  | Node_Ref _ _ | Node_Unref _ _ | Node_Truncate _ _ | Node_WriteAt _ _ _
  | Node_Rename _ _ | Node_Touch _ _ | Node_SetPerm _ _ | Node_Trim _
  | Tree_Add _ _ _ _ | Tree_Remove _ _ | Tree_Grow _ _ | Tree_Flush _
  | Tree_Seal _ | Tree_SetRevision _ _ | Tree_Ignore _ _ _
  | Tree_Rename _ _ _ | Tree_RemoveForMerge _ _ | Tree_Graft _ _ _ _ => true
  | _ => false
  end.

Definition is_mutation (e : Event) : bool :=
  match e with
  | Ev c _ => modifies_tree c
  end.

Definition mutations (t : list Event) : list Event := filter is_mutation t.

(** ** A model of the packages behind the calls *)

Module Model.

(** Modelled from the spec: the tree engine (package [tree]), the tree store
    with its two base pointers, the lock table and the side mode table are
    not part of the dispatcher's source.  A node has its attributes, a
    parent, children, content and the unlinked flag (spec, 3.3); the store
    holds the local and the remote base and the stored revisions (3.4, 3.5),
    each base updated by overwrite (6.3); the lock table maps a qid path to
    the owning fid and the side table maps a qid path to mode bits (4.5, 5). *)
Record node : Type := mkNode {
  info : NodeInfo;
  parent : NodeRef;
  children : list NodeRef;
  unlinked : bool;
  refs : Z;
  data : string
}.

Record world : Type := mkWorld {
  nodes : gmap N node;
  root : NodeRef;
  localbase : Pointer;
  remotebase : Pointer;
  revisions : list Revision;
  current : option Revision;
  worklog : string;
  locks : gmap Z FidRef;
  modes : gmap Z Z;
  clock : Z
}.

Definition set_nodes (w : world) (ns : gmap N node) : world :=
  mkWorld ns (root w) (localbase w) (remotebase w) (revisions w) (current w)
          (worklog w) (locks w) (modes w) (clock w).
Definition set_localbase (w : world) (p : Pointer) : world :=
  mkWorld (nodes w) (root w) p (remotebase w) (revisions w) (current w)
          (worklog w) (locks w) (modes w) (clock w).
Definition set_remotebase (w : world) (p : Pointer) : world :=
  mkWorld (nodes w) (root w) (localbase w) p (revisions w) (current w)
          (worklog w) (locks w) (modes w) (clock w).
Definition set_revisions (w : world) (rs : list Revision) : world :=
  mkWorld (nodes w) (root w) (localbase w) (remotebase w) rs (current w)
          (worklog w) (locks w) (modes w) (clock w).
Definition set_current (w : world) (r : Revision) : world :=
  mkWorld (nodes w) (root w) (localbase w) (remotebase w) (revisions w) (Some r)
          (worklog w) (locks w) (modes w) (clock w).
Definition set_locks (w : world) (ls : gmap Z FidRef) : world :=
  mkWorld (nodes w) (root w) (localbase w) (remotebase w) (revisions w)
          (current w) (worklog w) ls (modes w) (clock w).
Definition set_modes (w : world) (ms : gmap Z Z) : world :=
  mkWorld (nodes w) (root w) (localbase w) (remotebase w) (revisions w)
          (current w) (worklog w) (locks w) ms (clock w).

Definition no_info : NodeInfo := mkNodeInfo 0 0 0 0 0 "".
Definition no_node : node := mkNode no_info 0%N [] true 0 "".

Definition get_node (w : world) (n : NodeRef) : node :=
  default no_node (nodes w !! n).

Definition update_node (w : world) (n : NodeRef) (f : node -> node) : world :=
  set_nodes w (alter f n (nodes w)).

Definition is_dir (nd : node) : bool :=
  negb (Z.land (ni_Mode (info nd)) tree_DMDIR =? 0).

(** Every change of a node increments its version. *)
Definition touch_info (i : NodeInfo) (mode size modified : Z) (name : string)
  : NodeInfo :=
  mkNodeInfo (ni_ID i) (ni_Version i + 1) mode size modified name.

Definition set_size (new_size : Z) (nd : node) : node :=
  let i := info nd in
  mkNode (touch_info i (ni_Mode i) new_size (ni_Modified i) (ni_Name i))
         (parent nd) (children nd) (unlinked nd) (refs nd)
         (substring 0 (Z.to_nat new_size) (data nd)).

Definition set_name (name : string) (nd : node) : node :=
  let i := info nd in
  mkNode (touch_info i (ni_Mode i) (ni_Size i) (ni_Modified i) name)
         (parent nd) (children nd) (unlinked nd) (refs nd) (data nd).

Definition set_modified (mtime : Z) (nd : node) : node :=
  let i := info nd in
  mkNode (touch_info i (ni_Mode i) (ni_Size i) mtime (ni_Name i))
         (parent nd) (children nd) (unlinked nd) (refs nd) (data nd).

Definition set_perm (perm : Z) (nd : node) : node :=
  let i := info nd in
  mkNode (touch_info i (Z.lor (Z.ldiff (ni_Mode i) 511) perm) (ni_Size i)
                     (ni_Modified i) (ni_Name i))
         (parent nd) (children nd) (unlinked nd) (refs nd) (data nd).

Definition add_refs (k : Z) (nd : node) : node :=
  mkNode (info nd) (parent nd) (children nd) (unlinked nd) (refs nd + k) (data nd).

Definition set_unlinked (nd : node) : node :=
  mkNode (info nd) (parent nd) (children nd) true (refs nd) (data nd).

Definition set_children (cs : list NodeRef) (nd : node) : node :=
  mkNode (info nd) (parent nd) cs (unlinked nd) (refs nd) (data nd).

Definition set_data (d : string) (nd : node) : node :=
  let i := info nd in
  mkNode (touch_info i (ni_Mode i) (len d) (ni_Modified i) (ni_Name i))
         (parent nd) (children nd) (unlinked nd) (refs nd) d.

(** The child of [n] called [name]; dot-dot is the parent. *)
Definition child_named (w : world) (n : NodeRef) (name : string) : option NodeRef :=
  if String.eqb name ".." then Some (parent (get_node w n))
  else
    head (filter (fun c => ni_Name (info (get_node w c)) = name)
                 (children (get_node w n))).

(** The longest prefix of [names] that resolves from [n]. *)
Fixpoint walk (w : world) (n : NodeRef) (names : list string) : list NodeRef :=
  match names with
  | [] => []
  | name :: rest =>
      match child_named w n name with
      | Some c => c :: walk w c rest
      | None => []
      end
  end.

(** Writing [d] at offset [off] of [old], padding with zero bytes. *)
Fixpoint zeros (k : nat) : string :=
  match k with
  | O => ""
  | S k' => String (ascii_of_N 0) (zeros k')
  end.

Definition write_at (old d : string) (off : Z) : string :=
  let o := Z.to_nat off in
  let before := substring 0 o old in
  before +:+ zeros (o - String.length before) +:+ d
         +:+ substring (o + String.length d) (String.length old) old.

(** The text of an error. *)
Definition Error (e : error) : string :=
  match e with
  | P9Error msg _ => msg
  | GoError msg => msg
  | ErrNotExist => "does not exist"
  | ErrNotEmpty => "not empty"
  | Wrap msg _ => msg
  end.

Definition quote : string := String (ascii_of_N 34) "".

Fixpoint join (l : list string) : string :=
  match l with
  | [] => ""
  | [x] => x
  | x :: rest => x +:+ " " +:+ join rest
  end.

(** The rendering of one operand by the verb [verb]. *)
Definition render (verb : ascii) (a : option Arg) : string :=
  match a with
  | Some (AString s) =>
      if Ascii.eqb verb "q"%char then quote +:+ s +:+ quote else s
  | Some (AStrings l) => "[" +:+ join l +:+ "]"
  | Some (AInt z) => if Ascii.eqb verb "b"%char then fmt_b z else pretty z
  | Some (APointer p) => p
  | Some (AError e) => Error e
  | Some (ANode n) => "node " +:+ pretty n
  | None => "%!" +:+ String verb "(MISSING)"
  end.

(** [fmt.Sprintf] for the verbs the dispatcher uses ([%q] without the
    escapes). *)
Fixpoint Sprintf (format : string) (args : list Arg) : string :=
  match format with
  | EmptyString => ""
  | String a rest =>
      if Ascii.eqb a "%"%char
      then
        match rest with
        | String b rest' =>
            if Ascii.eqb b "+"%char
            then
              match rest' with
              | String v rest'' => render v (head args) +:+ Sprintf rest'' (tail args)
              | EmptyString => "%!(NOVERB)"
              end
            else render b (head args) +:+ Sprintf rest' (tail args)
        | EmptyString => "%!(NOVERB)"
        end
      else String a (Sprintf rest args)
  end.

Definition add_node (w : world) (parent_ : NodeRef) (name : string) (perm : Z)
  : NodeRef * world :=
  let id := fresh (dom (nodes w)) in
  let nd := mkNode (mkNodeInfo (Z.of_N id) 1 perm 0 (clock w) name)
                   parent_ [] false 0 "" in
  let ns := <[id := nd]> (nodes w) in
  let ns := alter (fun p => set_children (children p ++ [id]) p) parent_ ns in
  (id, set_nodes w ns).

Definition remove_node (w : world) (n : NodeRef) : option error * world :=
  let nd := get_node w n in
  if negb (bool_decide (children nd = [])) then (Some ErrNotEmpty, w)
  else
    let ns := alter set_unlinked n (nodes w) in
    let ns := alter (fun p => set_children (filter (fun c => c ≠ n) (children p)) p)
                    (parent nd) ns in
    (None, set_nodes w ns).

(** The answers of the model. *)
Definition env : Env world := fun R c =>
  match c in Call R return world -> R * world with
  | Node_IsDir n => fun w => (is_dir (get_node w n), w)
  | Node_IsRoot n => fun w => (bool_decide (n = root w), w)
  | Node_Unlinked n => fun w => (unlinked (get_node w n), w)
  | Node_Ref n _ => fun w => (tt, update_node w n (add_refs 1))
  | Node_Unref n _ => fun w => (tt, update_node w n (add_refs (-1)))
  | Node_Children n => fun w => (children (get_node w n), w)
  | Node_Info n => fun w => (info (get_node w n), w)
  | Node_Path n => fun w => (ni_Name (info (get_node w n)), w)
  | Node_Truncate n size => fun w => (None, update_node w n (set_size size))
  | Node_ReadAt n count off => fun w =>
      ((substring (Z.to_nat off) (Z.to_nat count) (data (get_node w n)), None), w)
  | Node_WriteAt n d off => fun w =>
      (None, update_node w n (fun nd => set_data (write_at (data nd) d off) nd))
  | Node_Rename n name => fun w => (tt, update_node w n (set_name name))
  | Node_Touch n mtime => fun w => (tt, update_node w n (set_modified mtime))
  | Node_SetPerm n perm => fun w => (tt, update_node w n (set_perm perm))
  | Node_Trim _ => fun w => (tt, w)
  | Tree_Attach _ => fun w => (root w, w)
  | Tree_Root _ => fun w => (root w, w)
  | Tree_Walk _ n names => fun w =>
      let found := walk w n names in
      ((found, if bool_decide (length found = length names) then None
               else Some ErrNotExist), w)
  | Tree_Add _ parent_ name perm => fun w =>
      if negb (is_dir (get_node w parent_))
      then ((0%N, Some (GoError "not a directory")), w)
      else
        match child_named w parent_ name with
        | Some _ => ((0%N, Some (GoError "exists")), w)
        | None => let r := add_node w parent_ name perm in ((fst r, None), snd r)
        end
  | Tree_Remove _ n => fun w => remove_node w n
  | Tree_Grow _ _ => fun w => (None, w)
  | Tree_Flush _ => fun w => (None, w)
  | Tree_Seal _ => fun w => (None, w)
  | Tree_SetRevision _ rev => fun w => (tt, set_current w rev)
  | Tree_PullWorklog _ _ _ => fun w => ((worklog w, None), w)
  | Tree_ListNodesInUse _ => fun w => ([], w)
  | Tree_DumpNodes _ => fun w => (tt, w)
  | Tree_Ignore _ _ _ => fun w => (tt, w)
  | Tree_Rename _ _ _ => fun w => (None, w)
  | Tree_RemoveForMerge _ n => fun w => remove_node w n
  | Tree_Graft _ _ _ _ => fun w => (None, w)
  | NewTree_WithRevision _ => fun w => ((1%N, None), w)
  | NewRevision _ parent_ => fun w =>
      (mkRevision ("r" +:+ pretty (length (revisions w)) +:+ "-" +:+ parent_)
                  parent_ ("r" +:+ pretty (length (revisions w))), w)
  | LocalBasePointer => fun w => ((localbase w, None), w)
  | RemoteBasePointer => fun w => ((remotebase w, None), w)
  | SetLocalBasePointer p => fun w => (None, set_localbase w p)
  | SetRemoteBasePointer p => fun w => (None, set_remotebase w p)
  | StoreRevision rev => fun w => (None, set_revisions w (rev :: revisions w))
  | NewPointerFromHex hex => fun w => ((hex, None), w)
  | lockNode fid n => fun w =>
      let path := ni_ID (info (get_node w n)) in
      match locks w !! path with
      | Some _ => (None, w)
      | None => (Some path, set_locks w (<[path := fid]> (locks w)))
      end
  | unlockNode l => fun w => (tt, set_locks w (delete l (locks w)))
  | moreMode path => fun w => (default 0 (modes w !! path), w)
  | setMoreMode path mode => fun w => (tt, set_modes w (<[path := mode]> (modes w)))
  | doDiff _ => fun w => (("", None), w)
  | ctl_read contents count off => fun w =>
      (substring (Z.to_nat off) (Z.to_nat count) contents, w)
  | NodeUID => fun w => ("muscle", w)
  | NodeGID => fun w => ("muscle", w)
  | DirBuffer_Read _ _ _ => fun w => (("", None), w)
  | Respond _ => fun w => (tt, w)
  | InitRread _ => fun w => (None, w)
  | Log _ _ _ => fun w => (tt, w)
  | ParseLevel level => fun w => ((level, None), w)
  | SetLevel _ => fun w => (tt, w)
  | Printf _ => fun w => (tt, w)
  | Now_Unix => fun w => (clock w, w)
  end.

End Model.

(** ** A small tree, for concrete runs *)

Module Example.

Import Model.

(** The root directory with a directory [etc] holding the file [motd]
    (five bytes), and the file [lock], marked exclusive-use in the side
    mode table.  Directories have mode 0755 (493), files 0644 (420). *)
Definition root_node : node :=
  mkNode (mkNodeInfo 0 1 (Z.lor DMDIR 493) 0 100 "/") 0%N [1%N; 2%N] false 1 "".
Definition etc_node : node :=
  mkNode (mkNodeInfo 1 1 (Z.lor DMDIR 493) 0 100 "etc") 0%N [3%N] false 0 "".
Definition lock_node : node :=
  mkNode (mkNodeInfo 2 1 420 0 100 "lock") 0%N [] false 0 "".
Definition motd_node : node :=
  mkNode (mkNodeInfo 3 1 420 5 100 "motd") 1%N [] false 0 "hello".
(** A node that was removed while a fid still refers to it. *)
Definition gone_node : node :=
  mkNode (mkNodeInfo 4 2 420 3 100 "gone") 0%N [] true 1 "old".

Definition tree0 : gmap N node :=
  <[0%N := root_node]> (<[1%N := etc_node]> (<[2%N := lock_node]>
  (<[3%N := motd_node]> (<[4%N := gone_node]> ∅)))).

(** Both base pointers at revision [aa]. *)
Definition w0 : world :=
  mkWorld tree0 0%N "aa" "aa" [] None "" ∅ (<[2 := DMEXCL]> ∅) 1000.

(** The remote base has moved on to [bb]. *)
Definition w_behind : world := set_remotebase w0 "bb".

(** The same, with a pull that has something to say. *)
Definition w_conflict : world :=
  mkWorld tree0 0%N "aa" "bb" [] None ("graft bb/etc/motd etc/motd" +:+ newline)
          ∅ (<[2 := DMEXCL]> ∅) 1000.

Definition ctl0 : ctl :=
  mkCtl "" (mkDir 0 0 (mkQid 0 0 1234567) 420 1000 1000 0 "ctl" "muscle" "muscle" "").

(** Fid 0 is attached to the root, fid 1 is the control file, fid 2 is on
    [motd], fid 3 on [lock], fid 4 on the removed node, fid 5 on [lock] for
    a second client, fid 6 on [etc]. *)
Definition s0 : State :=
  mkState
    (<[0%N := AuxNode 10%N]> (<[1%N := AuxCtl]> (<[2%N := AuxNode 12%N]>
     (<[3%N := AuxNode 13%N]> (<[4%N := AuxNode 14%N]>
     (<[5%N := AuxNode 15%N]> (<[6%N := AuxNode 16%N]> ∅)))))))
    (<[10%N := mkFsNode 0%N [] None]> (<[12%N := mkFsNode 3%N [] None]>
     (<[13%N := mkFsNode 2%N [] None]> (<[14%N := mkFsNode 4%N [] None]>
     (<[15%N := mkFsNode 2%N [] None]> (<[16%N := mkFsNode 1%N [] None]> ∅))))))
    ctl0.

Definition no_touch : Dir :=
  mkDir uint16_max uint32_max (mkQid uint8_max uint32_max uint64_max)
        uint32_max uint32_max uint32_max uint64_max "" "" "" "".

Definition tc0 : Fcall := mkFcall [] 0 0 "" 0 0 "" no_touch.

Definition walk_req (fid newfid : FidRef) (names : list string) : Req :=
  mkReq fid newfid (mkFcall names 0 0 "" 0 0 "" no_touch).
Definition open_req (fid : FidRef) (mode : Z) : Req :=
  mkReq fid 0%N (mkFcall [] mode 0 "" 0 0 "" no_touch).
Definition create_req (fid : FidRef) (name : string) (perm : Z) : Req :=
  mkReq fid 0%N (mkFcall [] 0 perm name 0 0 "" no_touch).
Definition write_req (fid : FidRef) (data_ : string) : Req :=
  mkReq fid 0%N (mkFcall [] 0 0 "" 0 0 data_ no_touch).
Definition wstat_req (fid : FidRef) (dir : Dir) : Req :=
  mkReq fid 0%N (mkFcall [] 0 0 "" 0 0 "" dir).
Definition plain_req (fid : FidRef) : Req := mkReq fid 0%N tc0.

End Example.

(** The dispatcher's memory after [runCommand] has stored the output buffer
    [out] in the control node. *)
Definition with_output (s : State) (out : string) : State :=
  mkState (st_aux s) (st_heap s)
          (mkCtl out (Dir_set_Length (ctl_D (st_c s)) (len out))).

(** Modelled from the spec: the tree store ([tree.Store]) is not part of the
    dispatcher's source.  The local base and the remote base are two durable
    scalars held by the tree store (3.5), each kept in a file of its own that
    is updated by overwrite (6.3): a pointer that was set is the pointer that
    is read, and setting one base leaves the other as it was. *)
Definition base_pointer_store {W : Type} (env : Env W) : Prop :=
  (forall (p : Pointer) (w : W),
      fst (env _ (SetLocalBasePointer p) w) = None ->
      fst (env _ LocalBasePointer (snd (env _ (SetLocalBasePointer p) w)))
      = (p, None))
  /\ (forall (p : Pointer) (w : W),
      fst (env _ (SetRemoteBasePointer p) w) = None ->
      fst (env _ RemoteBasePointer (snd (env _ (SetRemoteBasePointer p) w)))
      = (p, None))
  /\ (forall (p : Pointer) (w : W),
      fst (env _ RemoteBasePointer (snd (env _ (SetLocalBasePointer p) w)))
      = fst (env _ RemoteBasePointer w))
  /\ (forall (p : Pointer) (w : W),
      fst (env _ LocalBasePointer (snd (env _ (SetRemoteBasePointer p) w)))
      = fst (env _ LocalBasePointer w)).



(** The request [r] with other values for the atime and the muid of its
    [Twstat]. *)
Definition with_atime_muid (r : Req) (atime : Z) (muid : string) : Req :=
  mkReq (Fid r) (Newfid r)
        (mkFcall (Tc_Wname (Tc r)) (Tc_Mode (Tc r)) (Tc_Perm (Tc r))
                 (Tc_Name (Tc r)) (Tc_Count (Tc r)) (Tc_Offset (Tc r))
                 (Tc_Data (Tc r))
                 (Dir_set_Muid (Dir_set_Atime (Tc_Dir (Tc r)) atime) muid)).

(** The qid path of a node of the model, which is the key of the node in
    the lock table and in the side mode table. *)
Definition node_path (w : Model.world) (n : NodeRef) : Z :=
  ni_ID (Model.info (Model.get_node w n)).

(** The side mode table records the exclusive-use bit for the node. *)
Definition excl_recorded (w : Model.world) (n : NodeRef) : Prop :=
  Z.land (default 0 (Model.modes w !! node_path w n)) DMEXCL <> 0.

(** The dispatcher's memory with the [lock] field of the [fsNode] at [l]
    assigned. *)
Definition set_lock (s : State) (l : loc) (node : fsNode)
    (lk : option nodeLock) : State :=
  mkState (st_aux s)
          (<[l := mkFsNode (fs_Node node) (fs_dirb node) lk]> (st_heap s))
          (st_c s).

(** What [Open] has responded before it looks at the fid: the permission
    error when the mode has the remove-on-close bit. *)
Definition orclose_responses (mode : Z) : list Response :=
  if negb (Z.land mode ORCLOSE =? 0) then [Rerror Eperm] else [].

(** ** Every run of a program *)

(** [always p Q]: whatever the environment answers to the calls of [p], the
    calls made (with their answers) and the outcome satisfy [Q]. *)
Fixpoint always {X : Type} (p : Prog X)
    (Q : list Event -> Outcome X -> Prop) : Prop :=
  match p with
  | Ret x => Q [] (Done x)
  | Panic why => Q [] (Panicked why)
  | Vis c k => forall r, always (k r) (fun t o => Q (Ev c r :: t) o)
  end.

(** A command that is white space only. *)
Fixpoint all_space_from (s : string) (skip : nat) : bool :=
  match s with
  | EmptyString => true
  | String a rest =>
      match skip with
      | S k => all_space_from rest k
      | O =>
          match space_width s with
          | O => false
          | S k => all_space_from rest k
          end
      end
  end.

Definition all_space (s : string) : bool := all_space_from s 0.

(** The path has a separator. *)
Fixpoint has_slash (s : string) : bool :=
  match s with
  | EmptyString => false
  | String a rest => Ascii.eqb a "/"%char || has_slash rest
  end.

(** The words that [runCommand] has a case for. *)
Definition commands : list string :=
  ["diff"; "level"; "lsof"; "dump"; "keep-local-for"; "rename"; "unlink";
   "graft"; "trim"; "flush"; "pull"; "push"].

(** The control node with another modification time. *)
Definition set_ctl_Mtime (s : State) (mtime : Z) : State :=
  mkState (st_aux s) (st_heap s)
          (mkCtl (ctl_contents (st_c s)) (Dir_set_Mtime (ctl_D (st_c s)) mtime)).

(** ** Readings of a list of events *)

(** The base pointer files. *)
Inductive Base : Type := LocalBase | RemoteBase.

(** The writes of base pointers: which base, the pointer, and the answer. *)
Definition base_write_of (e : Event) : option (Base * Pointer * option error) :=
  match e with
  | Ev c r =>
      match c in Call R return R -> option (Base * Pointer * option error) with
      | SetLocalBasePointer p => fun r => Some (LocalBase, p, r)
      | SetRemoteBasePointer p => fun r => Some (RemoteBase, p, r)
      | _ => fun _ => None
      end r
  end.

Definition base_writes (t : list Event) : list (Base * Pointer * option error) :=
  omap base_write_of t.

(** The pointers read as the remote base. *)
Definition remote_base_read_of (e : Event) : option Pointer :=
  match e with
  | Ev c r =>
      match c in Call R return R -> option Pointer with
      | RemoteBasePointer => fun r => Some (fst r)
      | _ => fun _ => None
      end r
  end.

Definition remote_base_reads (t : list Event) : list Pointer :=
  omap remote_base_read_of t.

(** The revisions handed to the store, with the answers. *)
Definition stored_revision_of (e : Event) : option (Revision * option error) :=
  match e with
  | Ev c r =>
      match c in Call R return R -> option (Revision * option error) with
      | StoreRevision rev => fun r => Some (rev, r)
      | _ => fun _ => None
      end r
  end.

Definition stored_revisions (t : list Event) : list (Revision * option error) :=
  omap stored_revision_of t.

(** ** The dispatcher's memory across a handler *)

(** Every fid that is bound to an [fsNode] is bound to one that exists. *)
Definition bound_fids_live (s : State) : Prop :=
  forall (fid : FidRef) (l : loc),
    st_aux s !! fid = Some (AuxNode l) -> is_Some (st_heap s !! l).

(** The [fsNode] objects of [s] are objects of [s'], for the same nodes of
    the tree. *)
Definition objects_kept (s s' : State) : Prop :=
  forall (l : loc) (fn : fsNode),
    st_heap s !! l = Some fn ->
    exists fn', st_heap s' !! l = Some fn' /\ fs_Node fn' = fs_Node fn.

(** The fids are bound in [s'] as in [s], but for the fids of [but]. *)
Definition fids_kept (but : list FidRef) (s s' : State) : Prop :=
  forall fid : FidRef, fid ∉ but -> st_aux s' !! fid = st_aux s !! fid.

Definition memory_kept (but : list FidRef) (s s' : State) : Prop :=
  fids_kept but s s' /\ objects_kept s s'
  /\ (bound_fids_live s -> bound_fids_live s').

(** ** References to nodes of the tree *)

(** The references taken ([true]) and given back ([false]), in order. *)
Definition ref_of (e : Event) : option (NodeRef * bool) :=
  match e with
  | Ev c _ =>
      match c with
      | Node_Ref n _ => Some (n, true)
      | Node_Unref n _ => Some (n, false)
      | _ => None
      end
  end.

Definition refs (t : list Event) : list (NodeRef * bool) := omap ref_of t.

(** The node of the tree behind a fid, when the fid is bound to an
    [fsNode]. *)
Definition node_of_fid (s : State) (fid : FidRef) : option NodeRef :=
  match st_aux s !! fid with
  | Some (AuxNode l) => fs_Node <$> st_heap s !! l
  | _ => None
  end.

(** ** The lock table, as the handlers use it *)

(** The calls on the lock table: a lock asked for a fid on a node, with the
    answer, and a lock given back. *)
Inductive LockEvent : Type :=
| Asked (fid : FidRef) (n : NodeRef) (answer : option nodeLock)
| Unlocked (lk : nodeLock).

Definition lock_event_of (e : Event) : option LockEvent :=
  match e with
  | Ev c r =>
      match c in Call R return R -> option LockEvent with
      | lockNode fid n => fun answer => Some (Asked fid n answer)
      | unlockNode lk => fun _ => Some (Unlocked lk)
      | _ => fun _ => None
      end r
  end.

Definition lock_events (t : list Event) : list LockEvent := omap lock_event_of t.

(** The [lock] field of the [fsNode] of a fid. *)
Definition lock_of_fid (s : State) (fid : FidRef) : option (option nodeLock) :=
  match st_aux s !! fid with
  | Some (AuxNode l) => fs_lock <$> st_heap s !! l
  | _ => None
  end.

(** A clunk followed by the destruction of the fid: the handler, and then
    the destructor. *)
Definition Clunk_then_destroy (r : Req) : M unit :=
  Clunk r;; FidDestroy (Fid r).

(** ** Modes on their way to the tree and to the side mode table *)

(** The calls that carry a mode: a mode stored in the side mode table for
    a qid path, permission bits set on a node, and a node added with a
    mode. *)
Inductive ModeCall : Type :=
| SideMode (path mode : Z)
| Perm (n : NodeRef) (perm : Z)
| Added (parent : NodeRef) (name : string) (perm : Z).

Definition mode_call_of (e : Event) : option ModeCall :=
  match e with
  | Ev c _ =>
      match c with
      | setMoreMode path mode => Some (SideMode path mode)
      | Node_SetPerm n perm => Some (Perm n perm)
      | Tree_Add _ parent name perm => Some (Added parent name perm)
      | _ => None
      end
  end.

Definition mode_calls (t : list Event) : list ModeCall := omap mode_call_of t.

(** The side table is given the exclusive-use bit or nothing, a node is
    given permission bits only, and a node is added with permission bits,
    the directory bit and the exclusive-use bit only. *)
Definition mode_call_ok (c : ModeCall) : Prop :=
  match c with
  | SideMode _ mode => mode = 0 \/ mode = DMEXCL
  | Perm _ perm => Z.ldiff perm 511 = 0
  | Added _ _ perm => Z.ldiff perm (Z.lor (Z.lor 511 DMDIR) DMEXCL) = 0
  end.

(** ** The changes of a [Twstat] *)

(** The changes that [Wstat] makes to a node, with the answer of the tree
    where there is one. *)
Inductive Change : Type :=
| Truncated (n : NodeRef) (size : Z) (answer : option error)
| Renamed (n : NodeRef) (name : string)
| Touched (n : NodeRef) (mtime : Z)
| PermSet (n : NodeRef) (perm : Z).

Definition change_of (e : Event) : option Change :=
  match e with
  | Ev c r =>
      match c in Call R return R -> option Change with
      | Node_Truncate n size => fun answer => Some (Truncated n size answer)
      | Node_Rename n name => fun _ => Some (Renamed n name)
      | Node_Touch n mtime => fun _ => Some (Touched n mtime)
      | Node_SetPerm n perm => fun _ => Some (PermSet n perm)
      | _ => fun _ => None
      end r
  end.

Definition changes (t : list Event) : list Change := omap change_of t.

(** The changes that the directory entry of a [Twstat] asks for, in the
    order in which [Wstat] makes them; [truncated] is the answer of the
    tree to the truncation. *)
Definition Wstat_wanted (n : NodeRef) (dir : Dir) (truncated : option error)
  : list Change :=
  let dir' := Dir_set_Muid (Dir_set_Atime dir uint32_max) "" in
  (if ChangeLength dir then [Truncated n (Dir_Length dir) truncated] else [])
  ++ (if ChangeName dir' then [Renamed n (Dir_Name dir')] else [])
  ++ (if ChangeMtime dir' then [Touched n (Dir_Mtime dir')] else [])
  ++ (if ChangeMode dir' then [PermSet n (Z.land (Dir_Mode dir') 511)] else []).

(** ** The steps of [unlink] on the tree *)




(** ** What a node says it is *)



(** ** What a command writes *)

(** The answers that the commands print: the paths that the tree lists for
    [lsof], the text and the error of [doDiff] for [diff], the work log
    for [pull], and the revision that [push] makes. *)
Inductive CommandAnswer : Type :=
| Listed (paths : list string)
| Diffed (args : list string) (text : string) (err : option error)
| Worklog (commands : string) (err : option error)
| Revised (revision : Revision).

Definition command_answer_of (e : Event) : option CommandAnswer :=
  match e with
  | Ev c r =>
      match c in Call R return R -> option CommandAnswer with
      | Tree_ListNodesInUse _ => fun paths => Some (Listed paths)
      | doDiff args => fun res => Some (Diffed args (fst res) (snd res))
      | Tree_PullWorklog _ _ _ => fun res => Some (Worklog (fst res) (snd res))
      | NewRevision _ _ => fun revision => Some (Revised revision)
      | _ => fun _ => None
      end r
  end.

Definition command_answers (t : list Event) : list CommandAnswer :=
  omap command_answer_of t.

(** The lines that [push] prints before it makes the revision, and those
    that it prints after. *)
Definition push_lines_before : list string :=
  ["local base matches remote base, push allowed" +:+ newline;
   "push: flushed" +:+ newline;
   "push: sealed" +:+ newline].

Definition push_lines_after (Sprintf : string -> list Arg -> string)
    (revision : Revision) : list string :=
  [Sprintf ("push: revision created: %s" +:+ newline)
           [AString (rev_ShortString revision)];
   Sprintf ("push: updated remote base pointer: %v" +:+ newline)
           [APointer (rev_Key revision)];
   Sprintf ("push: updated local base pointer: %v" +:+ newline)
           [APointer (rev_Key revision)]].

Definition written (lines : list string) : string :=
  fold_left (fun buf line => buf +:+ line) lines "".

(** The output [out] of the command [word] with the arguments [args] that
    has returned [err], when [answers] are the answers it got to print. *)
Definition command_output (Sprintf : string -> list Arg -> string)
    (word : string) (args : list string) (answers : list CommandAnswer)
    (err : option error) (out : string) : Prop :=
  (word ∈ ["level"; "dump"; "keep-local-for"; "rename"; "unlink"; "trim"]
   \/ word ∉ commands -> out = "")
  /\ (word = "flush" ->
      out = match err with
            | None => "flushed" +:+ newline
            | Some _ => ""
            end)
  /\ (word = "lsof" ->
      exists paths,
        answers = [Listed paths]
        /\ out = fold_left (fun buf path => buf +:+ path +:+ newline)
                           (sort_Strings paths) "")
  /\ (word = "diff" ->
      exists text, answers = [Diffed args text err] /\ out = text)
  /\ (word = "graft" ->
      exists a0 a1 rest revision path,
        args = a0 :: a1 :: rest
        /\ Split a0 = revision :: path
        /\ out = Sprintf ("Grafting the node identified by the path elements %v from the revision %q into the local tree by walking the path elements %v" +:+ newline)
                   [AStrings path; AString revision;
                    AStrings (take (length (Split a1) - 1) (Split a1))])
  /\ (word = "pull" ->
      match err with
      | None =>
          (answers = []
           /\ out = "local base matches remote base, pull is a no-op" +:+ newline)
          \/ (answers = [Worklog "" None]
              /\ out = "no commands to run, pull is a no-op" +:+ newline)
          \/ (exists commands,
                answers = [Worklog commands None] /\ commands <> ""
                /\ out = commands)
      | Some e =>
          out = Sprintf "%+v" [AError e]
          \/ (answers = [Worklog "" None]
              /\ out = ("no commands to run, pull is a no-op" +:+ newline)
                       +:+ Sprintf "%+v" [AError e])
      end)
  /\ (word = "push" ->
      match err with
      | None =>
          exists revision,
            answers = [Revised revision]
            /\ out = written (push_lines_before ++ push_lines_after Sprintf revision)
      | Some e =>
          exists n : nat,
            (n <= 2)%nat
            /\ ((answers = []
                 /\ out = written (take n push_lines_before)
                          +:+ Sprintf "%+v" [AError e])
                \/ exists revision,
                     answers = [Revised revision]
                     /\ out = written (push_lines_before
                                         ++ take n (push_lines_after Sprintf revision))
                              +:+ Sprintf "%+v" [AError e])
      end).

(** * Properties *)

(** The mode bits that [checkMode] lets through: the nine permission bits,
    the directory bit and the exclusive-use bit. *)
Definition allowedModes : Z := Z.lor (Z.lor 511 DMDIR) DMEXCL.

(** Simplification of a run that leaves maps, strings and bit operations
    folded. *)
Ltac simp :=
  cbn -[lookup insert alter delete fresh dom String.append Z.land Z.lor
        Z.ldiff Z.eqb Z.modulo Z.pow rangeUnsupported knownModes checkMode
        mapM NodeQID prepareForReads Fields runCommand_switch].

(** ** Runs *)

Lemma run_bind {W A B : Type} (env : Env W) (m : M A) (f : A -> M B)
    (s : State) (w : W) :
  run env (bind m f s) w =
  match run env (m s) w with
  | (Done x, w', t) =>
      match run env (f (fst x) (snd x)) w' with
      | (o, w'', t') => (o, w'', t ++ t')
      end
  | (Panicked why, w', t) => (Panicked why, w', t)
  end.
Proof.
  unfold bind. generalize (m s) as p. intros p. revert w.
  induction p as [x|why|R c k IH]; intros w; cbn.
  - destruct (run env (f (fst x) (snd x)) w) as [[o w''] t']. reflexivity.
  - reflexivity.
  - destruct (env R c w) as [r w']. rewrite IH.
    destruct (run env (k r) w') as [[o w1] t1]. destruct o as [x|why]; cbn.
    + destruct (run env (f (fst x) (snd x)) w1) as [[o2 w2] t2]. reflexivity.
    + reflexivity.
Qed.

(** ** Mode bits *)

Lemma rangeUnsupported_None (order : list (Z * error)) (mode : Z) :
  rangeUnsupported order mode = None <->
  Forall (fun be => Z.land mode (fst be) = 0) order.
Proof.
  induction order as [|[bit err] rest IH]; cbn.
  - split; auto.
  - destruct (Z.eqb_spec (Z.land mode bit) 0) as [E|E]; cbn.
    + rewrite IH. split; [intros; constructor; auto | intros H; inversion H; auto].
    + split; [discriminate | intros H; inversion H; subst; cbn in *; contradiction].
Qed.


Lemma land_fold_lor (mode : Z) (l : list (Z * error)) (acc : Z) :
  Forall (fun be => Z.land mode (fst be) = 0) l ->
  Z.land mode (fold_left (fun a e => Z.lor a (fst e)) l acc) = Z.land mode acc.
Proof.
  revert acc. induction l as [|[bit e] rest IH]; intros acc H; cbn; [done|].
  inversion H as [|? ? Hb Hrest]; subst. cbn in Hb.
  rewrite IH by done. rewrite Z.land_lor_distr_r, Hb. apply Z.lor_0_r.
Qed.

Lemma ldiff_0_land (a b : Z) : Z.ldiff a b = 0 -> Z.land a b = a.
Proof.
  intros H. rewrite <- (Z.lor_ldiff_and a b) at 2. rewrite H. apply Z.lor_0_l.
Qed.

Lemma allowed_of_known (mode : Z) :
  Forall (fun be => Z.land mode (fst be) = 0) unsupportedModes ->
  Z.ldiff mode knownModes = 0 ->
  Z.ldiff mode allowedModes = 0.
Proof.
  intros Hbits Hknown.
  pose proof (land_fold_lor mode unsupportedModes allowedModes Hbits) as Hfold.
  change (fold_left _ unsupportedModes allowedModes) with knownModes in Hfold.
  rewrite (ldiff_0_land _ _ Hknown) in Hfold.
  apply Z.bits_inj'. intros n Hn. rewrite Z.ldiff_spec, Z.bits_0.
  rewrite Hfold at 1. rewrite Z.land_spec.
  destruct (Z.testbit mode n), (Z.testbit allowedModes n); reflexivity.
Qed.




(** [checkMode] on [nil] makes no call: it is the loop over the unsupported
    bits followed by the test of the unknown bits. *)
Lemma checkMode_nil (order : list (Z * error)) (mode : Z) (s : State) :
  checkMode order None mode s =
  Ret (match rangeUnsupported order mode with
       | Some err => Some err
       | None =>
           if negb (Z.ldiff mode knownModes =? 0)
           then Some (GoError ("unrecognized mode bits: "
                               +:+ fmt_b (Z.ldiff mode knownModes)))
           else None
       end, s).
Proof.
  unfold checkMode. simp.
  destruct (rangeUnsupported order mode); [reflexivity|].
  destruct (negb (Z.ldiff mode knownModes =? 0)); reflexivity.
Qed.






(** ** The control file: push and pull *)

(** [runCommand] picks the case of a command that is not one of the cases
    before it in the [switch]. *)
Lemma runCommand_push_case (Sprintf : string -> list Arg -> string)
    (cmd : string) (args : list string) (s : State) :
  Fields cmd = "push" :: args ->
  runCommand Sprintf cmd s =
  bind (runCommand_push Sprintf "")
       (fun res =>
          bind getCtl (fun c =>
          bind (setCtl (mkCtl (fst res) (Dir_set_Length (ctl_D c) (len (fst res)))))
               (fun _ => ret (snd res)))) s.
Proof. intros H. unfold runCommand. rewrite H. reflexivity. Qed.

Lemma runCommand_pull_case (Sprintf : string -> list Arg -> string)
    (cmd : string) (args : list string) (s : State) :
  Fields cmd = "pull" :: args ->
  runCommand Sprintf cmd s =
  bind (runCommand_pull Sprintf "")
       (fun res =>
          bind getCtl (fun c =>
          bind (setCtl (mkCtl (fst res) (Dir_set_Length (ctl_D c) (len (fst res)))))
               (fun _ => ret (snd res)))) s.
Proof. intros H. unfold runCommand. rewrite H. reflexivity. Qed.

(** C1.  Push checks its precondition first.  When the tree store yields
    the two base pointers and they differ, [runCommand] has made no call
    besides reading them (no flush, no seal, no revision stored), and it
    returns an error whose message is built from the local base, the remote
    base and the words "pull first"; the message is also what the control
    file then holds.  When they are equal, the next call is the flush. *)
Theorem push_checks_precondition_first {W : Type} (env : Env W)
    (Sprintf : string -> list Arg -> string) (w w1 w2 : W) (s : State)
    (cmd : string) (args : list string) (localbase remotebase : Pointer) :
  Fields cmd = "push" :: args ->
  env _ LocalBasePointer w = ((localbase, None), w1) ->
  env _ RemoteBasePointer w1 = ((remotebase, None), w2) ->
  (localbase <> remotebase ->
   let err :=
     GoError (Sprintf "local base %v does not match remote base %v, pull first"
                      [APointer localbase; APointer remotebase]) in
   run env (runCommand Sprintf cmd s) w =
   (Done (Some err, with_output s (Sprintf "%+v" [AError err])), w2,
    [Ev LocalBasePointer (localbase, None);
     Ev RemoteBasePointer (remotebase, None)]))
  /\ (localbase = remotebase ->
      exists (r : option error) (rest : list Event),
        trace env (runCommand Sprintf cmd s) w =
        Ev LocalBasePointer (localbase, None)
        :: Ev RemoteBasePointer (remotebase, None)
        :: Ev (Tree_Flush ops_tree) r :: rest).
Proof.
  intros HF H1 H2. rewrite (runCommand_push_case _ _ _ _ HF). split.
  - intros Hne. unfold runCommand_push. simp. rewrite H1. simp. rewrite H2. simp.
    unfold Pointer_Equals. rewrite bool_decide_eq_false_2 by done. reflexivity.
  - intros ->. unfold trace, runCommand_push. simp. rewrite H1. simp.
    rewrite H2. simp.
    unfold Pointer_Equals. rewrite bool_decide_eq_true_2 by done. simp.
    destruct (env _ (Tree_Flush ops_tree) w2) as [r w3].
    match goal with
    | |- context [after_event (Ev (Tree_Flush ops_tree) r) ?x] =>
        destruct x as [[o w'] t]
    end.
    simp. by exists r, t.
Qed.

(** The premises of [push_checks_precondition_first] hold in the model when
    the remote base has moved on; the push is refused. *)
Lemma push_checks_precondition_first_witness :
  Fields "push" = ["push"]
  /\ Model.env _ LocalBasePointer Example.w_behind
     = (("aa", None), Example.w_behind)
  /\ Model.env _ RemoteBasePointer Example.w_behind
     = (("bb", None), Example.w_behind)
  /\ run Model.env (runCommand Model.Sprintf "push" Example.s0) Example.w_behind
     = (Done (Some (GoError "local base aa does not match remote base bb, pull first"),
              with_output Example.s0
                "local base aa does not match remote base bb, pull first"),
        Example.w_behind,
        [Ev LocalBasePointer ("aa", None); Ev RemoteBasePointer ("bb", None)]).
Proof.
  split; [reflexivity|]. split; [reflexivity|]. split; [reflexivity|].
  apply (push_checks_precondition_first Model.env Model.Sprintf
           Example.w_behind Example.w_behind Example.w_behind Example.s0
           "push" [] "aa" "bb"); [reflexivity..|discriminate].
Defined.

(** C2.  Pull and the base pointers, when the tree store yields the two
    base pointers:
    - equal bases: the only calls are the two reads, and the control file
      holds the text "local base matches remote base, pull is a no-op";
    - different bases, both trees loaded, empty worklog: the last call, and
      the only one that writes a base pointer, sets the local base to the
      remote base;
    - different bases, both trees loaded, some worklog: the control file
      holds the worklog, and no call writes a base pointer. *)
Theorem pull_updates_base_pointers {W : Type} (env : Env W)
    (Sprintf : string -> list Arg -> string) (w w1 w2 : W) (s : State)
    (cmd : string) (args : list string) (localbase remotebase : Pointer) :
  Fields cmd = "pull" :: args ->
  env _ LocalBasePointer w = ((localbase, None), w1) ->
  env _ RemoteBasePointer w1 = ((remotebase, None), w2) ->
  (localbase = remotebase ->
   run env (runCommand Sprintf cmd s) w =
   (Done (None, with_output s ("local base matches remote base, pull is a no-op"
                               +:+ newline)),
    w2,
    [Ev LocalBasePointer (localbase, None);
     Ev RemoteBasePointer (remotebase, None)]))
  /\ (forall (w3 w4 w5 : W) (localbasetree remotebasetree : TreeRef)
             (commands : string),
         localbase <> remotebase ->
         env _ (NewTree_WithRevision localbase) w2 = ((localbasetree, None), w3) ->
         env _ (NewTree_WithRevision remotebase) w3 = ((remotebasetree, None), w4) ->
         env _ (Tree_PullWorklog ops_tree localbasetree remotebasetree) w4
         = ((commands, None), w5) ->
         (commands = "" ->
          trace env (runCommand Sprintf cmd s) w =
          [Ev LocalBasePointer (localbase, None);
           Ev RemoteBasePointer (remotebase, None);
           Ev (NewTree_WithRevision localbase) (localbasetree, None);
           Ev (NewTree_WithRevision remotebase) (remotebasetree, None);
           Ev (Tree_PullWorklog ops_tree localbasetree remotebasetree)
              (commands, None);
           Ev (SetLocalBasePointer remotebase)
              (fst (env _ (SetLocalBasePointer remotebase) w5))]
          /\ endworld env (runCommand Sprintf cmd s) w
             = snd (env _ (SetLocalBasePointer remotebase) w5))
         /\ (commands <> "" ->
             run env (runCommand Sprintf cmd s) w =
             (Done (None, with_output s commands), w5,
              [Ev LocalBasePointer (localbase, None);
               Ev RemoteBasePointer (remotebase, None);
               Ev (NewTree_WithRevision localbase) (localbasetree, None);
               Ev (NewTree_WithRevision remotebase) (remotebasetree, None);
               Ev (Tree_PullWorklog ops_tree localbasetree remotebasetree)
                  (commands, None)]))).
Proof.
  intros HF H1 H2. rewrite (runCommand_pull_case _ _ _ _ HF). split.
  - intros ->. unfold runCommand_pull. simp. rewrite H1. simp. rewrite H2. simp.
    unfold Pointer_Equals. rewrite bool_decide_eq_true_2 by done. reflexivity.
  - intros w3 w4 w5 lt rt commands Hne H3 H4 H5.
    unfold trace, endworld, runCommand_pull. simp. rewrite H1. simp.
    rewrite H2. simp.
    unfold Pointer_Equals. rewrite bool_decide_eq_false_2 by done. simp.
    rewrite H3. simp. rewrite H4. simp. rewrite H5. simp. split.
    + intros ->. cbn [String.length].
      rewrite bool_decide_eq_true_2 by done. simp.
      destruct (env _ (SetLocalBasePointer remotebase) w5) as [[e|] w6]; simp;
        split; reflexivity.
    + intros Hc. destruct commands as [|a rest]; [done|]. cbn [String.length].
      rewrite bool_decide_eq_false_2 by done. reflexivity.
Qed.

(** The premises of [pull_updates_base_pointers] hold in the model when the
    remote base has moved on and the worklog is empty: the pull is a fast
    forward, and the local base becomes the remote base. *)
Lemma pull_updates_base_pointers_witness :
  Fields "pull" = ["pull"]
  /\ Model.env _ LocalBasePointer Example.w_behind
     = (("aa", None), Example.w_behind)
  /\ Model.env _ RemoteBasePointer Example.w_behind
     = (("bb", None), Example.w_behind)
  /\ Model.localbase
       (endworld Model.env (runCommand Model.Sprintf "pull" Example.s0)
                 Example.w_behind) = "bb"
  /\ Model.remotebase
       (endworld Model.env (runCommand Model.Sprintf "pull" Example.s0)
                 Example.w_behind) = "bb".
Proof.
  split; [reflexivity|]. split; [reflexivity|]. split; [reflexivity|].
  destruct (pull_updates_base_pointers Model.env Model.Sprintf
              Example.w_behind Example.w_behind Example.w_behind Example.s0
              "pull" [] "aa" "bb" eq_refl eq_refl eq_refl) as [_ H].
  destruct (H Example.w_behind Example.w_behind Example.w_behind 1%N 1%N ""
              ltac:(discriminate) eq_refl eq_refl eq_refl) as [[_ Hw] _];
    [reflexivity|].
  rewrite Hw. split; reflexivity.
Defined.

(** C3.  Push, when its precondition holds and every call succeeds: the
    calls are, in this order, the two reads of the base pointers, [Flush],
    [Seal], the construction of a revision from the local root with the
    remote base as its parent, the storage of that revision, the update of
    the current revision of the tree, the update of the remote base to the
    key of the revision, and the update of the local base to the same key;
    [runCommand] returns without an error.  In a tree store that keeps the
    base pointers as the spec describes, both base pointers then read as the
    key of the new revision. *)
Theorem push_sequence {W : Type} (env : Env W)
    (Sprintf : string -> list Arg -> string)
    (w w1 w2 w3 w4 w5 w6 w7 w8 w9 w10 : W) (s : State)
    (cmd : string) (args : list string) (base : Pointer)
    (localroot : NodeRef) (revision : Revision) :
  Fields cmd = "push" :: args ->
  env _ LocalBasePointer w = ((base, None), w1) ->
  env _ RemoteBasePointer w1 = ((base, None), w2) ->
  env _ (Tree_Flush ops_tree) w2 = (None, w3) ->
  env _ (Tree_Seal ops_tree) w3 = (None, w4) ->
  env _ (Tree_Root ops_tree) w4 = (localroot, w5) ->
  env _ (NewRevision localroot base) w5 = (revision, w6) ->
  env _ (StoreRevision revision) w6 = (None, w7) ->
  env _ (Tree_SetRevision ops_tree revision) w7 = (tt, w8) ->
  env _ (SetRemoteBasePointer (rev_Key revision)) w8 = (None, w9) ->
  env _ (SetLocalBasePointer (rev_Key revision)) w9 = (None, w10) ->
  (exists out : string,
      run env (runCommand Sprintf cmd s) w =
      (Done (None, with_output s out), w10,
       [Ev LocalBasePointer (base, None);
        Ev RemoteBasePointer (base, None);
        Ev (Tree_Flush ops_tree) None;
        Ev (Tree_Seal ops_tree) None;
        Ev (Tree_Root ops_tree) localroot;
        Ev (NewRevision localroot base) revision;
        Ev (StoreRevision revision) None;
        Ev (Tree_SetRevision ops_tree revision) tt;
        Ev (SetRemoteBasePointer (rev_Key revision)) None;
        Ev (SetLocalBasePointer (rev_Key revision)) None]))
  /\ (base_pointer_store env ->
      fst (env _ LocalBasePointer w10) = (rev_Key revision, None)
      /\ fst (env _ RemoteBasePointer w10) = (rev_Key revision, None)).
Proof.
  intros HF H1 H2 H3 H4 H5 H6 H7 H8 H9 H10.
  rewrite (runCommand_push_case _ _ _ _ HF). split.
  - unfold runCommand_push. simp. rewrite H1. simp. rewrite H2. simp.
    unfold Pointer_Equals. rewrite bool_decide_eq_true_2 by done. simp.
    rewrite H3. simp. rewrite H4. simp. rewrite H5. simp. rewrite H6. simp.
    rewrite H7. simp. rewrite H8. simp. rewrite H9. simp. rewrite H10. simp.
    eexists. reflexivity.
  - intros (Hll & Hrr & Hlr & Hrl).
    pose proof (Hll (rev_Key revision) w9) as Hl.
    pose proof (Hlr (rev_Key revision) w9) as Hr.
    pose proof (Hrr (rev_Key revision) w8) as Hr8.
    rewrite H10 in Hl, Hr. rewrite H9 in Hr8. cbn [fst snd] in *.
    split; [by apply Hl|]. rewrite Hr. by apply Hr8.
Qed.

(** The model keeps the base pointers the way the spec describes. *)
Lemma Model_base_pointer_store : base_pointer_store Model.env.
Proof. repeat split. Qed.

(** The premises of [push_sequence] hold in the model when both bases are
    at the same revision; after the push both are the key of the revision
    that was stored, whose parent is the former remote base. *)
Lemma push_sequence_witness :
  let final :=
    endworld Model.env (runCommand Model.Sprintf "push" Example.s0) Example.w0 in
  Model.revisions final = [mkRevision "r0-aa" "aa" "r0"]
  /\ fst (Model.env _ LocalBasePointer final) = ("r0-aa", None)
  /\ fst (Model.env _ RemoteBasePointer final) = ("r0-aa", None).
Proof.
  pose (rev := mkRevision "r0-aa" "aa" "r0").
  pose (w7 := Model.set_revisions Example.w0 [rev]).
  pose (w8 := Model.set_current w7 rev).
  pose (w9 := Model.set_remotebase w8 "r0-aa").
  pose (w10 := Model.set_localbase w9 "r0-aa").
  destruct (push_sequence Model.env Model.Sprintf
              Example.w0 Example.w0 Example.w0 Example.w0 Example.w0
              Example.w0 Example.w0 w7 w8 w9 w10 Example.s0 "push" [] "aa"
              0%N rev eq_refl eq_refl eq_refl eq_refl eq_refl eq_refl eq_refl
              eq_refl eq_refl eq_refl eq_refl) as [[out Hrun] Hstore].
  unfold endworld. rewrite Hrun. cbn [fst snd].
  split; [reflexivity|]. exact (Hstore Model_base_pointer_store).
Defined.

(** ** Walk *)





(** ** Unlinked nodes *)




(** ** The control fid *)



(** ** Open with the remove-on-close bit *)

(** C10.  [Open] responds with the permission error when the mode has the
    remove-on-close bit, and then goes on as if it had not.  On a fid of a
    linked regular file that is not marked exclusive-use, with the truncate
    bit also set and a truncation that succeeds: after the permission error
    the file is truncated to length 0 and a second response, a successful
    one, is handed to the library. *)
Theorem Open_ORCLOSE_goes_on {W : Type} (env : Env W) (r : Req) (s : State)
    (w w1 w2 w3 w4 w5 w6 : W) (l : loc) (node : fsNode) (ni : NodeInfo) (m : Z) :
  st_aux s !! Fid r = Some (AuxNode l) ->
  st_heap s !! l = Some node ->
  Z.land (Tc_Mode (Tc r)) ORCLOSE <> 0 ->
  Z.land (Tc_Mode (Tc r)) OTRUNC <> 0 ->
  env _ (Respond (Rerror Eperm)) w = (tt, w1) ->
  env _ (Node_Unlinked (fs_Node node)) w1 = (false, w2) ->
  env _ (Node_Info (fs_Node node)) w2 = (ni, w3) ->
  env _ (moreMode (ni_ID ni)) w3 = (m, w4) ->
  Z.land m DMEXCL = 0 ->
  env _ (Node_IsDir (fs_Node node)) w4 = (false, w5) ->
  env _ (Node_Truncate (fs_Node node) 0) w5 = (None, w6) ->
  let qid := mkQid (if negb (Z.land (ni_Mode ni) tree_DMDIR =? 0)
                    then QTDIR else 0) (ni_Version ni) (ni_ID ni) in
  outcome env (Open r s) w = Done (tt, s)
  /\ trace env (Open r s) w
     = [Ev (Respond (Rerror Eperm)) tt;
        Ev (Node_Unlinked (fs_Node node)) false;
        Ev (Node_Info (fs_Node node)) ni;
        Ev (moreMode (ni_ID ni)) m;
        Ev (Node_IsDir (fs_Node node)) false;
        Ev (Node_Truncate (fs_Node node) 0) None;
        Ev (Respond (Ropen qid 0)) tt].
Proof.
  intros Ha Hh Hrc Htr Hp Hu Hi Hmm Hex Hd Ht qid. subst qid.
  apply Z.eqb_neq in Hrc, Htr.
  unfold outcome, trace, Open, NodeQID. simp. rewrite Hrc. simp. rewrite Hp. simp.
  rewrite Ha. simp. rewrite Hh. simp. rewrite Hu. simp. rewrite Hi. simp.
  rewrite Hmm. simp. rewrite Hex, Z.eqb_refl. simp. rewrite Hd. simp.
  rewrite Htr. simp. rewrite Ht. simp.
  match goal with
  | |- context [env _ (Respond ?resp) w6] =>
      destruct (env _ (Respond resp) w6) as [[] w7]
  end.
  done.
Qed.

(** The premises of [Open_ORCLOSE_goes_on] hold in the model for an open
    of [motd] (fid 2) with the remove-on-close and the truncate bit: there
    are two responses, and the file goes from five bytes to none. *)
Lemma Open_ORCLOSE_goes_on_witness :
  let r := Example.open_req 2%N (Z.lor ORCLOSE OTRUNC) in
  let res := run Model.env (Open r Example.s0) Example.w0 in
  responses (snd res) = [Rerror Eperm; Ropen (mkQid 0 1 3) 0]
  /\ mutations (snd res) = [Ev (Node_Truncate 3%N 0) None]
  /\ ni_Size (Model.info (Model.get_node Example.w0 3%N)) = 5
  /\ ni_Size (Model.info (Model.get_node (snd (fst res)) 3%N)) = 0.
Proof.
  intros r res.
  destruct (Open_ORCLOSE_goes_on Model.env r Example.s0
              Example.w0 Example.w0 Example.w0 Example.w0 Example.w0 Example.w0
              (Model.update_node Example.w0 3%N (Model.set_size 0))
              12%N (mkFsNode 3%N [] None) (Model.info Example.motd_node) 0)
    as [_ Ht]; [by vm_compute..|].
  unfold trace in Ht. fold res in Ht. rewrite Ht.
  split; [reflexivity|]. split; [reflexivity|]. split; [reflexivity|].
  by vm_compute.
Defined.

(** ** Wstat and the illegal fields *)

(** C7, as the claim states it, fails: a [Twstat] on [motd] that asks for
    length 0 and for a change of the type field is rejected with the
    permission error, but the file has been truncated before the illegal
    fields were looked at: its size is changed. *)
Lemma Wstat_truncates_before_rejecting :
  let dir := mkDir 0 uint32_max (mkQid uint8_max uint32_max uint64_max)
                   uint32_max uint32_max uint32_max 0 "" "" "" "" in
  let r := Example.wstat_req 2%N dir in
  let res := run Model.env (Wstat unsupportedModes r Example.s0) Example.w0 in
  ChangeIllegalFields (Dir_set_Muid (Dir_set_Atime dir uint32_max) "") = true
  /\ responses (snd res) = [Rerror Eperm]
  /\ ni_Size (Model.info (Model.get_node Example.w0 3%N)) = 5
  /\ ni_Size (Model.info (Model.get_node (snd (fst res)) 3%N)) = 0
  /\ Model.nodes (snd (fst res)) <> Model.nodes Example.w0.
Proof.
  intros dir r res. split; [reflexivity|]. split; [by vm_compute|].
  split; [reflexivity|]. split; [by vm_compute|].
  intros H. apply (f_equal (fun m => Model.info <$> m !! 3%N)) in H.
  vm_compute in H. discriminate H.
Qed.

(** C7, amended.  On a fid of a linked node:
    - [Wstat] is the same program whatever the requested atime and muid are,
      and a [Twstat] that asks for nothing but an atime and a muid gets the
      successful response, with no call that changes the tree;
    - when the [Twstat], with atime and muid overwritten, still asks for a
      change of an illegal field, the one response is the permission error,
      the dispatcher's memory is unchanged, and the only call that can have
      changed the tree is the truncation to the requested length, made when
      a length change is requested: no rename, no change of the modification
      time or of the mode, no change of the side mode table. *)
Theorem Wstat_rejects_illegal_fields {W : Type} (env : Env W)
    (order : list (Z * error)) (r : Req) (s : State) (w w1 : W)
    (l : loc) (node : fsNode) :
  st_aux s !! Fid r = Some (AuxNode l) ->
  st_heap s !! l = Some node ->
  env _ (Node_Unlinked (fs_Node node)) w = (false, w1) ->
  let dir := Tc_Dir (Tc r) in
  (forall (atime : Z) (muid : string),
      Wstat order (with_atime_muid r atime muid) = Wstat order r)
  /\ ((exists (atime : Z) (muid : string),
          dir = Dir_set_Muid (Dir_set_Atime Example.no_touch atime) muid) ->
      outcome env (Wstat order r s) w = Done (tt, s)
      /\ trace env (Wstat order r s) w
         = [Ev (Node_Unlinked (fs_Node node)) false; Ev (Respond Rwstat) tt])
  /\ (ChangeIllegalFields (Dir_set_Muid (Dir_set_Atime dir uint32_max) "") = true ->
      outcome env (Wstat order r s) w = Done (tt, s)
      /\ responses (trace env (Wstat order r s) w) = [Rerror Eperm]
      /\ (ChangeLength dir = false ->
          mutations (trace env (Wstat order r s) w) = [])
      /\ mode_calls (trace env (Wstat order r s) w) = []
      /\ Forall (fun e => exists bad : option error,
                     e = Ev (Node_Truncate (fs_Node node) (Dir_Length dir)) bad)
                (mutations (trace env (Wstat order r s) w))).
Proof.
  intros Ha Hh Hu dir. split; [reflexivity|]. split.
  - intros (atime & muid & Hdir). subst dir.
    unfold outcome, trace, Wstat. simp. rewrite Ha. simp. rewrite Hh. simp.
    rewrite Hu. simp. rewrite Hdir. unfold Wstat_length, Wstat_mode.
    change (Dir_set_Muid (Dir_set_Atime
              (Dir_set_Muid (Dir_set_Atime Example.no_touch atime) muid)
              uint32_max) "") with Example.no_touch.
    change (ChangeLength (Dir_set_Muid (Dir_set_Atime Example.no_touch atime) muid))
      with false.
    replace (ChangeIllegalFields Example.no_touch) with false by (by vm_compute).
    replace (ChangeName Example.no_touch) with false by (by vm_compute).
    replace (ChangeMtime Example.no_touch) with false by (by vm_compute).
    replace (ChangeMode Example.no_touch) with false by (by vm_compute).
    replace (ChangeGID Example.no_touch) with false by (by vm_compute).
    simp. destruct (env _ (Respond Rwstat) w1) as [[] w2]. done.
  - intros HC. subst dir.
    unfold outcome, trace, Wstat. simp. rewrite Ha. simp. rewrite Hh. simp.
    rewrite Hu. simp. unfold Wstat_length.
    destruct (ChangeLength (Tc_Dir (Tc r))) eqn:HL; simp.
    + destruct (env _ (Node_IsDir (fs_Node node)) w1) as [[|] w2]; simp.
      * destruct (env _ (Respond (Rerror Eperm)) w2) as [[] w3]. simp.
        split; [reflexivity|]. split; [reflexivity|]. split; [done|].
        split; [reflexivity|].
        constructor.
      * destruct (env _ (Node_Truncate (fs_Node node) (Dir_Length (Tc_Dir (Tc r)))) w2)
          as [[e|] w3]; simp.
        -- destruct (env _ (Log "error" [("cause", FError e)] "Could not truncate") w3)
             as [[] w4]. simp.
           destruct (env _ (Respond (Rerror Eperm)) w4) as [[] w5]. simp.
           split; [reflexivity|]. split; [reflexivity|]. split; [done|].
        split; [reflexivity|].
           repeat constructor. by eexists.
        -- rewrite HC. simp.
           destruct (env _ (Node_Path (fs_Node node)) w3) as [path w4]. simp.
           match goal with
           | |- context [env _ (Log ?a ?b ?c) w4] =>
               destruct (env _ (Log a b c) w4) as [[] w5]
           end. simp.
           destruct (env _ (Respond (Rerror Eperm)) w5) as [[] w6]. simp.
           split; [reflexivity|]. split; [reflexivity|]. split; [done|].
        split; [reflexivity|].
           repeat constructor. by eexists.
    + rewrite HC. simp.
      destruct (env _ (Node_Path (fs_Node node)) w1) as [path w4]. simp.
      match goal with
      | |- context [env _ (Log ?a ?b ?c) w4] =>
          destruct (env _ (Log a b c) w4) as [[] w5]
      end. simp.
      destruct (env _ (Respond (Rerror Eperm)) w5) as [[] w6]. simp.
      split; [reflexivity|]. split; [reflexivity|]. split; [done|].
        split; [reflexivity|].
      constructor.
Qed.

(** The premises of [Wstat_rejects_illegal_fields] hold in the model for a
    [Twstat] on [motd] that asks for a new name and for a change of the
    type field: the response is the permission error and the tree is as it
    was. *)
Lemma Wstat_rejects_illegal_fields_witness :
  let dir := mkDir 0 uint32_max (mkQid uint8_max uint32_max uint64_max)
                   uint32_max uint32_max uint32_max uint64_max "news" "" "" "" in
  let r := Example.wstat_req 2%N dir in
  responses (trace Model.env (Wstat unsupportedModes r Example.s0) Example.w0)
  = [Rerror Eperm]
  /\ mutations (trace Model.env (Wstat unsupportedModes r Example.s0) Example.w0)
     = [].
Proof.
  intros dir r.
  destruct (Wstat_rejects_illegal_fields Model.env unsupportedModes r Example.s0
              Example.w0 Example.w0 12%N (mkFsNode 3%N [] None))
    as (_ & _ & Hrej); [by vm_compute..|].
  destruct (Hrej eq_refl) as (_ & Hresp & Hmut & _).
  split; [exact Hresp | exact (Hmut eq_refl)].
Defined.

(** ** Exclusive-use files *)

(** Simplification of a run against the model. *)
Ltac msimp :=
  cbn -[lookup insert alter delete fresh dom String.append Z.land Z.lor
        Z.ldiff Z.eqb Z.modulo Z.pow rangeUnsupported knownModes checkMode
        mapM prepareForReads Fields runCommand_switch
        Model.get_node Model.is_dir Model.update_node default].

Lemma Open_locked_model (w : Model.world) (s : State) (r : Req) (l : loc)
    (node : fsNode) (other : FidRef) :
  st_aux s !! Fid r = Some (AuxNode l) ->
  st_heap s !! l = Some node ->
  Model.unlinked (Model.get_node w (fs_Node node)) = false ->
  excl_recorded w (fs_Node node) ->
  Model.locks w !! node_path w (fs_Node node) = Some other ->
  run Model.env (Open r s) w =
  (Done (tt, set_lock s l node None), w,
   omap (fun resp => Some (Ev (Respond resp) tt))
        (orclose_responses (Tc_Mode (Tc r)))
   ++ [Ev (Node_Unlinked (fs_Node node)) false;
       Ev (Node_Info (fs_Node node)) (Model.info (Model.get_node w (fs_Node node)));
       Ev (moreMode (node_path w (fs_Node node)))
          (default 0 (Model.modes w !! node_path w (fs_Node node)));
       Ev (lockNode (Fid r) (fs_Node node)) None;
       Ev (Respond (RerrorString "file already locked")) tt]).
Proof.
  unfold excl_recorded, node_path, orclose_responses. intros Ha Hh Hu Hm Hl.
  apply Z.eqb_neq in Hm.
  unfold Open, NodeQID. msimp.
  destruct (Z.land (Tc_Mode (Tc r)) ORCLOSE =? 0); msimp; rewrite Ha; msimp;
    rewrite Hh; msimp; rewrite Hu; msimp; rewrite Hm; msimp; rewrite Hl;
    reflexivity.
Qed.

Lemma Open_free_model (w : Model.world) (s : State) (r : Req) (l : loc)
    (node : fsNode) :
  st_aux s !! Fid r = Some (AuxNode l) ->
  st_heap s !! l = Some node ->
  Model.unlinked (Model.get_node w (fs_Node node)) = false ->
  Model.is_dir (Model.get_node w (fs_Node node)) = false ->
  excl_recorded w (fs_Node node) ->
  Model.locks w !! node_path w (fs_Node node) = None ->
  outcome Model.env (Open r s) w
  = Done (tt, set_lock s l node (Some (node_path w (fs_Node node))))
  /\ responses (trace Model.env (Open r s) w)
     = orclose_responses (Tc_Mode (Tc r))
       ++ [Ropen (mkQid QTEXCL
                        (ni_Version (Model.info (Model.get_node w (fs_Node node))))
                        (node_path w (fs_Node node))) 0]
  /\ Model.locks (endworld Model.env (Open r s) w)
     = <[node_path w (fs_Node node) := Fid r]> (Model.locks w).
Proof.
  unfold excl_recorded, node_path, orclose_responses. intros Ha Hh Hu Hd Hm Hl.
  assert (Hd' : (Z.land (ni_Mode (Model.info (Model.get_node w (fs_Node node))))
                        tree_DMDIR =? 0) = true).
  { unfold Model.is_dir in Hd. by apply negb_false_iff in Hd. }
  apply Z.eqb_neq in Hm.
  unfold outcome, trace, endworld, Open, NodeQID. msimp.
  destruct (Z.land (Tc_Mode (Tc r)) ORCLOSE =? 0); msimp; rewrite Ha; msimp;
    rewrite Hh; msimp; rewrite Hu; msimp; rewrite Hm; msimp; rewrite Hl; msimp;
    change (Model.get_node (Model.set_locks w ?ls) ?n) with (Model.get_node w n);
    rewrite Hd, Hd'; msimp;
    destruct (Z.land (Tc_Mode (Tc r)) OTRUNC =? 0); msimp; done.
Qed.

Lemma Clunk_model (w : Model.world) (s : State) (r : Req) (l : loc)
    (node : fsNode) (lk : nodeLock) :
  st_aux s !! Fid r = Some (AuxNode l) ->
  st_heap s !! l = Some node ->
  fs_lock node = Some lk ->
  run Model.env (Clunk r s) w =
  (Done (tt, set_lock s l node None),
   Model.set_locks w (delete lk (Model.locks w)),
   [Ev (unlockNode lk) tt; Ev (Respond Rclunk) tt]).
Proof.
  intros Ha Hh Hk. unfold Clunk. msimp. rewrite Ha. msimp. rewrite Hh. msimp.
  rewrite Hk. reflexivity.
Qed.

Lemma FidDestroy_model (w : Model.world) (s : State) (fid : FidRef) (l : loc)
    (node : fsNode) (lk : nodeLock) :
  st_aux s !! fid = Some (AuxNode l) ->
  st_heap s !! l = Some node ->
  fs_lock node = Some lk ->
  outcome Model.env (FidDestroy fid s) w = Done (tt, set_lock s l node None)
  /\ Model.locks (endworld Model.env (FidDestroy fid s) w)
     = delete lk (Model.locks w).
Proof.
  intros Ha Hh Hk. unfold outcome, endworld, FidDestroy. msimp. rewrite Ha. msimp.
  rewrite Hh. msimp. rewrite Hk. split; reflexivity.
Qed.

Lemma responses_app (t1 t2 : list Event) :
  responses (t1 ++ t2) = responses t1 ++ responses t2.
Proof. unfold responses. apply omap_app. Qed.

(** [Open] of a linked regular file whose qid path has the
    exclusive-use bit in the side mode table, in the model of the lock
    table (a map from qid path to owning fid).  Before anything else [Open]
    has responded with the permission error if the mode has the
    remove-on-close bit ([orclose_responses]); then:
    - when a fid holds the lock for the path, the response is "file already
      locked", and the lock table is as it was;
    - when no fid holds it, the response is a successful one with the
      exclusive bit in the qid type, the table maps the path to the opening
      fid, and the [fsNode] of the fid records the lock;
    - [Clunk] and [FidDestroy] of a fid whose [fsNode] records a lock remove
      the lock from the table and from the [fsNode];
    - so, when client A holds the lock and B has an [fsNode] of its own:
      an open by B is rejected, A clunks, and B's next open succeeds. *)
Theorem exclusive_open_lock (w : Model.world) (s : State) (r : Req) (l : loc)
    (node : fsNode) :
  st_aux s !! Fid r = Some (AuxNode l) ->
  st_heap s !! l = Some node ->
  Model.unlinked (Model.get_node w (fs_Node node)) = false ->
  Model.is_dir (Model.get_node w (fs_Node node)) = false ->
  excl_recorded w (fs_Node node) ->
  let path := node_path w (fs_Node node) in
  let before := orclose_responses (Tc_Mode (Tc r)) in
  let granted :=
    Ropen (mkQid QTEXCL
                 (ni_Version (Model.info (Model.get_node w (fs_Node node))))
                 path) 0 in
  (forall other : FidRef,
      Model.locks w !! path = Some other ->
      outcome Model.env (Open r s) w = Done (tt, set_lock s l node None)
      /\ responses (trace Model.env (Open r s) w)
         = before ++ [RerrorString "file already locked"]
      /\ endworld Model.env (Open r s) w = w)
  /\ (Model.locks w !! path = None ->
      outcome Model.env (Open r s) w = Done (tt, set_lock s l node (Some path))
      /\ responses (trace Model.env (Open r s) w) = before ++ [granted]
      /\ Model.locks (endworld Model.env (Open r s) w)
         = <[path := Fid r]> (Model.locks w))
  /\ (forall lk : nodeLock,
      fs_lock node = Some lk ->
      run Model.env (Clunk r s) w
      = (Done (tt, set_lock s l node None),
         Model.set_locks w (delete lk (Model.locks w)),
         [Ev (unlockNode lk) tt; Ev (Respond Rclunk) tt])
      /\ outcome Model.env (FidDestroy (Fid r) s) w
         = Done (tt, set_lock s l node None)
      /\ Model.locks (endworld Model.env (FidDestroy (Fid r) s) w)
         = delete lk (Model.locks w))
  /\ (forall (rA : Req) (lA : loc) (nodeA : fsNode),
      st_aux s !! Fid rA = Some (AuxNode lA) ->
      st_heap s !! lA = Some nodeA ->
      lA <> l ->
      fs_lock nodeA = Some path ->
      Model.locks w !! path = Some (Fid rA) ->
      responses
        (trace Model.env
           (bind (Open r) (fun _ => bind (Clunk rA) (fun _ => Open r)) s) w)
      = before ++ [RerrorString "file already locked"]
        ++ [Rclunk] ++ before ++ [granted]).
Proof.
  intros Ha Hh Hu Hd Hm path before granted.
  assert (Hbefore : responses
            (omap (fun resp => Some (Ev (Respond resp) tt))
                  (orclose_responses (Tc_Mode (Tc r)))) = before).
  { subst before. unfold orclose_responses.
    by destruct (negb (Z.land (Tc_Mode (Tc r)) ORCLOSE =? 0)). }
  refine (conj _ (conj _ (conj _ _))).
  - intros other Hl. unfold outcome, trace, endworld.
    rewrite (Open_locked_model w s r l node other) by done. cbn [fst snd].
    by rewrite responses_app, Hbefore.
  - intros Hl. by apply Open_free_model.
  - intros lk Hk. split; [by apply Clunk_model|].
    by apply FidDestroy_model.
  - intros rA lA nodeA HaA HhA Hne HkA Hl. unfold trace.
    rewrite run_bind, (Open_locked_model w s r l node (Fid rA)) by done.
    cbn [fst snd].
    rewrite run_bind,
      (Clunk_model w (set_lock s l node None) rA lA nodeA path HaA);
      [|by unfold set_lock; cbn; rewrite lookup_insert_ne | done].
    cbn [fst snd].
    pose (node' := mkFsNode (fs_Node node) (fs_dirb node) None).
    destruct (Open_free_model
                (Model.set_locks w (delete path (Model.locks w)))
                (set_lock (set_lock s l node None) lA nodeA None) r l node')
      as (_ & Hresp & _).
    + exact Ha.
    + unfold set_lock. cbn.
      rewrite lookup_insert_ne by done. apply lookup_insert_eq.
    + exact Hu.
    + exact Hd.
    + exact Hm.
    + apply lookup_delete_eq.
    + unfold trace in Hresp.
      match goal with
      | |- context [run Model.env (Open r ?s1) ?w1] =>
          destruct (run Model.env (Open r s1) w1) as [[o3 w3] t3] eqn:E
      end.
      pose proof (f_equal (fun x => responses (snd x)) E) as E'.
      cbn [snd] in E'.
      assert (H3 : responses t3 = before ++ [granted])
        by (rewrite <- E'; exact Hresp).
      cbv beta iota. cbn [fst snd].
      rewrite !responses_app, H3, Hbefore. rewrite <- app_assoc. reflexivity.
Qed.

(** The premises of [exclusive_open_lock] hold in the model for fid 3 on
    the file [lock]: its open takes the lock.  In the exchange of two
    clients, fid 3 and fid 5, the second open is refused, and it succeeds
    once fid 3 has been clunked. *)
Lemma exclusive_open_lock_witness :
  let rA := Example.open_req 3%N 0 in
  let rB := Example.open_req 5%N 0 in
  responses (trace Model.env (Open rA Example.s0) Example.w0)
  = [Ropen (mkQid QTEXCL 1 2) 0]
  /\ Model.locks (endworld Model.env (Open rA Example.s0) Example.w0)
     = <[2 := 3%N]> ∅
  /\ responses
       (trace Model.env
          (bind (Open rA) (fun _ => bind (Open rB) (fun _ =>
           bind (Clunk rA) (fun _ => Open rB))) Example.s0) Example.w0)
     = [Ropen (mkQid QTEXCL 1 2) 0; RerrorString "file already locked";
        Rclunk; Ropen (mkQid QTEXCL 1 2) 0].
Proof.
  intros rA rB.
  destruct (exclusive_open_lock Example.w0 Example.s0 rA 13%N
              (mkFsNode 2%N [] None)) as (_ & Hfree & _);
    [by vm_compute..|].
  destruct (Hfree eq_refl) as (_ & Hresp & Hlocks).
  split; [exact Hresp|]. split; [exact Hlocks|]. by vm_compute.
Defined.

(** C8.  The handlers lose track of a lock: the claim's "the lock is
    released when that fid is clunked or destroyed" fails.  Fid A and its
    clone B are bound to one [fsNode] (a [Walk] with no names shares it),
    and A has opened the exclusive-use file, so the [fsNode] records A's
    lock.  An [Open] by B is refused, as the claim says, because the lock
    is held: but [Open] stores the answer of [lockNode], which is [nil],
    in the [fsNode] before it looks at it, and that erases the record of
    A's lock.  A clunk of A followed by the destruction of A then makes no
    call on the lock table, in whatever state of the world: the lock is
    not given back. *)
Theorem refused_open_forgets_the_lock {W : Type} (env : Env W) (rA rB : Req)
    (s : State) (w w1 w2 w3 w4 : W) (l : loc) (node : fsNode)
    (lk : nodeLock) (ni : NodeInfo) (m : Z) :
  st_aux s !! Fid rA = Some (AuxNode l) ->
  st_aux s !! Fid rB = Some (AuxNode l) ->
  st_heap s !! l = Some node ->
  fs_lock node = Some lk ->
  Z.land (Tc_Mode (Tc rB)) ORCLOSE = 0 ->
  env _ (Node_Unlinked (fs_Node node)) w = (false, w1) ->
  env _ (Node_Info (fs_Node node)) w1 = (ni, w2) ->
  env _ (moreMode (ni_ID ni)) w2 = (m, w3) ->
  Z.land m DMEXCL <> 0 ->
  env _ (lockNode (Fid rB) (fs_Node node)) w3 = (None, w4) ->
  let s1 := set_lock s l node None in
  lock_of_fid s (Fid rA) = Some (Some lk)
  /\ outcome env (Open rB s) w = Done (tt, s1)
  /\ responses (trace env (Open rB s) w) = [RerrorString "file already locked"]
  /\ lock_events (trace env (Open rB s) w) = [Asked (Fid rB) (fs_Node node) None]
  /\ lock_of_fid s1 (Fid rA) = Some None
  /\ forall w' : W,
       outcome env (Clunk_then_destroy rA s1) w' = Done (tt, s1)
       /\ responses (trace env (Clunk_then_destroy rA s1) w') = [Rclunk]
       /\ lock_events (trace env (Clunk_then_destroy rA s1) w') = [].
Proof.
  intros HaA HaB Hh Hk Hmode E1 E2 E3 Hm E4 s1.
  assert (Hopen : exists wend,
    run env (Open rB s) w
    = (Done (tt, s1), wend,
       [Ev (Node_Unlinked (fs_Node node)) false;
        Ev (Node_Info (fs_Node node)) ni;
        Ev (moreMode (ni_ID ni)) m;
        Ev (lockNode (Fid rB) (fs_Node node)) None;
        Ev (Respond (RerrorString "file already locked")) tt])).
  { unfold Open, NodeQID. simp. apply Z.eqb_eq in Hmode. rewrite Hmode. simp.
    rewrite HaB. simp. rewrite Hh. simp. rewrite E1. simp. rewrite E2. simp.
    rewrite E3. simp. apply Z.eqb_neq in Hm. rewrite Hm. simp. rewrite E4. simp.
    destruct (env _ (Respond (RerrorString "file already locked")) w4) as [[] w5].
    by exists w5. }
  destruct Hopen as [wend Hopen].
  assert (Hl1 : st_heap s1 !! l = Some (mkFsNode (fs_Node node) (fs_dirb node) None))
    by apply lookup_insert_eq.
  split; [unfold lock_of_fid; by rewrite HaA, Hh; cbn; rewrite Hk|].
  unfold outcome, trace. rewrite Hopen. cbn [fst snd].
  split; [reflexivity|]. split; [reflexivity|]. split; [reflexivity|].
  split; [unfold lock_of_fid; cbn; by rewrite HaA, lookup_insert_eq|].
  intros w'. unfold Clunk_then_destroy, Clunk, FidDestroy. simp.
  rewrite HaA. simp. rewrite lookup_insert_eq. simp.
  destruct (env _ (Respond Rclunk) w') as [[] wa]. simp.
  rewrite HaA. simp. rewrite lookup_insert_eq. simp.
  destruct (env _ (Node_Unref (fs_Node node) "FidDestroy") wa) as [[] wb].
  done.
Qed.

(** The premises of [refused_open_forgets_the_lock] hold in the model
    after fid 3 on the file [lock] has been cloned as fid 7 and has opened
    the file: the open by fid 7 is refused, and after the clunk and the
    destruction of fid 3 the lock table still maps the file to fid 3, so
    that the open of another client, fid 5, is refused. *)
Lemma refused_open_forgets_the_lock_witness :
  let rA := Example.open_req 3%N 0 in
  let rB := Example.open_req 7%N 0 in
  let rC := Example.open_req 5%N 0 in
  let start := run Model.env
                 (bind (Walk (Example.walk_req 3%N 7%N []))
                       (fun _ => Open rA) Example.s0) Example.w0 in
  let s := match fst (fst start) with
           | Done x => snd x
           | Panicked _ => Example.s0
           end in
  let w := snd (fst start) in
  let s1 := set_lock s 13%N (mkFsNode 2%N [] (Some 2)) None in
  responses (snd start) = [Rwalk []; Ropen (mkQid QTEXCL 1 2) 0]
  /\ Model.locks w = <[2 := 3%N]> ∅
  /\ responses (trace Model.env (Open rB s) w)
     = [RerrorString "file already locked"]
  /\ lock_events (trace Model.env (Clunk_then_destroy rA s1) w) = []
  /\ Model.locks (endworld Model.env (Clunk_then_destroy rA s1) w)
     = <[2 := 3%N]> ∅
  /\ responses
       (trace Model.env (Open rC s1)
          (endworld Model.env (Clunk_then_destroy rA s1) w))
     = [RerrorString "file already locked"].
Proof.
  intros rA rB rC start s w s1.
  destruct (refused_open_forgets_the_lock Model.env rA rB s w w w w w 13%N
              (mkFsNode 2%N [] (Some 2)) 2
              (mkNodeInfo 2 1 420 0 100 "lock") DMEXCL)
    as (_ & _ & Hresp & _ & _ & Hafter); [by vm_compute..|].
  destruct (Hafter w) as (_ & _ & Hlocks).
  split; [by vm_compute|]. split; [by vm_compute|].
  split; [exact Hresp|]. split; [exact Hlocks|].
  split; by vm_compute.
Defined.


(** * More of the dispatcher *)

(** ** Runs against every environment *)

Lemma always_mono {X : Type} (p : Prog X)
    (Q Q' : list Event -> Outcome X -> Prop) :
  (forall t o, Q t o -> Q' t o) -> always p Q -> always p Q'.
Proof.
  revert Q Q'. induction p as [x|why|R c k IH]; intros Q Q' HQ; cbn.
  - apply HQ.
  - apply HQ.
  - intros H r. apply (IH r _ _ (fun t o => HQ (Ev c r :: t) o)), H.
Qed.

Lemma always_run {X : Type} (p : Prog X)
    (Q : list Event -> Outcome X -> Prop) :
  always p Q ->
  forall (W : Type) (env : Env W) (w : W),
    Q (trace env p w) (outcome env p w).
Proof.
  unfold trace, outcome. revert Q.
  induction p as [x|why|R c k IH]; intros Q H W env w; cbn in *.
  - exact H.
  - exact H.
  - destruct (env R c w) as [r w1]. specialize (IH r _ (H r) W env w1).
    destruct (run env (k r) w1) as [[o w2] t]. exact IH.
Qed.

Lemma always_bind {A B : Type} (m : M A) (f : A -> M B) (s : State)
    (Q : list Event -> Outcome (B * State) -> Prop) :
  always (m s)
    (fun t o =>
       match o with
       | Done x => always (f (fst x) (snd x)) (fun t' o' => Q (t ++ t') o')
       | Panicked why => Q t (Panicked why)
       end) ->
  always (bind m f s) Q.
Proof.
  unfold bind. generalize (m s) as p. intros p. revert Q.
  induction p as [x|why|R c k IH]; intros Q; cbn.
  - intros H. eapply always_mono; [|exact H]. done.
  - done.
  - intros H r. apply IH. eapply always_mono; [|exact (H r)].
    intros t [x|why] Ho; [|exact Ho].
    eapply always_mono; [|exact Ho]. done.
Qed.

(** ** Commands that do nothing, and commands that are not commands *)

Lemma Fields_from_blank (s : string) (skip : nat) :
  all_space_from s skip = true -> Fields_from s "" skip = [].
Proof.
  revert skip. induction s as [|a rest IH]; intros skip; [done|].
  cbn [all_space_from Fields_from]. destruct skip as [|k]; [|apply IH].
  destruct (space_width (String a rest)) as [|k]; [discriminate|].
  cbn [isEmpty]. apply IH.
Qed.

Lemma Fields_from_word (s word : string) :
  isEmpty word = false -> Fields_from s word 0 <> [].
Proof.
  revert word. induction s as [|a rest IH]; intros word Hw.
  - cbn. by rewrite Hw.
  - cbn [Fields_from]. destruct (space_width (String a rest)) as [|k].
    + apply IH. by destruct word.
    + by rewrite Hw.
Qed.

Lemma Fields_nil (s : string) : Fields s = [] <-> all_space s = true.
Proof.
  unfold Fields, all_space. split; [|apply Fields_from_blank].
  generalize 0%nat as skip. induction s as [|a rest IH]; intros skip; [done|].
  cbn [all_space_from Fields_from]. destruct skip as [|k]; [|apply IH].
  destruct (space_width (String a rest)) as [|k].
  - intros H. by apply Fields_from_word in H.
  - cbn [isEmpty]. apply IH.
Qed.

(** X1.  A command of white space only (the empty command too), written to
    the control file: [runCommand] returns before it has set up its output,
    so the write is acknowledged, no call is made for the command, and the
    control file keeps the output of the command before.  A command is
    without words exactly when it is white space only. *)
Theorem Write_blank_command {W : Type} (env : Env W)
    (Sprintf : string -> list Arg -> string) (r : Req) (s : State)
    (w w1 : W) (now : Z) :
  st_aux s !! Fid r = Some AuxCtl ->
  all_space (Tc_Data (Tc r)) = true ->
  env _ Now_Unix w = (now, w1) ->
  (forall cmd : string, Fields cmd = [] <-> all_space cmd = true)
  /\ runCommand Sprintf (Tc_Data (Tc r)) s = Ret (None, s)
  /\ outcome env (Write Sprintf r s) w
     = Done (tt, set_ctl_Mtime s (to_uint32 now))
  /\ trace env (Write Sprintf r s) w
     = [Ev Now_Unix now;
        Ev (Respond (Rwrite (to_uint32 (len (Tc_Data (Tc r)))))) tt].
Proof.
  intros Ha Hb Hn. apply Fields_nil in Hb.
  split; [exact Fields_nil|].
  assert (Hrun : forall s', runCommand Sprintf (Tc_Data (Tc r)) s' = Ret (None, s')).
  { intros s'. unfold runCommand. by rewrite Hb. }
  split; [apply Hrun|].
  assert (Hfull : exists w2,
             run env (Write Sprintf r s) w
             = (Done (tt, set_ctl_Mtime s (to_uint32 now)), w2,
                [Ev Now_Unix now;
                 Ev (Respond (Rwrite (to_uint32 (len (Tc_Data (Tc r)))))) tt])).
  { unfold Write. simp. rewrite Ha. simp. rewrite Hn. simp.
    unfold bind at 1. rewrite Hrun. simp.
    match goal with
    | |- context [env _ (Respond ?resp) w1] =>
        destruct (env _ (Respond resp) w1) as [[] w2]
    end.
    by exists w2. }
  destruct Hfull as [w2 Hfull]. unfold outcome, trace. by rewrite Hfull.
Qed.

Lemma Write_blank_command_witness :
  trace Model.env (Write Model.Sprintf (Example.write_req 1%N "  ") Example.s0)
        Example.w0
  = [Ev Now_Unix 1000; Ev (Respond (Rwrite 2)) tt].
Proof.
  apply (Write_blank_command Model.env Model.Sprintf
           (Example.write_req 1%N "  ") Example.s0 Example.w0 Example.w0 1000);
    by vm_compute.
Defined.

(** X2.  A command whose first word is not one of the twelve commands:
    [runCommand] makes no call, returns the error "command not recognized"
    on that word, and the control file holds the empty output, of length
    0, in place of the output of the command before. *)
Theorem runCommand_not_recognized {W : Type} (env : Env W)
    (Sprintf : string -> list Arg -> string) (s : State) (w : W)
    (cmd word : string) (args : list string) :
  Fields cmd = word :: args ->
  word ∉ commands ->
  run env (runCommand Sprintf cmd s) w
  = (Done (Some (GoError (Sprintf "command not recognized: %q" [AString word])),
           with_output s ""),
     w, []).
Proof.
  intros HF Hw. unfold runCommand. rewrite HF.
  assert (Hne : forall c, c ∈ commands -> String.eqb word c = false).
  { intros c Hc. apply String.eqb_neq. by intros ->. }
  unfold runCommand_switch.
  rewrite !Hne by (unfold commands; rewrite !elem_of_cons; tauto).
  reflexivity.
Qed.

Lemma runCommand_not_recognized_witness :
  run Model.env (runCommand Model.Sprintf "sync now" Example.s0) Example.w0
  = (Done (Some (GoError ("command not recognized: " +:+ Model.quote +:+ "sync"
                          +:+ Model.quote)),
           with_output Example.s0 ""),
     Example.w0, []).
Proof.
  apply (runCommand_not_recognized Model.env Model.Sprintf Example.s0 Example.w0
           "sync now" "sync" ["now"]); [reflexivity|].
  unfold commands. rewrite !elem_of_cons, elem_of_nil.
  intros H. destruct_or!; discriminate.
Defined.

(** ** Commands without their arguments *)

Lemma string_app_nil_r (s : string) : s +:+ "" = s.
Proof.
  induction s as [|a s IH]; [done|].
  change (String a (s +:+ "") = String a s). by rewrite IH.
Qed.

Lemma string_app_snoc (s rest : string) (a : ascii) :
  (s +:+ String a "") +:+ rest = s +:+ String a rest.
Proof.
  induction s as [|b s IH]; [done|].
  change (String b ((s +:+ String a "") +:+ rest) = String b (s +:+ String a rest)).
  by rewrite IH.
Qed.

Lemma SplitN2_from_no_slash (s piece : string) :
  has_slash s = false -> SplitN2_from s piece = [piece +:+ s].
Proof.
  revert piece. induction s as [|a rest IH]; intros piece H; cbn in *.
  - by rewrite string_app_nil_r.
  - destruct (Ascii.eqb a "/"%char); [discriminate|]. cbn in H.
    rewrite IH by done. by rewrite string_app_snoc.
Qed.

Lemma Split_from_cons (s piece : string) :
  exists p ps, Split_from s piece = p :: ps.
Proof.
  revert piece. induction s as [|a rest IH]; intros piece; cbn; [by eexists _, _|].
  destruct (Ascii.eqb a "/"%char); [by eexists _, _ | apply IH].
Qed.

(** X3.  The cases of [runCommand] index their arguments without looking
    at their number, but for [unlink].  So [level], [keep-local-for],
    [rename] and [graft] with no argument panic, as do [rename] and [graft]
    with one argument and [keep-local-for] with an argument that has no
    slash; no call has been made when they do.  [unlink] with no argument
    returns the error "missing argument to unlink". *)
Theorem runCommand_missing_argument {W : Type} (env : Env W)
    (Sprintf : string -> list Arg -> string) (s : State) (w : W)
    (cmd word : string) (args : list string) :
  Fields cmd = word :: args ->
  let panics :=
    run env (runCommand Sprintf cmd s) w
    = (Panicked "index out of range", w, []) in
  (word ∈ ["level"; "keep-local-for"; "rename"; "graft"] -> args = [] -> panics)
  /\ (word ∈ ["rename"; "graft"] -> length args = 1%nat -> panics)
  /\ (word = "keep-local-for" ->
      (exists arg, args = [arg] /\ has_slash arg = false) -> panics)
  /\ (word = "unlink" -> args = [] ->
      run env (runCommand Sprintf cmd s) w
      = (Done (Some (GoError "missing argument to unlink"), with_output s ""),
         w, [])).
Proof.
  intros HF panics. subst panics. unfold runCommand. rewrite HF.
  refine (conj _ (conj _ (conj _ _))).
  - rewrite !elem_of_cons, elem_of_nil. intros Hw ->.
    destruct_or!; try contradiction; subst word; reflexivity.
  - rewrite !elem_of_cons, elem_of_nil. intros Hw Hl.
    destruct args as [|a [|b rest]]; try discriminate Hl.
    destruct_or!; try contradiction; subst word; [reflexivity|].
    destruct (Split_from_cons a "") as (p & ps & Hs).
    unfold runCommand_switch. cbn [String.eqb Ascii.eqb Bool.eqb].
    unfold runCommand_graft, Split. cbn -[Split_from String.append].
    rewrite Hs. reflexivity.
  - intros -> (arg & -> & Hs).
    unfold runCommand_switch. cbn [String.eqb Ascii.eqb Bool.eqb].
    unfold SplitN2. cbn -[SplitN2_from String.append].
    rewrite (SplitN2_from_no_slash arg "" Hs). reflexivity.
  - intros -> ->. reflexivity.
Qed.

Lemma runCommand_missing_argument_witness :
  run Model.env (runCommand Model.Sprintf "level" Example.s0) Example.w0
  = (Panicked "index out of range", Example.w0, []).
Proof.
  destruct (runCommand_missing_argument Model.env Model.Sprintf Example.s0
              Example.w0 "level" "level" [] eq_refl) as [H _].
  apply H; [|reflexivity]. rewrite !elem_of_cons. by left.
Defined.

(** ** Pull and push, whatever the store and the tree answer *)

(** Case analysis over every answer to every call of a program. *)
Ltac all_runs :=
  repeat (cbn -[String.append lookup insert alter delete fresh dom
                Z.land Z.lor Z.ldiff Z.eqb Z.modulo Z.pow];
    match goal with
    | |- forall _ : _ * _, _ => intros [? ?]
    | |- forall _ : option _, _ => intros [?|]
    | |- forall _ : bool, _ => intros []
    | |- forall _ : unit, _ => intros []
    | |- forall _, _ => intro
    | |- always ?p _ =>
        match p with
        | context [if ?b then _ else _] => destruct b eqn:?
        | context [match ?x with _ => _ end] => destruct x eqn:?
        end
    end).

(** X4.  Pull, in every run: it returns (it cannot panic) and leaves the
    fids and the [fsNode] objects alone; it makes no call that changes the
    tree and never writes the remote base; it writes the local base at most
    once, and then with the pointer it has read as the remote base. *)
Theorem pull_only_fast_forwards {W : Type} (env : Env W)
    (Sprintf : string -> list Arg -> string) (s : State) (w : W)
    (cmd : string) (args : list string) :
  Fields cmd = "pull" :: args ->
  let t := trace env (runCommand Sprintf cmd s) w in
  mutations t = []
  /\ (base_writes t = []
      \/ exists rb bad, remote_base_reads t = [rb]
                        /\ base_writes t = [(LocalBase, rb, bad)])
  /\ exists err out, outcome env (runCommand Sprintf cmd s) w
                     = Done (err, with_output s out).
Proof.
  intros HF. cbv zeta.
  apply (always_run (runCommand Sprintf cmd s)
           (fun t o => mutations t = []
              /\ (base_writes t = []
                  \/ exists rb bad, remote_base_reads t = [rb]
                                    /\ base_writes t = [(LocalBase, rb, bad)])
              /\ exists err out, o = Done (err, with_output s out))).
  rewrite (runCommand_pull_case _ _ _ _ HF). unfold runCommand_pull.
  all_runs;
    (cbn; split; [reflexivity|];
     split; [first [left; reflexivity | right; eexists _, _; split; reflexivity]|];
     eexists _, _; reflexivity).
Qed.

Lemma pull_only_fast_forwards_witness :
  base_writes (trace Model.env (runCommand Model.Sprintf "pull" Example.s0)
                     Example.w_conflict) = []
  \/ exists rb bad,
      remote_base_reads (trace Model.env (runCommand Model.Sprintf "pull" Example.s0)
                               Example.w_conflict) = [rb]
      /\ base_writes (trace Model.env (runCommand Model.Sprintf "pull" Example.s0)
                            Example.w_conflict) = [(LocalBase, rb, bad)].
Proof.
  apply (pull_only_fast_forwards Model.env Model.Sprintf Example.s0
           Example.w_conflict "pull" []). reflexivity.
Defined.

(** X5.  Push, in every run: it returns and leaves the fids and the
    [fsNode] objects alone.  A base pointer is written only with the key of
    the one revision that the store has accepted, the remote base first and
    the local base only after the write of the remote base has succeeded.
    When push returns no error, both bases have been written with success.
    When it returns an error, the control file ends with that error. *)
Theorem push_stops_at_first_failure {W : Type} (env : Env W)
    (Sprintf : string -> list Arg -> string) (s : State) (w : W)
    (cmd : string) (args : list string) :
  Fields cmd = "push" :: args ->
  let t := trace env (runCommand Sprintf cmd s) w in
  exists err out,
    outcome env (runCommand Sprintf cmd s) w = Done (err, with_output s out)
    /\ (base_writes t = []
        \/ exists rev,
            stored_revisions t = [(rev, None)]
            /\ (base_writes t = [(RemoteBase, rev_Key rev, err)] /\ err <> None
                \/ base_writes t = [(RemoteBase, rev_Key rev, None);
                                    (LocalBase, rev_Key rev, err)]))
    /\ (err = None -> base_writes t <> [])
    /\ (forall e, err = Some e ->
                  exists before, out = before +:+ Sprintf "%+v" [AError e]).
Proof.
  intros HF. cbv zeta.
  apply (always_run (runCommand Sprintf cmd s)
           (fun t o =>
              exists err out,
                o = Done (err, with_output s out)
                /\ (base_writes t = []
                    \/ exists rev,
                        stored_revisions t = [(rev, None)]
                        /\ (base_writes t = [(RemoteBase, rev_Key rev, err)]
                            /\ err <> None
                            \/ base_writes t = [(RemoteBase, rev_Key rev, None);
                                                (LocalBase, rev_Key rev, err)]))
                /\ (err = None -> base_writes t <> [])
                /\ (forall e, err = Some e ->
                       exists before, out = before +:+ Sprintf "%+v" [AError e]))).
  rewrite (runCommand_push_case _ _ _ _ HF). unfold runCommand_push.
  all_runs;
    (cbn; eexists _, _; split; [reflexivity|];
     split;
     [first [left; reflexivity
            | right; eexists; split; [reflexivity|];
              first [left; split; [reflexivity | discriminate]
                    | right; reflexivity]]|];
     split; [try discriminate|];
     intros ? [= <-]; eexists; reflexivity).
Qed.

Lemma push_stops_at_first_failure_witness :
  exists err out,
    outcome Model.env (runCommand Model.Sprintf "push" Example.s0) Example.w_behind
    = Done (err, with_output Example.s0 out)
    /\ base_writes (trace Model.env (runCommand Model.Sprintf "push" Example.s0)
                          Example.w_behind) = [].
Proof.
  destruct (push_stops_at_first_failure Model.env Model.Sprintf Example.s0
              Example.w_behind "push" [] eq_refl) as (err & out & Ho & _).
  exists err, out. split; [exact Ho | reflexivity].
Defined.

(** ** What the control file holds after a command *)

Ltac which_command :=
  repeat match goal with
         | H : String.eqb _ _ = true |- _ => apply String.eqb_eq in H; subst
         | H : String.eqb _ _ = false |- _ => apply String.eqb_neq in H
         end.

Ltac output_conjunct :=
  first
    [ intros _; reflexivity
    | intros _; eexists; split; reflexivity
    | let H := fresh in intros H; first [discriminate H | contradiction]
    | let H := fresh in
      intros [H|H];
      [ rewrite ?elem_of_cons, ?elem_of_nil in H; destruct_or!;
        first [discriminate | contradiction]
      | exfalso; apply H; unfold commands; rewrite ?elem_of_cons; tauto ] ].

Ltac empty_worklog :=
  repeat match goal with
         | H : bool_decide (String.length ?c = 0%nat) = true |- _ =>
             apply bool_decide_eq_true in H;
             destruct c; [|discriminate H]; clear H
         | H : bool_decide (String.length ?c = 0%nat) = false |- _ =>
             apply bool_decide_eq_false in H
         end.

Ltac pull_output :=
  intros _;
  first
    [ left; reflexivity
    | right; split; reflexivity
    | left; split; reflexivity
    | right; left; split; reflexivity
    | right; right; eexists; split; [reflexivity|];
      split; [|reflexivity];
      match goal with
      | H : String.length _ <> 0%nat |- _ => intros ->; apply H; reflexivity
      end ].

Ltac push_output_after n :=
  exists n; split; [lia|];
  first [ left; split; reflexivity
        | right; eexists; split; reflexivity ].

Ltac push_output :=
  intros _;
  first
    [ eexists; split; reflexivity
    | push_output_after 0%nat
    | push_output_after 1%nat
    | push_output_after 2%nat ].

Lemma runCommand_output (Sprintf : string -> list Arg -> string)
    (cmd : string) (s : State) :
  always (runCommand Sprintf cmd s)
    (fun t o =>
       match o with
       | Done x =>
           (Fields cmd = [] /\ snd x = s)
           \/ exists word args out,
                Fields cmd = word :: args
                /\ snd x = with_output s out
                /\ command_output Sprintf word args (command_answers t)
                                  (fst x) out
       | Panicked _ => True
       end).
Proof.
  unfold runCommand. destruct (Fields cmd) as [|word args] eqn:HF.
  - cbn. by left.
  - unfold runCommand_switch.
    destruct (String.eqb word "graft") eqn:Hg.
    + apply String.eqb_eq in Hg. subst word. cbn [String.eqb Ascii.eqb Bool.eqb].
      unfold runCommand_graft, index.
      destruct args as [|a0 args]; [exact I|].
      destruct (Split_from_cons a0 "") as (revision & path & Hs).
      cbn -[Split String.append].
      assert (Hs' : Split a0 = revision :: path) by exact Hs.
      rewrite Hs'. cbn -[Split String.append].
      destruct args as [|a1 rest]; [exact I|].
      cbn -[Split String.append].
      all_runs; cbn -[Split String.append]; try exact I.
      all: right; eexists _, _, _; split; [reflexivity|]; split; [reflexivity|].
      all: unfold command_output, commands;
        refine (conj _ (conj _ (conj _ (conj _ (conj _ (conj _ _)))))); try output_conjunct.
      all: intros _; exists a0, a1, rest, revision, path.
      all: split; [reflexivity|]; split; [exact Hs' | reflexivity].
    + unfold runCommand_unlink, runCommand_graft, runCommand_pull,
        runCommand_push, setLevel, index.
      all_runs; cbn -[Split String.append sort_Strings commands]; try exact I.
      all: which_command.
      all: right; eexists _, _, _; split; [reflexivity|]; split; [reflexivity|].
      all: unfold command_output;
        refine (conj _ (conj _ (conj _ (conj _ (conj _ (conj _ _)))))); try output_conjunct.
      all: empty_worklog.
      all: first [pull_output | push_output].
Qed.

(** X6.  [runCommand], for every command and in every run that returns:
    the fids and the [fsNode] objects are as before; of the control node
    only the contents and the length change, and they change together: a
    command without words changes nothing, and after any other command the
    contents are the output of that command and the length is the length of
    these contents.  The output is what the command prints ([command_output]):
    nothing after [level], [dump], [keep-local-for], [rename], [unlink],
    [trim] and after a word that is no command; the line [flushed] after a
    [flush] that succeeds and nothing after one that fails; the sorted paths
    in use, one on a line, after [lsof]; the text of [doDiff] after [diff],
    with whose error the command returns; the line about the path elements
    after a [graft] that has got that far; after [pull] its one message or
    the work log, followed by the error if one is returned; after [push]
    the progress lines up to the step that failed, followed by that
    error. *)
Theorem runCommand_keeps_memory {W : Type} (env : Env W)
    (Sprintf : string -> list Arg -> string) (s s' : State) (w : W)
    (cmd : string) (err : option error) :
  outcome env (runCommand Sprintf cmd s) w = Done (err, s') ->
  (Fields cmd = [] /\ s' = s)
  \/ exists (word : string) (args : list string) (out : string),
       Fields cmd = word :: args
       /\ s' = with_output s out
       /\ Dir_Length (ctl_D (st_c s')) = len (ctl_contents (st_c s'))
       /\ command_output Sprintf word args
            (command_answers (trace env (runCommand Sprintf cmd s) w)) err out.
Proof.
  intros Ho.
  pose proof (always_run _ _ (runCommand_output Sprintf cmd s) W env w) as H.
  cbv beta in H. rewrite Ho in H. cbn [fst snd] in H.
  destruct H as [H|(word & args & out & HF & -> & Hout)]; [by left|].
  right. exists word, args, out. split; [exact HF|].
  split; [reflexivity|]. split; [reflexivity | exact Hout].
Qed.

Lemma runCommand_keeps_memory_witness :
  exists out : string,
    outcome Model.env (runCommand Model.Sprintf "lsof" Example.s0) Example.w0
    = Done (None, with_output Example.s0 out)
    /\ command_output Model.Sprintf "lsof" []
         (command_answers
            (trace Model.env (runCommand Model.Sprintf "lsof" Example.s0)
                   Example.w0))
         None out.
Proof.
  destruct (runCommand_keeps_memory Model.env Model.Sprintf Example.s0
              (with_output Example.s0 "") Example.w0 "lsof" None eq_refl)
    as [[H _]|(word & args & out & HF & Hs & _ & Hout)]; [discriminate H|].
  injection HF as <- <-. exists out. split; [|exact Hout].
  rewrite <- Hs. reflexivity.
Defined.

(** ** Programs made of programs *)

Lemma always_Prog_bind {A B : Type} (p : Prog A) (f : A -> Prog B)
    (Q : list Event -> Outcome B -> Prop) :
  always p
    (fun t o =>
       match o with
       | Done x => always (f x) (fun t' o' => Q (t ++ t') o')
       | Panicked why => Q t (Panicked why)
       end) ->
  always (Prog_bind p f) Q.
Proof.
  revert Q. induction p as [x|why|R c k IH]; intros Q; cbn.
  - intros H. eapply always_mono; [|exact H]. done.
  - done.
  - intros H r. apply IH. eapply always_mono; [|exact (H r)].
    intros t [x|why] Ho; [|exact Ho].
    eapply always_mono; [|exact Ho]. done.
Qed.

Lemma always_then {A B : Type} (p : Prog A) (f : A -> Prog B)
    (P : list Event -> Outcome A -> Prop)
    (Q : list Event -> Outcome B -> Prop) :
  always p P ->
  (forall t x, P t (Done x) -> always (f x) (fun t' o' => Q (t ++ t') o')) ->
  (forall t why, P t (Panicked why) -> Q t (Panicked why)) ->
  always (Prog_bind p f) Q.
Proof.
  intros Hp Hd Hpanic. apply always_Prog_bind.
  eapply always_mono; [|exact Hp].
  intros t [x|why]; [apply Hd | apply Hpanic].
Qed.

(** The parts of the handlers that are loops or are shared, in every run:
    they return, they leave the dispatcher's memory as it is (but for the
    directory buffer that [prepareForReads] fills), and they make calls of
    a few kinds only. *)

Lemma mapM_NodeQID_always (P : Event -> Prop) (nodes : list NodeRef) (s : State) :
  (forall n ni, P (Ev (Node_Info n) ni)) ->
  always (mapM NodeQID nodes s)
    (fun t o => Forall P t
                /\ exists qids, o = Done (qids, s) /\ length qids = length nodes).
Proof.
  intros HP. induction nodes as [|n rest IH]; cbn.
  - split; [constructor|]. by exists [].
  - intros ni. apply always_Prog_bind. eapply always_mono; [|exact IH].
    intros t o (Ht & qids & -> & Hl). cbn. rewrite app_nil_r.
    split; [by constructor|].
    eexists. split; [reflexivity|]. cbn. by rewrite Hl.
Qed.

Lemma prepareForReads_loop_always (P : Event -> Prop) (children : list NodeRef)
    (dir : Dir) (dirb : list Dir) (s : State) :
  (forall n ni, P (Ev (Node_Info n) ni)) ->
  (forall x, P (Ev NodeUID x)) ->
  (forall x, P (Ev NodeGID x)) ->
  always (prepareForReads_loop children dir dirb s)
    (fun t o => Forall P t
                /\ exists entries, o = Done (dirb ++ entries, s)
                                   /\ length entries = length children).
Proof.
  intros H1 H2 H3. revert dir dirb.
  induction children as [|n rest IH]; intros dir dirb; cbn.
  - split; [constructor|]. exists []. by rewrite app_nil_r.
  - intros ni uid gid. eapply always_mono; [|apply IH].
    intros t o (Ht & entries & -> & Hl). cbn. split; [by repeat constructor|].
    eexists (_ :: entries). rewrite <- app_assoc. split; [reflexivity|].
    cbn. by rewrite Hl.
Qed.

Lemma checkMode_always (P : Event -> Prop) (order : list (Z * error))
    (node : option NodeRef) (mode : Z) (s : State) :
  (forall n b, P (Ev (Node_IsDir n) b)) ->
  always (checkMode order node mode s)
    (fun t o =>
       Forall P t
       /\ exists bad, o = Done (bad, s)
                      /\ (bad = None ->
                          rangeUnsupported order mode = None
                          /\ Z.ldiff mode knownModes = 0)).
Proof.
  intros HP.
  assert (Hend : forall t,
    Forall P t ->
    always
      (match rangeUnsupported order mode with
       | Some err => ret (Some err)
       | None =>
           if negb (Z.ldiff mode knownModes =? 0)
           then ret (Some (GoError ("unrecognized mode bits: "
                                    +:+ fmt_b (Z.ldiff mode knownModes))))
           else ret None
       end s)
      (fun t' o =>
         Forall P (t ++ t')
         /\ exists bad, o = Done (bad, s)
                        /\ (bad = None ->
                            rangeUnsupported order mode = None
                            /\ Z.ldiff mode knownModes = 0))).
  { intros t Ht. destruct (rangeUnsupported order mode).
    - cbn. rewrite app_nil_r. split; [done|]. by eexists.
    - destruct (Z.eqb_spec (Z.ldiff mode knownModes) 0) as [E|E]; cbn;
        rewrite app_nil_r; (split; [done|]); by eexists. }
  unfold checkMode.
  destruct node as [n|]; cbn -[rangeUnsupported knownModes Z.ldiff].
  - intros d.
    destruct (d && (Z.land mode DMDIR =? 0)); cbn -[rangeUnsupported knownModes Z.ldiff].
    + split; [by repeat constructor | by eexists].
    + intros d'.
      destruct (negb d' && negb (Z.land mode DMDIR =? 0));
        cbn -[rangeUnsupported knownModes Z.ldiff];
        [split; [by repeat constructor | by eexists]|].
      apply (Hend [Ev (Node_IsDir n) d; Ev (Node_IsDir n) d']).
      by repeat constructor.
  - apply (Hend []). constructor.
Qed.

Lemma always_bind_then {A B : Type} (m : M A) (f : A -> M B) (s : State)
    (P : list Event -> Outcome (A * State) -> Prop)
    (Q : list Event -> Outcome (B * State) -> Prop) :
  always (m s) P ->
  (forall t x s', P t (Done (x, s')) ->
                  always (f x s') (fun t' o' => Q (t ++ t') o')) ->
  (forall t why, P t (Panicked why) -> Q t (Panicked why)) ->
  always (bind m f s) Q.
Proof.
  intros Hp Hd Hpanic. apply always_bind. eapply always_mono; [|exact Hp].
  intros t [[x s']|why]; [apply Hd | apply Hpanic].
Qed.

Lemma always_bind_assoc {A B C : Type} (m : M A) (f : A -> M B) (g : B -> M C)
    (s : State) (Q : list Event -> Outcome (C * State) -> Prop) :
  always (bind m (fun x => bind (f x) g) s) Q -> always (bind (bind m f) g s) Q.
Proof.
  unfold bind. generalize (m s) as p. intros p. revert Q.
  induction p as [x|why|R c k IH]; intros Q; cbn; [done..|].
  intros H r. apply IH, H.
Qed.

Lemma always_Prog_bind_bind {A B C : Type} (m : M A) (f : A -> M B)
    (g : B * State -> Prog C) (s : State)
    (Q : list Event -> Outcome C -> Prop) :
  always (Prog_bind (m s) (fun x => Prog_bind (f (fst x) (snd x)) g)) Q ->
  always (Prog_bind (bind m f s) g) Q.
Proof.
  unfold bind. generalize (m s) as p. intros p. revert Q.
  induction p as [x|why|R c k IH]; intros Q; cbn; [done..|].
  intros H r. apply IH, H.
Qed.

Lemma omap_silent {X : Type} (f : Event -> option X) (t : list Event) :
  Forall (fun e => f e = None) t -> omap f t = [].
Proof. induction 1 as [|e t He _ IH]; cbn; [done|]. by rewrite He. Qed.

Ltac handler_cbn :=
  cbn -[String.append lookup insert alter delete fresh dom Z.land Z.lor
        Z.ldiff Z.eqb Z.modulo Z.pow rangeUnsupported knownModes checkMode
        mapM prepareForReads_loop runCommand Fields omap].

(** Case analysis over every answer to every call of a handler; [f] is the
    reading of the events that the goal is about. *)
Ltac sub_program f lemma :=
  first
    [ eapply always_bind_then;
      [ apply (lemma (fun e => f e = None)); reflexivity
      | let Ht := fresh "Ht" in
        intros ? ? ? (Ht & ? & [= -> ->] & ?); apply omap_silent in Ht
      | intros ? ? (_ & ? & [=] & _) ]
    | eapply always_then;
      [ apply (lemma (fun e => f e = None)); reflexivity
      | let Ht := fresh "Ht" in
        intros ? ? (Ht & ? & [= ->] & ?); apply omap_silent in Ht
      | intros ? ? (_ & ? & [=] & _) ] ].

Ltac handler_runs f :=
  repeat (handler_cbn;
    match goal with
    | |- forall _ : _ * _, _ => intros [? ?]
    | |- forall _ : option _, _ => intros [?|]
    | |- forall _ : bool, _ => intros []
    | |- forall _ : unit, _ => intros []
    | |- forall _, _ => intro
    | |- always (bind (bind _ _) _ _) _ => apply always_bind_assoc
    | |- always (Prog_bind (bind _ _ _) _) _ => apply always_Prog_bind_bind
    | |- always ?p _ =>
        match p with
        | context [mapM NodeQID] => sub_program f mapM_NodeQID_always
        | context [prepareForReads_loop] =>
            sub_program f prepareForReads_loop_always
        | context [checkMode] => sub_program f checkMode_always
        end
    | |- always ?p _ =>
        match p with
        | context [if ?b then _ else _] => destruct b eqn:?
        | context [match ?x with _ => _ end] => destruct x eqn:?
        end
    end).


(** What is left when a run has been followed to its end: the reading of
    the events. *)
Ltac read_events :=
  cbn; repeat (rewrite omap_app; cbn);
  repeat match goal with
         | H : omap _ _ = [] |- _ => rewrite H; clear H
         end;
  cbn.

Lemma runCommand_never_responds (Sprintf : string -> list Arg -> string)
    (cmd : string) (s : State) :
  always (runCommand Sprintf cmd s) (fun t _ => responses t = []).
Proof.
  unfold runCommand. destruct (Fields cmd) as [|word args]; [reflexivity|].
  unfold runCommand_switch, runCommand_unlink, runCommand_graft,
    runCommand_pull, runCommand_push, setLevel, index.
  all_runs; reflexivity.
Qed.

(** X7.  Every handler, in every run, whatever the tree, the store and the
    tables answer: a handler that returns has responded exactly once, and a
    handler that panics has not responded.  [Open] does so after the
    permission error that it responds with when the mode has the
    remove-on-close bit ([orclose_responses]), so it responds twice then. *)
Theorem handlers_respond_once {W : Type} (env : Env W)
    (Sprintf : string -> list Arg -> string) (order : list (Z * error))
    (r : Req) (s : State) (w : W) :
  let once (before : list Response) (p : Prog (unit * State)) :=
    match outcome env p w with
    | Done _ => exists resp, responses (trace env p w) = before ++ [resp]
    | Panicked _ => responses (trace env p w) = before
    end in
  once [] (Attach r s) /\ once [] (Walk r s)
  /\ once (orclose_responses (Tc_Mode (Tc r))) (Open r s)
  /\ once [] (Create order r s) /\ once [] (Read r s)
  /\ once [] (Write Sprintf r s) /\ once [] (Clunk r s)
  /\ once [] (Remove Sprintf r s) /\ once [] (Stat r s)
  /\ once [] (Wstat order r s).
Proof.
  cbv zeta.
  assert (Hall : forall before (p : Prog (unit * State)),
    always p (fun t o => match o with
                         | Done _ => exists resp, responses t = before ++ [resp]
                         | Panicked _ => responses t = before
                         end) ->
    match outcome env p w with
    | Done _ => exists resp, responses (trace env p w) = before ++ [resp]
    | Panicked _ => responses (trace env p w) = before
    end).
  { intros before p H. exact (always_run p _ H W env w). }
  repeat apply conj; apply Hall; clear Hall.
  - unfold Attach. handler_runs response_of; read_events; by eexists.
  - unfold Walk. handler_runs response_of; read_events; by eexists.
  - unfold Open, orclose_responses.
    destruct (negb (Z.land (Tc_Mode (Tc r)) ORCLOSE =? 0));
      handler_runs response_of; read_events; first [reflexivity | by eexists].
  - unfold Create. handler_runs response_of; read_events; by eexists.
  - unfold Read. handler_runs response_of; read_events; by eexists.
  - unfold Write. handler_runs response_of.
    all: try (read_events; first [reflexivity | by eexists]).
    eapply always_bind_then; [apply runCommand_never_responds | |].
    + intros t [bad|] s' Ht; handler_runs response_of; read_events;
        unfold responses in Ht; rewrite Ht; by eexists.
    + intros t why Ht. read_events. exact Ht.
  - unfold Clunk. handler_runs response_of; read_events; by eexists.
  - unfold Remove. handler_runs response_of; read_events; by eexists.
  - unfold Stat. handler_runs response_of; read_events; by eexists.
  - unfold Wstat, Wstat_length, Wstat_mode. handler_runs response_of; read_events; first [reflexivity | by eexists].
Qed.

(** ** What a handler does to the fids and to the [fsNode] objects *)

Lemma lookup_fresh_loc (h : gmap loc fsNode) : h !! fresh (dom h) = None.
Proof. apply not_elem_of_dom, is_fresh. Qed.

Lemma memory_kept_refl (but : list FidRef) (aux : gmap FidRef Aux)
    (heap : gmap loc fsNode) (c c' : ctl) :
  memory_kept but (mkState aux heap c) (mkState aux heap c').
Proof. split; [done|]. split; [|done]. intros l fn H. by exists fn. Qed.

Lemma memory_kept_assign (but : list FidRef) (s : State)
    (aux : gmap FidRef Aux) (heap : gmap loc fsNode) (c : ctl) (l : loc)
    (fn : fsNode) :
  memory_kept but s (mkState aux heap c) ->
  (forall old, heap !! l = Some old -> fs_Node fn = fs_Node old) ->
  memory_kept but s (mkState aux (<[l := fn]> heap) c).
Proof.
  intros (H1 & H2 & H3) Hl. split; [done|]. split.
  - intros l0 fn0 H0. destruct (H2 l0 fn0 H0) as (fn' & Hfn' & Hn).
    destruct (decide (l0 = l)) as [->|Hne]; cbn in *.
    + exists fn. rewrite lookup_insert_eq. split; [done|].
      by rewrite (Hl fn' Hfn').
    + exists fn'. by rewrite lookup_insert_ne.
  - intros Hs fid l0 Ha. cbn in *. apply H3 in Ha; [|done]. cbn in Ha.
    destruct (decide (l0 = l)) as [->|Hne].
    + by rewrite lookup_insert_eq.
    + by rewrite lookup_insert_ne.
Qed.

Lemma memory_kept_bind (but : list FidRef) (s : State)
    (aux : gmap FidRef Aux) (heap : gmap loc fsNode) (c : ctl) (fid : FidRef)
    (a : Aux) :
  memory_kept but s (mkState aux heap c) ->
  fid ∈ but ->
  match a with
  | AuxNode l => is_Some (heap !! l)
  | AuxCtl => True
  end ->
  memory_kept but s (mkState (<[fid := a]> aux) heap c).
Proof.
  intros (H1 & H2 & H3) Hfid Ha. split; [|split; [done|]].
  - intros fid0 H0. cbn. rewrite lookup_insert_ne by (by intros ->). by apply H1.
  - intros Hs fid0 l0. cbn. destruct (decide (fid0 = fid)) as [->|Hne].
    + rewrite lookup_insert_eq. by intros [= ->].
    + rewrite lookup_insert_ne by done. by apply H3.
Qed.

Ltac keep_memory :=
  repeat first
    [ apply memory_kept_refl
    | apply memory_kept_bind
    | apply memory_kept_assign ].

Ltac memory_side :=
  cbn;
  first
    [ exact I
    | by apply list_elem_of_singleton
    | let H := fresh in
      intros ? H; first [ rewrite lookup_fresh_loc in H; discriminate H
                        | simplify_map_eq; done ]
    | simplify_map_eq; eauto ].

Lemma runCommand_keeps_fids (Sprintf : string -> list Arg -> string)
    (cmd : string) (s : State) :
  always (runCommand Sprintf cmd s)
    (fun t o => match o with
                | Done x => exists c, snd x = mkState (st_aux s) (st_heap s) c
                | Panicked _ => True
                end).
Proof.
  destruct s as [aux heap c].
  unfold runCommand. destruct (Fields cmd) as [|word args]; [by eexists|].
  unfold runCommand_switch, runCommand_unlink, runCommand_graft,
    runCommand_pull, runCommand_push, setLevel, index.
  all_runs; cbn; first [exact I | by eexists].
Qed.

(** X8.  What a handler that returns has done to the dispatcher's memory,
    in every run.  [Attach] and [Create] bind the fid of the request and
    [Walk] binds the new fid; no handler binds or unbinds another fid.
    Every [fsNode] that exists goes on existing, for the same node of the
    tree (its lock and its directory buffer may change).  And if every fid
    bound to an [fsNode] was bound to one that exists, this is so after
    the handler. *)
Theorem handlers_keep_memory {W : Type} (env : Env W)
    (Sprintf : string -> list Arg -> string) (order : list (Z * error))
    (r : Req) (s : State) (w : W) :
  let keeps (but : list FidRef) (p : Prog (unit * State)) :=
    match outcome env p w with
    | Done x => memory_kept but s (snd x)
    | Panicked _ => True
    end in
  keeps [Fid r] (Attach r s) /\ keeps [Newfid r] (Walk r s)
  /\ keeps [] (Open r s) /\ keeps [Fid r] (Create order r s)
  /\ keeps [] (Read r s) /\ keeps [] (Write Sprintf r s)
  /\ keeps [] (Clunk r s) /\ keeps [] (Remove Sprintf r s)
  /\ keeps [] (Stat r s) /\ keeps [] (Wstat order r s)
  /\ keeps [] (FidDestroy (Fid r) s).
Proof.
  cbv zeta.
  assert (Hall : forall but (p : Prog (unit * State)),
    always p (fun t o => match o with
                         | Done x => memory_kept but s (snd x)
                         | Panicked _ => True
                         end) ->
    match outcome env p w with
    | Done x => memory_kept but s (snd x)
    | Panicked _ => True
    end).
  { intros but p H. exact (always_run p _ H W env w). }
  repeat apply conj; apply Hall; clear Hall; destruct s as [aux heap c].
  - unfold Attach. handler_runs response_of; handler_cbn; try exact I;
      keep_memory; memory_side.
  - unfold Walk. handler_runs response_of; handler_cbn; try exact I;
      keep_memory; memory_side.
  - unfold Open. handler_runs response_of; handler_cbn; try exact I;
      keep_memory; memory_side.
  - unfold Create. handler_runs response_of; handler_cbn; try exact I;
      keep_memory; memory_side.
  - unfold Read. handler_runs response_of; handler_cbn; try exact I;
      keep_memory; memory_side.
  - unfold Write. handler_runs response_of; handler_cbn; try exact I;
      try (keep_memory; memory_side).
    eapply always_bind_then; [apply runCommand_keeps_fids | |]; [|done].
    intros t bad s' [c' Hs']. cbn in Hs'. subst s'.
    destruct bad; handler_runs response_of; handler_cbn; keep_memory.
  - unfold Clunk. handler_runs response_of; handler_cbn; try exact I;
      keep_memory; memory_side.
  - unfold Remove. handler_runs response_of; handler_cbn; try exact I;
      keep_memory; memory_side.
  - unfold Stat. handler_runs response_of; handler_cbn; try exact I;
      keep_memory; memory_side.
  - unfold Wstat, Wstat_length, Wstat_mode.
    handler_runs response_of; handler_cbn; try exact I;
      keep_memory; memory_side.
  - unfold FidDestroy. handler_runs response_of; handler_cbn; try exact I;
      keep_memory; memory_side.
Qed.

Ltac no_panic Hlive Hfid :=
  handler_cbn;
  lazymatch goal with
  | |- exists _, Done _ = Done _ => eexists; reflexivity
  | |- exists _, Panicked _ = Done _ =>
      exfalso;
      first
        [ by (destruct Hfid as [? Hfid]; simplify_eq)
        | by (simplify_map_eq)
        | match goal with
          | H : _ !! Fid _ = Some (AuxNode ?l) |- _ =>
              destruct (Hlive _ _ H) as [? ?]; cbn in *; simplify_map_eq
          end ]
  end.

(** X9.  When every fid bound to an [fsNode] is bound to one that exists
    and the fid of the request is bound, the handlers return, in every
    run: the type assertion, the dereference of the [fsNode] and the
    indexing of the walked nodes in [Walk] cannot fail.  For [Write] this
    holds on the fids of the tree; on the control file [runCommand] can
    panic. *)
Theorem handlers_do_not_panic {W : Type} (env : Env W)
    (Sprintf : string -> list Arg -> string) (order : list (Z * error))
    (r : Req) (s : State) (w : W) :
  bound_fids_live s ->
  is_Some (st_aux s !! Fid r) ->
  let returns (p : Prog (unit * State)) :=
    exists s', outcome env p w = Done (tt, s') in
  returns (Walk r s) /\ returns (Open r s) /\ returns (Create order r s)
  /\ returns (Read r s) /\ returns (Clunk r s) /\ returns (Remove Sprintf r s)
  /\ returns (Stat r s) /\ returns (Wstat order r s)
  /\ returns (FidDestroy (Fid r) s)
  /\ (st_aux s !! Fid r <> Some AuxCtl -> returns (Write Sprintf r s)).
Proof.
  intros Hlive Hfid. cbv zeta.
  assert (Hall : forall p : Prog (unit * State),
    always p (fun t o => exists s', o = Done (tt, s')) ->
    exists s', outcome env p w = Done (tt, s')).
  { intros p H. exact (always_run p _ H W env w). }
  repeat apply conj; [..|intros Hctl]; apply Hall; clear Hall;
    destruct s as [aux heap c]; cbn in Hfid.
  - unfold Walk. handler_runs response_of; try no_panic Hlive Hfid.
    all: repeat match goal with
                | H : last _ = None |- _ => apply last_None in H; subst
                | H : bool_decide _ = true |- _ => apply bool_decide_eq_true in H
                | H : bool_decide _ = false |- _ => apply bool_decide_eq_false in H
                end;
      cbn in *; congruence.
  - unfold Open. handler_runs response_of; no_panic Hlive Hfid.
  - unfold Create. handler_runs response_of; no_panic Hlive Hfid.
  - unfold Read. handler_runs response_of; no_panic Hlive Hfid.
  - unfold Clunk. handler_runs response_of; no_panic Hlive Hfid.
  - unfold Remove. handler_runs response_of; no_panic Hlive Hfid.
  - unfold Stat. handler_runs response_of; no_panic Hlive Hfid.
  - unfold Wstat, Wstat_length, Wstat_mode.
    handler_runs response_of; no_panic Hlive Hfid.
  - unfold FidDestroy. handler_runs response_of; no_panic Hlive Hfid.
  - cbn in Hctl. unfold Write.
    handler_runs response_of; first [done | no_panic Hlive Hfid].
Qed.

Lemma Example_s0_live : bound_fids_live Example.s0.
Proof.
  intros fid l H. cbn in H.
  repeat (apply lookup_insert_Some in H;
          destruct H as [[_ H]|[_ H]]; [simplify_eq; vm_compute; by eexists|]).
  by rewrite lookup_empty in H.
Qed.

Lemma handlers_do_not_panic_witness :
  exists s', outcome Model.env (Stat (Example.plain_req 2%N) Example.s0) Example.w0
             = Done (tt, s').
Proof.
  destruct (handlers_do_not_panic Model.env Model.Sprintf [] (Example.plain_req 2%N)
              Example.s0 Example.w0 Example_s0_live)
    as (_ & _ & _ & _ & _ & _ & H & _); [vm_compute; by eexists | exact H].
Defined.

(** ** References follow the fids *)

Lemma runCommand_takes_no_reference (Sprintf : string -> list Arg -> string)
    (cmd : string) (s : State) :
  always (runCommand Sprintf cmd s) (fun t _ => refs t = []).
Proof.
  unfold runCommand. destruct (Fields cmd) as [|word args]; [reflexivity|].
  unfold runCommand_switch, runCommand_unlink, runCommand_graft,
    runCommand_pull, runCommand_push, setLevel, index.
  all_runs; reflexivity.
Qed.

Ltac ref_leaf :=
  read_events; unfold node_of_fid; cbn;
  first
    [ exact I
    | reflexivity
    | left; split; [reflexivity | first [by left | by right]]
    | left; split; reflexivity
    | right; eexists _, _; split; [reflexivity|]; split; [|reflexivity];
      by simplify_map_eq
    | right; eexists _, _; split; [|split; [|reflexivity]];
      by simplify_map_eq
    | eexists; split; [|reflexivity]; by simplify_map_eq
    | by simplify_map_eq ].

(** X10.  The references that the handlers take on nodes of the tree and
    give back, in every run that returns.  [Attach] takes one on the root
    it binds.  [Walk] takes one exactly when it binds the new fid to a
    node of the tree (a clone, or a walk of all the names), on that node;
    a walk to the control file and a walk that binds nothing take none.
    [Create] changes nothing and takes nothing when it fails before the
    node is added; else it takes one on the child, which the fid is then
    bound to, and gives back the one on the parent.  [FidDestroy] gives
    back the one on the node of the fid; [Clunk] and [Remove] do not.  No
    other handler takes or gives back a reference. *)
Theorem references_follow_fids {W : Type} (env : Env W)
    (Sprintf : string -> list Arg -> string) (order : list (Z * error))
    (r : Req) (s : State) (w : W) :
  let returned (p : Prog (unit * State))
      (Q : list (NodeRef * bool) -> State -> Prop) :=
    match outcome env p w with
    | Done x => Q (refs (trace env p w)) (snd x)
    | Panicked _ => True
    end in
  returned (Attach r s)
    (fun rs s' => exists root, node_of_fid s' (Fid r) = Some root
                               /\ rs = [(root, true)])
  /\ returned (Walk r s)
       (fun rs s' =>
          (rs = [] /\ (st_aux s' = st_aux s
                       \/ st_aux s' = <[Newfid r := AuxCtl]> (st_aux s)))
          \/ exists l n, st_aux s' = <[Newfid r := AuxNode l]> (st_aux s)
                         /\ node_of_fid s' (Newfid r) = Some n
                         /\ rs = [(n, true)])
  /\ returned (Create order r s)
       (fun rs s' =>
          (rs = [] /\ s' = s)
          \/ exists parent child,
               node_of_fid s (Fid r) = Some parent
               /\ node_of_fid s' (Fid r) = Some child
               /\ rs = [(child, true); (parent, false)])
  /\ returned (FidDestroy (Fid r) s)
       (fun rs _ => rs = match node_of_fid s (Fid r) with
                         | Some n => [(n, false)]
                         | None => []
                         end)
  /\ returned (Open r s) (fun rs _ => rs = [])
  /\ returned (Read r s) (fun rs _ => rs = [])
  /\ returned (Write Sprintf r s) (fun rs _ => rs = [])
  /\ returned (Clunk r s) (fun rs _ => rs = [])
  /\ returned (Remove Sprintf r s) (fun rs _ => rs = [])
  /\ returned (Stat r s) (fun rs _ => rs = [])
  /\ returned (Wstat order r s) (fun rs _ => rs = []).
Proof.
  intros returned.
  assert (Hall : forall (p : Prog (unit * State)) Q,
    always p (fun t o => match o with
                         | Done x => Q (refs t) (snd x)
                         | Panicked _ => True
                         end) ->
    returned p Q).
  { intros p Q H. exact (always_run p _ H W env w). }
  repeat apply conj; apply Hall; clear Hall returned;
    destruct s as [aux heap c].
  - unfold Attach. handler_runs ref_of; ref_leaf.
  - unfold Walk. handler_runs ref_of; ref_leaf.
  - unfold Create. handler_runs ref_of; ref_leaf.
  - unfold FidDestroy. handler_runs ref_of; ref_leaf.
  - unfold Open. handler_runs ref_of; ref_leaf.
  - unfold Read. handler_runs ref_of; ref_leaf.
  - unfold Write. handler_runs ref_of; try ref_leaf.
    eapply always_bind_then; [apply runCommand_takes_no_reference | |]; [|done].
    intros t bad s' Ht. unfold refs in Ht.
    destruct bad; handler_runs ref_of; ref_leaf.
  - unfold Clunk. handler_runs ref_of; ref_leaf.
  - unfold Remove. handler_runs ref_of; ref_leaf.
  - unfold Stat. handler_runs ref_of; ref_leaf.
  - unfold Wstat, Wstat_length, Wstat_mode. handler_runs ref_of; ref_leaf.
Qed.

(** ** A clone is the same [fsNode] *)

(** X11.  A [Walk] with no names from a fid of a linked node binds the new
    fid to the [fsNode] of the fid itself, not to a copy: no [fsNode] is
    made.  So a lock that the fid holds is held through the clone too, and
    a [Clunk] of the clone releases it and clears it in the one [fsNode]:
    the fid walked from, which has not been clunked, records no lock
    after it. *)
Theorem clone_shares_the_lock {W : Type} (env : Env W) (r r' : Req)
    (s : State) (w w1 w' : W) (l : loc) (node : fsNode) (lk : nodeLock) :
  st_aux s !! Fid r = Some (AuxNode l) ->
  st_heap s !! l = Some node ->
  fs_lock node = Some lk ->
  Tc_Wname (Tc r) = [] ->
  env _ (Node_Unlinked (fs_Node node)) w = (false, w1) ->
  Fid r' = Newfid r ->
  let s1 := mkState (<[Newfid r := AuxNode l]> (st_aux s)) (st_heap s) (st_c s) in
  let s2 := set_lock s1 l node None in
  outcome env (Walk r s) w = Done (tt, s1)
  /\ trace env (Walk r s) w
     = [Ev (Node_Unlinked (fs_Node node)) false;
        Ev (Node_Ref (fs_Node node) "clone") tt;
        Ev (Respond (Rwalk [])) tt]
  /\ outcome env (Clunk r' s1) w' = Done (tt, s2)
  /\ trace env (Clunk r' s1) w'
     = [Ev (unlockNode lk) tt; Ev (Respond Rclunk) tt]
  /\ (fs_lock <$> st_heap s2 !! l) = Some None.
Proof.
  intros Ha Hh Hk Hn Hu Hr' s1 s2.
  assert (HW : exists wend, run env (Walk r s) w
               = (Done (tt, s1), wend,
                  [Ev (Node_Unlinked (fs_Node node)) false;
                   Ev (Node_Ref (fs_Node node) "clone") tt;
                   Ev (Respond (Rwalk [])) tt])).
  { unfold Walk. simp. rewrite Ha. simp. rewrite Hh. simp.
    rewrite Hu. simp. rewrite Hn. simp.
    rewrite bool_decide_eq_true_2 by done. simp.
    destruct (env _ (Node_Ref (fs_Node node) "clone") w1) as [[] w2]. simp.
    destruct (env _ (Respond (Rwalk [])) w2) as [[] w3]. by eexists. }
  assert (HC : exists wend, run env (Clunk r' s1) w'
               = (Done (tt, s2), wend,
                  [Ev (unlockNode lk) tt; Ev (Respond Rclunk) tt])).
  { unfold Clunk. simp. rewrite Hr', lookup_insert_eq. simp.
    rewrite Hh. simp. rewrite Hk. simp.
    destruct (env _ (unlockNode lk) w') as [[] w2]. simp.
    destruct (env _ (Respond Rclunk) w2) as [[] w3]. by eexists. }
  destruct HW as [wa HW], HC as [wb HC].
  unfold outcome, trace. rewrite HW, HC.
  repeat split. subst s2. unfold set_lock. cbn. by rewrite lookup_insert_eq.
Qed.

Lemma clone_shares_the_lock_witness :
  let s := set_lock Example.s0 13%N (mkFsNode 2%N [] None) (Some 2) in
  trace Model.env
    (Clunk (Example.plain_req 7%N)
       (mkState (<[7%N := AuxNode 13%N]> (st_aux s)) (st_heap s) (st_c s)))
    Example.w0
  = [Ev (unlockNode 2) tt; Ev (Respond Rclunk) tt].
Proof.
  intros s.
  destruct (clone_shares_the_lock Model.env (Example.walk_req 3%N 7%N [])
              (Example.plain_req 7%N) s Example.w0 Example.w0 Example.w0 13%N
              (mkFsNode 2%N [] (Some 2)) 2
              eq_refl eq_refl eq_refl eq_refl eq_refl eq_refl)
    as (_ & _ & _ & H & _).
  exact H.
Defined.

(** ** Locks are taken by [Open] and [Create] and given back once *)

Lemma runCommand_takes_no_lock (Sprintf : string -> list Arg -> string)
    (cmd : string) (s : State) :
  always (runCommand Sprintf cmd s) (fun t _ => lock_events t = []).
Proof.
  unfold runCommand. destruct (Fields cmd) as [|word args]; [reflexivity|].
  unfold runCommand_switch, runCommand_unlink, runCommand_graft,
    runCommand_pull, runCommand_push, setLevel, index.
  all_runs; reflexivity.
Qed.

Ltac lock_leaf :=
  read_events; unfold lock_of_fid; cbn;
  repeat match goal with
         | H : ?x = _ |- context [?x] => rewrite H; cbn
         end;
  first
    [ exact I
    | reflexivity
    | by simplify_map_eq
    | split; [reflexivity|]; by simplify_map_eq
    | left; split; [reflexivity|]; first [by left | right]; by simplify_map_eq
    | left; split; [reflexivity|]; by simplify_map_eq
    | right; eexists _, _; split; [reflexivity|]; by simplify_map_eq ].

(** X12.  The lock table, in every run of a handler that returns.  [Open]
    and [Create] ask for at most one lock, for the fid of the request, and
    store the answer in the [fsNode] of the fid, also when the answer is
    that there is no lock and also when they respond with an error after
    it; they give no lock back.  [Clunk] and [FidDestroy] give back the
    lock that the [fsNode] of the fid records, if it records one, and
    clear it; so a clunk followed by the destructor of the fid gives the
    lock back once, not twice.  The other handlers make no call on the
    lock table. *)
Theorem locks_are_given_back_once {W : Type} (env : Env W)
    (Sprintf : string -> list Arg -> string) (order : list (Z * error))
    (r : Req) (s : State) (w : W) :
  let returned (p : Prog (unit * State))
      (Q : list LockEvent -> State -> Prop) :=
    match outcome env p w with
    | Done x => Q (lock_events (trace env p w)) (snd x)
    | Panicked _ => True
    end in
  let gives_back (p : Prog (unit * State)) :=
    returned p
      (fun ls s' =>
         match lock_of_fid s (Fid r) with
         | Some (Some lk) =>
             ls = [Unlocked lk] /\ lock_of_fid s' (Fid r) = Some None
         | other => ls = [] /\ lock_of_fid s' (Fid r) = other
         end) in
  returned (Open r s)
    (fun ls s' =>
       (ls = [] /\ lock_of_fid s' (Fid r) = lock_of_fid s (Fid r))
       \/ exists n answer, ls = [Asked (Fid r) n answer]
                           /\ lock_of_fid s' (Fid r) = Some answer)
  /\ returned (Create order r s)
       (fun ls s' =>
          (ls = [] /\ (s' = s \/ lock_of_fid s' (Fid r) = Some None))
          \/ exists n answer, ls = [Asked (Fid r) n answer]
                              /\ lock_of_fid s' (Fid r) = Some answer)
  /\ gives_back (Clunk r s)
  /\ gives_back (FidDestroy (Fid r) s)
  /\ gives_back (Clunk_then_destroy r s)
  /\ returned (Attach r s) (fun ls _ => ls = [])
  /\ returned (Walk r s) (fun ls _ => ls = [])
  /\ returned (Read r s) (fun ls _ => ls = [])
  /\ returned (Write Sprintf r s) (fun ls _ => ls = [])
  /\ returned (Remove Sprintf r s) (fun ls _ => ls = [])
  /\ returned (Stat r s) (fun ls _ => ls = [])
  /\ returned (Wstat order r s) (fun ls _ => ls = []).
Proof.
  intros returned gives_back.
  assert (Hall : forall (p : Prog (unit * State)) Q,
    always p (fun t o => match o with
                         | Done x => Q (lock_events t) (snd x)
                         | Panicked _ => True
                         end) ->
    returned p Q).
  { intros p Q H. exact (always_run p _ H W env w). }
  unfold gives_back.
  repeat apply conj; apply Hall; clear Hall returned gives_back;
    destruct s as [aux heap c].
  - unfold Open. handler_runs lock_event_of; lock_leaf.
  - unfold Create. handler_runs lock_event_of; lock_leaf.
  - unfold Clunk. handler_runs lock_event_of; lock_leaf.
  - unfold FidDestroy. handler_runs lock_event_of; lock_leaf.
  - unfold Clunk_then_destroy, Clunk, FidDestroy.
    handler_runs lock_event_of; lock_leaf.
  - unfold Attach. handler_runs lock_event_of; lock_leaf.
  - unfold Walk. handler_runs lock_event_of; lock_leaf.
  - unfold Read. handler_runs lock_event_of; lock_leaf.
  - unfold Write. handler_runs lock_event_of; try lock_leaf.
    eapply always_bind_then; [apply runCommand_takes_no_lock | |]; [|done].
    intros t bad s' Ht. unfold lock_events in Ht.
    destruct bad; handler_runs lock_event_of; lock_leaf.
  - unfold Remove. handler_runs lock_event_of; lock_leaf.
  - unfold Stat. handler_runs lock_event_of; lock_leaf.
  - unfold Wstat, Wstat_length, Wstat_mode. handler_runs lock_event_of; lock_leaf.
Qed.

(** ** The exclusive-use bit that [Stat] reports *)

Lemma land_lor_same (x b : Z) : Z.land (Z.lor x b) b = b.
Proof.
  apply Z.bits_inj'. intros i _. rewrite Z.land_spec, Z.lor_spec.
  by destruct (Z.testbit x i), (Z.testbit b i).
Qed.

Lemma land_ldiff_same (x b : Z) : Z.land (Z.ldiff x b) b = 0.
Proof.
  apply Z.bits_inj'. intros i Hi.
  rewrite Z.land_spec, Z.ldiff_spec, Z.bits_0.
  by destruct (Z.testbit x i), (Z.testbit b i).
Qed.

Lemma ldiff_lor_same (x b : Z) : Z.ldiff (Z.lor x b) b = Z.ldiff x b.
Proof.
  apply Z.bits_inj'. intros i _. rewrite !Z.ldiff_spec, Z.lor_spec.
  by destruct (Z.testbit x i), (Z.testbit b i).
Qed.

Lemma ldiff_ldiff_same (x b : Z) : Z.ldiff (Z.ldiff x b) b = Z.ldiff x b.
Proof.
  apply Z.bits_inj'. intros i _. rewrite !Z.ldiff_spec.
  by destruct (Z.testbit x i), (Z.testbit b i).
Qed.

Lemma land_pow2 (x k : Z) :
  0 <= k -> Z.land x (2 ^ k) = if Z.testbit x k then 2 ^ k else 0.
Proof.
  intros Hk. apply Z.bits_inj'. intros i Hi.
  rewrite Z.land_spec, Z.pow2_bits_eqb by done.
  destruct (Z.eqb_spec k i) as [->|Hne].
  - destruct (Z.testbit x i); cbn.
    + by rewrite Z.pow2_bits_true.
    + by rewrite Z.bits_0.
  - rewrite andb_false_r. destruct (Z.testbit x k).
    + by rewrite Z.pow2_bits_false.
    + by rewrite Z.bits_0.
Qed.

(** X13.  [Stat] of a fid on a linked node of the tree asks the tree for the
    attributes of the node and the side mode table for the qid path, and
    responds once.  In the response the name, the length, the version and
    the path are the node's, the access time is the modification time,
    and the owner and the group are the two package variables.  The
    exclusive-use bit of the mode and of the qid type is the bit of the
    side table, whatever the mode of the node says; the other bits of the
    mode are the node's, and of the qid type only the directory bit can be
    set besides. *)
Theorem Stat_reports_side_table_bit {W : Type} (env : Env W) (r : Req)
    (s : State) (w w1 : W) (l : loc) (node : fsNode) :
  st_aux s !! Fid r = Some (AuxNode l) ->
  st_heap s !! l = Some node ->
  env _ (Node_Unlinked (fs_Node node)) w = (false, w1) ->
  exists (ni : NodeInfo) (uid gid : string) (m : Z) (d : Dir),
    outcome env (Stat r s) w = Done (tt, s)
    /\ trace env (Stat r s) w
       = [Ev (Node_Unlinked (fs_Node node)) false;
          Ev (Node_Info (fs_Node node)) ni; Ev NodeUID uid; Ev NodeGID gid;
          Ev (moreMode (ni_ID ni)) m; Ev (Respond (Rstat d)) tt]
    /\ (Dir_Name d, Dir_Length d, Dir_Mtime d, Dir_Atime d, Dir_Uid d, Dir_Gid d)
       = (ni_Name ni, ni_Size ni, ni_Modified ni, ni_Modified ni, uid, gid)
    /\ (Qid_Path (Dir_Qid d), Qid_Version (Dir_Qid d)) = (ni_ID ni, ni_Version ni)
    /\ Z.land (Dir_Mode d) DMEXCL = Z.land m DMEXCL
    /\ Z.ldiff (Dir_Mode d) DMEXCL = Z.ldiff (ni_Mode ni) DMEXCL
    /\ Z.land (Qid_Type (Dir_Qid d)) QTEXCL
       = (if Z.land m DMEXCL =? 0 then 0 else QTEXCL)
    /\ Z.ldiff (Qid_Type (Dir_Qid d)) QTEXCL
       = (if Z.land (ni_Mode ni) tree_DMDIR =? 0 then 0 else QTDIR).
Proof.
  intros Ha Hh Hu.
  destruct (env _ (Node_Info (fs_Node node)) w1) as [ni w2] eqn:E2.
  destruct (env _ NodeUID w2) as [uid w3] eqn:E3.
  destruct (env _ NodeGID w3) as [gid w4] eqn:E4.
  destruct (env _ (moreMode (ni_ID ni)) w4) as [m w5] eqn:E5.
  exists ni, uid, gid, m.
  assert (Hbit : Z.land m DMEXCL = 0 \/ Z.land m DMEXCL = DMEXCL).
  { change DMEXCL with (2 ^ 29). rewrite land_pow2 by lia.
    destruct (Z.testbit m 29); [by right | by left]. }
  eexists.
  split; [|split].
  - unfold outcome, Stat, NodeDir, NodeDirVar. simp. rewrite Ha. simp.
    rewrite Hh. simp. rewrite Hu. simp. rewrite E2. simp. rewrite E3. simp.
    rewrite E4. simp. rewrite E5. simp.
    match goal with
    | |- context [env _ (Respond ?resp) w5] =>
        destruct (env _ (Respond resp) w5) as [[] w6]
    end.
    reflexivity.
  - unfold trace, Stat, NodeDir, NodeDirVar. simp. rewrite Ha. simp.
    rewrite Hh. simp. rewrite Hu. simp. rewrite E2. simp. rewrite E3. simp.
    rewrite E4. simp. rewrite E5. simp.
    match goal with
    | |- context [env _ (Respond ?resp) w5] =>
        destruct (env _ (Respond resp) w5) as [[] w6]
    end.
    reflexivity.
  - destruct Hbit as [Hb|Hb]; rewrite Hb; cbn -[Z.land Z.lor Z.ldiff].
    + rewrite !land_ldiff_same, !ldiff_ldiff_same.
      repeat split. by destruct (Z.land (ni_Mode ni) tree_DMDIR =? 0).
    + rewrite !land_lor_same, !ldiff_lor_same.
      repeat split. by destruct (Z.land (ni_Mode ni) tree_DMDIR =? 0).
Qed.

Lemma Stat_reports_side_table_bit_witness :
  exists d : Dir,
    responses (trace Model.env (Stat (Example.plain_req 3%N) Example.s0) Example.w0)
    = [Rstat d].
Proof.
  destruct (Stat_reports_side_table_bit Model.env (Example.plain_req 3%N)
              Example.s0 Example.w0 Example.w0 13%N (mkFsNode 2%N [] None)
              eq_refl eq_refl eq_refl)
    as (ni & uid & gid & m & d & _ & Ht & _).
  exists d. rewrite Ht. reflexivity.
Defined.

(** ** The directory buffer that [Open] fills *)

Lemma run_Prog_bind {W A B : Type} (env : Env W) (p : Prog A)
    (f : A -> Prog B) (w : W) :
  run env (Prog_bind p f) w =
  match run env p w with
  | (Done x, w', t) =>
      match run env (f x) w' with
      | (o, w'', t') => (o, w'', t ++ t')
      end
  | (Panicked why, w', t) => (Panicked why, w', t)
  end.
Proof.
  revert w. induction p as [x|why|R c k IH]; intros w; cbn.
  - by destruct (run env (f x) w) as [[o w''] t'].
  - reflexivity.
  - destruct (env R c w) as [r w']. rewrite IH.
    destruct (run env (k r) w') as [[[x|why] w1] t1]; cbn; [|reflexivity].
    by destruct (run env (f x) w1) as [[o2 w2] t2].
Qed.

Lemma prepareForReads_loop_fresh {W : Type} (env : Env W)
    (children : list NodeRef) (dir : Dir) (dirb : list Dir) (s : State) (w : W) :
  Dir_Type dir = 0 -> Dir_Dev dir = 0 -> Dir_Muid dir = "" ->
  exists (dirs : list Dir) (w' : W) (t : list Event),
    run env (mapM NodeDir children s) w = (Done (dirs, s), w', t)
    /\ length dirs = length children
    /\ run env (prepareForReads_loop children dir dirb s) w
       = (Done (dirb ++ dirs, s), w', t).
Proof.
  revert dir dirb w. induction children as [|n rest IH]; intros dir dirb w Ht Hd Hm.
  - exists [], w, []. by rewrite app_nil_r.
  - cbn [mapM prepareForReads_loop]. rewrite !run_bind.
    set (others := mapM NodeDir rest).
    unfold NodeDir, NodeDirVar. simp.
    destruct (env _ (Node_Info n) w) as [ni w1]. simp.
    destruct (env _ NodeUID w1) as [uid w2]. simp.
    destruct (env _ NodeGID w2) as [gid w3]. simp.
    rewrite Ht, Hd, Hm.
    match goal with
    | |- context [prepareForReads_loop rest ?d ?b s] =>
        destruct (IH d b w3 eq_refl eq_refl eq_refl)
          as (dirs & w' & t & Hrun & Hlen & Hloop)
    end.
    subst others. rewrite run_bind, Hrun, Hloop. simp.
    eexists _, w', _. split; [reflexivity|]. split; [by rewrite <- Hlen|].
    by rewrite <- app_assoc, app_nil_r.
Qed.

(** X14.  [prepareForReads] asks the tree for the children of the node and
    puts one entry per child in the directory buffer of the [fsNode], in
    the order of the children.  The buffer is replaced: what it held
    before does not matter.  The loop writes every entry from one variable
    that it never clears, and still every entry is what [NodeDir] yields
    for the child from a cleared variable, because [NodeDirVar] assigns
    every field that it ever assigns. *)
Theorem prepareForReads_fills_buffer {W : Type} (env : Env W) (s : State)
    (w w1 : W) (l : loc) (node : fsNode) (children : list NodeRef) :
  st_heap s !! l = Some node ->
  env _ (Node_Children (fs_Node node)) w = (children, w1) ->
  exists (dirs : list Dir) (w' : W) (t : list Event),
    run env (mapM NodeDir children s) w1 = (Done (dirs, s), w', t)
    /\ length dirs = length children
    /\ run env (prepareForReads l s) w
       = (Done (tt, mkState (st_aux s)
                      (<[l := mkFsNode (fs_Node node) dirs (fs_lock node)]>
                         (st_heap s))
                      (st_c s)),
          w', Ev (Node_Children (fs_Node node)) children :: t).
Proof.
  intros Hh Hc.
  destruct (prepareForReads_loop_fresh env children Dir_zero [] s w1
              eq_refl eq_refl eq_refl) as (dirs & w' & t & Hrun & Hlen & Hloop).
  exists dirs, w', t. split; [exact Hrun|]. split; [exact Hlen|].
  unfold prepareForReads. simp. rewrite Hh. simp. rewrite Hc. simp.
  rewrite run_Prog_bind, Hloop. simp. by rewrite app_nil_r.
Qed.

Lemma prepareForReads_fills_buffer_witness :
  exists (dirs : list Dir) (w' : Model.world) (t : list Event),
    length dirs = 2%nat
    /\ run Model.env (prepareForReads 10%N Example.s0) Example.w0
       = (Done (tt, mkState (st_aux Example.s0)
                      (<[10%N := mkFsNode 0%N dirs None]> (st_heap Example.s0))
                      (st_c Example.s0)),
          w', Ev (Node_Children 0%N) [1%N; 2%N] :: t).
Proof.
  destruct (prepareForReads_fills_buffer Model.env Example.s0 Example.w0
              Example.w0 10%N (mkFsNode 0%N [] None) [1%N; 2%N]
              eq_refl eq_refl)
    as (dirs & w' & t & _ & Hlen & Hrun).
  by exists dirs, w', t.
Defined.

(** ** Only checked modes reach the tree *)

Lemma runCommand_sets_no_mode (Sprintf : string -> list Arg -> string)
    (cmd : string) (s : State) :
  always (runCommand Sprintf cmd s) (fun t _ => mode_calls t = []).
Proof.
  unfold runCommand. destruct (Fields cmd) as [|word args]; [reflexivity|].
  unfold runCommand_switch, runCommand_unlink, runCommand_graft,
    runCommand_pull, runCommand_push, setLevel, index.
  all_runs; reflexivity.
Qed.

Lemma ldiff_land_same (x b : Z) : Z.ldiff (Z.land x b) b = 0.
Proof.
  apply Z.bits_inj'. intros i _.
  rewrite Z.ldiff_spec, Z.land_spec, Z.bits_0.
  by destruct (Z.testbit x i), (Z.testbit b i).
Qed.

(** X15.  The modes that the handlers pass on, in every run, when the
    runtime ranges over the entries of [unsupportedModes] in some order.
    [Create] adds a node to the tree only with a mode made of permission
    bits, the directory bit and the exclusive-use bit: the mode has been
    through [checkMode].  [Wstat] sets permission bits only on a node.
    The side mode table is given the exclusive-use bit or zero, never
    another bit.  The other handlers pass on no mode. *)
Theorem modes_are_checked_on_their_way {W : Type} (env : Env W)
    (Sprintf : string -> list Arg -> string) (order : list (Z * error))
    (r : Req) (s : State) (w : W) :
  order ≡ₚ unsupportedModes ->
  let checked (p : Prog (unit * State)) :=
    Forall mode_call_ok (mode_calls (trace env p w)) in
  checked (Create order r s) /\ checked (Wstat order r s)
  /\ checked (Attach r s) /\ checked (Walk r s) /\ checked (Open r s)
  /\ checked (Read r s) /\ checked (Write Sprintf r s)
  /\ checked (Clunk r s) /\ checked (Remove Sprintf r s)
  /\ checked (Stat r s).
Proof.
  intros Horder checked.
  assert (Hall : forall (p : Prog (unit * State)),
    always p (fun t _ => Forall mode_call_ok (mode_calls t)) -> checked p).
  { intros p H. exact (always_run p _ H W env w). }
  assert (Hok : forall mode,
    rangeUnsupported order mode = None /\ Z.ldiff mode knownModes = 0 ->
    Z.ldiff mode (Z.lor (Z.lor 511 DMDIR) DMEXCL) = 0).
  { intros mode [H1 H2]. apply allowed_of_known; [|done].
    apply rangeUnsupported_None in H1. by rewrite <- Horder. }
  repeat apply conj; apply Hall; clear Hall checked.
  - unfold Create. handler_runs mode_call_of; read_events;
      repeat first [apply Forall_nil_2 | apply Forall_cons_2]; cbn;
      first [by left | by right | by (apply Hok; auto)].
  - unfold Wstat, Wstat_length, Wstat_mode.
    handler_runs mode_call_of; read_events;
      repeat first [apply Forall_nil_2 | apply Forall_cons_2]; cbn;
      first [by left | by right | apply ldiff_land_same].
  - unfold Attach. handler_runs mode_call_of; read_events; constructor.
  - unfold Walk. handler_runs mode_call_of; read_events; constructor.
  - unfold Open. handler_runs mode_call_of; read_events; constructor.
  - unfold Read. handler_runs mode_call_of; read_events; constructor.
  - unfold Write. handler_runs mode_call_of; try (read_events; constructor).
    eapply always_bind_then; [apply runCommand_sets_no_mode | |].
    + intros t bad s' Ht. unfold mode_calls in Ht.
      destruct bad; handler_runs mode_call_of; read_events; constructor.
    + intros t why Ht. cbn. unfold mode_calls in Ht. rewrite Ht. constructor.
  - unfold Clunk. handler_runs mode_call_of; read_events; constructor.
  - unfold Remove. handler_runs mode_call_of; read_events; constructor.
  - unfold Stat. handler_runs mode_call_of; read_events; constructor.
Qed.

Lemma modes_are_checked_on_their_way_witness :
  Forall mode_call_ok
    (mode_calls
       (trace Model.env
          (Create unsupportedModes
             (Example.create_req 6%N "new" (Z.lor DMEXCL 420)) Example.s0)
          Example.w0)).
Proof.
  destruct (modes_are_checked_on_their_way Model.env Model.Sprintf
              unsupportedModes
              (Example.create_req 6%N "new" (Z.lor DMEXCL 420))
              Example.s0 Example.w0 (reflexivity _)) as [H _].
  exact H.
Defined.

(** ** [Wstat] makes its changes one after the other *)

Lemma omap_nil_of {X Y : Type} (f : Event -> option X) (g : Event -> option Y)
    (t : list Event) :
  (forall e, f e = None -> g e = None) -> omap f t = [] -> omap g t = [].
Proof.
  intros Hfg. induction t as [|e t IH]; cbn; [done|].
  destruct (f e) eqn:E; [done|]. rewrite (Hfg e E). exact IH.
Qed.

(** X16.  [Wstat] on a fid of the tree, in every run.  It makes the
    changes that the entry asks for one after the other, in the order
    length, name, modification time, permissions, and it stops at the
    first refusal without taking back what it has done: the changes made
    are a prefix of the changes asked for.  It has made all of them, the
    truncation has succeeded and no change of group was asked for
    whenever it responds with success.  It responds once, with success or
    with an error. *)
Theorem Wstat_applies_a_prefix {W : Type} (env : Env W)
    (order : list (Z * error)) (r : Req) (s : State) (w : W) (l : loc)
    (node : fsNode) :
  st_aux s !! Fid r = Some (AuxNode l) ->
  st_heap s !! l = Some node ->
  let t := trace env (Wstat order r s) w in
  exists truncated : option error,
    changes t `prefix_of` Wstat_wanted (fs_Node node) (Tc_Dir (Tc r)) truncated
    /\ (responses t = [Rwstat] ->
        changes t = Wstat_wanted (fs_Node node) (Tc_Dir (Tc r)) truncated
        /\ truncated = None
        /\ ChangeGID (Tc_Dir (Tc r)) = false)
    /\ (responses t = [Rwstat] \/ exists e, responses t = [Rerror e]).
Proof.
  intros Ha Hh. cbv zeta.
  apply (always_run (Wstat order r s)
           (fun t _ =>
              exists truncated : option error,
                changes t `prefix_of`
                  Wstat_wanted (fs_Node node) (Tc_Dir (Tc r)) truncated
                /\ (responses t = [Rwstat] ->
                    changes t
                    = Wstat_wanted (fs_Node node) (Tc_Dir (Tc r)) truncated
                    /\ truncated = None
                    /\ ChangeGID (Tc_Dir (Tc r)) = false)
                /\ (responses t = [Rwstat] \/ exists e, responses t = [Rerror e]))).
  unfold Wstat, Wstat_length, Wstat_mode, Wstat_wanted.
  handler_runs (fun e => match change_of e, response_of e with
                          | None, None => @None unit
                          | _, _ => Some tt
                          end);
    simplify_eq;
    repeat match goal with
           | H : omap _ ?t = [] |- _ =>
               assert (omap change_of t = [])
                 by (revert H; apply omap_nil_of;
                     let ev := fresh "ev" in
                     intros ev; cbv beta; by destruct (change_of ev));
               assert (omap response_of t = [])
                 by (revert H; apply omap_nil_of;
                     let ev := fresh "ev" in
                     intros ev; cbv beta;
                     by destruct (change_of ev), (response_of ev));
               clear H
           end;
    read_events;
    first
      [ exists None; split; [by eexists|];
        (split; [first [discriminate
                       | intros _; repeat split; first [reflexivity | assumption]]
                | first [by left | right; by eexists]])
      | eexists; split; [by eexists|];
        (split; [first [discriminate
                       | intros _; repeat split; first [reflexivity | assumption]]
                | first [by left | right; by eexists]]) ].
Qed.

Lemma Wstat_applies_a_prefix_witness :
  let dir := mkDir uint16_max uint32_max (mkQid uint8_max uint32_max uint64_max)
               uint32_max uint32_max uint32_max uint64_max "news" "" "wheel" "" in
  let t := trace Model.env
             (Wstat unsupportedModes (Example.wstat_req 2%N dir) Example.s0)
             Example.w0 in
  changes t = [Renamed 3%N "news"]
  /\ responses t = [Rerror Eperm]
  /\ exists truncated, changes t `prefix_of` Wstat_wanted 3%N dir truncated.
Proof.
  intros dir t. split; [reflexivity|]. split; [reflexivity|].
  destruct (Wstat_applies_a_prefix Model.env unsupportedModes
              (Example.wstat_req 2%N dir) Example.s0 Example.w0 12%N
              (mkFsNode 3%N [] None) eq_refl eq_refl) as (truncated & H & _).
  by exists truncated.
Defined.

(** ** The order in which the runtime ranges over [unsupportedModes] *)

Lemma fold_lor_permutation (l l' : list (Z * error)) (acc : Z) :
  l ≡ₚ l' ->
  fold_left (fun a e => Z.lor a (fst e)) l acc
  = fold_left (fun a e => Z.lor a (fst e)) l' acc.
Proof.
  intros H. revert acc.
  induction H as [|x l l' _ IH|x y l|l l' l'' _ IH1 _ IH2]; intros acc; cbn.
  - reflexivity.
  - apply IH.
  - f_equal. rewrite <- !Z.lor_assoc. f_equal. apply Z.lor_comm.
  - by rewrite IH1.
Qed.

(** X17.  The two loops over the map [unsupportedModes], whose order the
    runtime chooses.  [init] computes the same [knownModes] in every
    order.  [checkMode] does not return the same error in every order:
    for a mode with unsupported bits, each of these bits is the one
    reported in some order, so that a mode with two of them is answered
    with one message or the other. *)
Theorem range_order_shows_in_the_error (mode bit : Z) (err : error) (s : State) :
  (bit, err) ∈ unsupportedModes ->
  Z.land mode bit <> 0 ->
  (forall order, order ≡ₚ unsupportedModes ->
     fold_left (fun acc e => Z.lor acc (fst e)) order (Z.lor (Z.lor 511 DMDIR) DMEXCL)
     = knownModes)
  /\ exists order, order ≡ₚ unsupportedModes
                   /\ checkMode order None mode s = Ret (Some err, s).
Proof.
  intros Hin Hbit. split.
  - intros order Ho. by rewrite (fold_lor_permutation _ _ _ Ho).
  - apply elem_of_Permutation in Hin as [rest Hrest].
    exists ((bit, err) :: rest). split; [done|].
    rewrite checkMode_nil. cbn [rangeUnsupported].
    apply Z.eqb_neq in Hbit. by rewrite Hbit.
Qed.

Lemma range_order_shows_in_the_error_witness :
  (exists order, order ≡ₚ unsupportedModes
     /\ checkMode order None (Z.lor DMAPPEND DMTMP) Example.s0
        = Ret (Some (GoError "append-only files are not supported"), Example.s0))
  /\ (exists order, order ≡ₚ unsupportedModes
        /\ checkMode order None (Z.lor DMAPPEND DMTMP) Example.s0
           = Ret (Some (GoError "temporary files are not supported"), Example.s0)).
Proof.
  split.
  - apply (range_order_shows_in_the_error (Z.lor DMAPPEND DMTMP) DMAPPEND).
    + unfold unsupportedModes. rewrite !elem_of_cons. by left.
    + by vm_compute.
  - apply (range_order_shows_in_the_error (Z.lor DMAPPEND DMTMP) DMTMP).
    + unfold unsupportedModes. rewrite !elem_of_cons. by do 3 right; left.
    + by vm_compute.
Defined.

(** ** A directory is read as it was when it was opened *)

(** X18.  [Open] of a linked directory that is not marked exclusive-use
    and that the tree can grow: the entries of its children, one per
    child, are put in the [fsNode] of the fid.  A [Read] of the fid then
    asks the tree whether the node is unlinked and whether it is a
    directory, and nothing else: it hands these entries to the directory
    buffer, whatever the children of the directory are when it is read. *)
Theorem Read_serves_the_opened_listing {W : Type} (env : Env W) (r r' : Req)
    (s : State) (l : loc) (node : fsNode) (ni : NodeInfo) (m : Z)
    (children : list NodeRef) (w w1 w2 w3 w4 w5 w6 w' wa wb wc : W) :
  st_aux s !! Fid r = Some (AuxNode l) ->
  st_heap s !! l = Some node ->
  Z.land (Tc_Mode (Tc r)) ORCLOSE = 0 ->
  env _ (Node_Unlinked (fs_Node node)) w = (false, w1) ->
  env _ (Node_Info (fs_Node node)) w1 = (ni, w2) ->
  env _ (moreMode (ni_ID ni)) w2 = (m, w3) ->
  Z.land m DMEXCL = 0 ->
  env _ (Node_IsDir (fs_Node node)) w3 = (true, w4) ->
  env _ (Tree_Grow ops_tree (fs_Node node)) w4 = (None, w5) ->
  env _ (Node_Children (fs_Node node)) w5 = (children, w6) ->
  Fid r' = Fid r ->
  env _ (InitRread (Tc_Count (Tc r'))) w' = (None, wa) ->
  env _ (Node_Unlinked (fs_Node node)) wa = (false, wb) ->
  env _ (Node_IsDir (fs_Node node)) wb = (true, wc) ->
  exists (dirs : list Dir) (s1 : State) (answer : string * option error)
         (rest : list Event),
    length dirs = length children
    /\ outcome env (Open r s) w = Done (tt, s1)
    /\ st_heap s1 !! l = Some (mkFsNode (fs_Node node) dirs (fs_lock node))
    /\ trace env (Read r' s1) w'
       = [Ev (InitRread (Tc_Count (Tc r'))) None;
          Ev (Node_Unlinked (fs_Node node)) false;
          Ev (Node_IsDir (fs_Node node)) true;
          Ev (DirBuffer_Read dirs (Tc_Count (Tc r'))
                (to_int64 (Tc_Offset (Tc r')))) answer]
         ++ rest
    /\ Forall (fun e => match e with
                        | Ev (Respond _) _ | Ev (Node_Path _) _
                        | Ev (Log _ _ _) _ => True
                        | _ => False
                        end) rest.
Proof.
  intros Ha Hh Hmode E1 E2 E3 Hm E4 E5 E6 Hfid R1 R2 R3.
  destruct (prepareForReads_loop_fresh env children Dir_zero [] s w6
              eq_refl eq_refl eq_refl) as (dirs & w7 & t & _ & Hlen & Hloop).
  assert (Hprep : run env (prepareForReads l s) w5
                  = (Done (tt, mkState (st_aux s)
                                 (<[l := mkFsNode (fs_Node node) dirs
                                                  (fs_lock node)]> (st_heap s))
                                 (st_c s)),
                     w7, Ev (Node_Children (fs_Node node)) children :: t)).
  { unfold prepareForReads. simp. rewrite Hh. simp. rewrite E6. simp.
    rewrite run_Prog_bind, Hloop. simp. by rewrite app_nil_r. }
  set (s1 := mkState (st_aux s)
               (<[l := mkFsNode (fs_Node node) dirs (fs_lock node)]> (st_heap s))
               (st_c s)).
  destruct (env _ (DirBuffer_Read dirs (Tc_Count (Tc r'))
                    (to_int64 (Tc_Offset (Tc r')))) wc) as [answer wd] eqn:R4.
  assert (HR : exists rest,
    trace env (Read r' s1) w'
    = [Ev (InitRread (Tc_Count (Tc r'))) None;
       Ev (Node_Unlinked (fs_Node node)) false;
       Ev (Node_IsDir (fs_Node node)) true;
       Ev (DirBuffer_Read dirs (Tc_Count (Tc r'))
             (to_int64 (Tc_Offset (Tc r')))) answer]
      ++ rest
    /\ Forall (fun e => match e with
                        | Ev (Respond _) _ | Ev (Node_Path _) _
                        | Ev (Log _ _ _) _ => True
                        | _ => False
                        end) rest).
  { unfold trace, Read. simp. rewrite R1. simp. rewrite Hfid, Ha. simp.
    rewrite lookup_insert_eq. simp. rewrite R2. simp. rewrite R3. simp.
    rewrite R4. destruct answer as [data [e|]]; simp.
    - destruct (env _ (Node_Path (fs_Node node)) wd) as [path we]. simp.
      match goal with
      | |- context [env _ (Log ?a ?b ?c) we] =>
          destruct (env _ (Log a b c) we) as [[] wf]
      end. simp.
      destruct (env _ (Respond (Rerror Eperm)) wf) as [[] wg].
      eexists. split; [reflexivity|]. by repeat constructor.
    - destruct (env _ (Respond (Rread data)) wd) as [[] we].
      eexists. split; [reflexivity|]. by repeat constructor. }
  destruct HR as (rest & HR1 & HR2).
  exists dirs, s1, answer, rest.
  split; [exact Hlen|].
  split; [|split; [by apply lookup_insert_eq|by split]].
  - unfold outcome, Open, NodeQID. simp. apply Z.eqb_eq in Hmode, Hm.
    rewrite Hmode. simp. rewrite Ha. simp. rewrite Hh. simp. rewrite E1. simp.
    rewrite E2. simp. rewrite E3. simp. rewrite Hm. simp. rewrite E4. simp.
    rewrite E5. simp. rewrite run_bind, Hprep. simp.
    match goal with
    | |- context [env _ (Respond ?resp) w7] =>
        destruct (env _ (Respond resp) w7) as [[] w8]
    end.
    reflexivity.
Qed.

Lemma Read_serves_the_opened_listing_witness :
  exists (dirs : list Dir) (s1 : State) (answer : string * option error)
         (rest : list Event),
    length dirs = 1%nat
    /\ trace Model.env (Read (Example.plain_req 6%N) s1) Example.w_behind
       = [Ev (InitRread 0) None; Ev (Node_Unlinked 1%N) false;
          Ev (Node_IsDir 1%N) true;
          Ev (DirBuffer_Read dirs 0 0) answer] ++ rest.
Proof.
  destruct (Read_serves_the_opened_listing Model.env
              (Example.open_req 6%N 0) (Example.plain_req 6%N) Example.s0
              16%N (mkFsNode 1%N [] None)
              (mkNodeInfo 1 1 (Z.lor DMDIR 493) 0 100 "etc") 0 [3%N]
              Example.w0 Example.w0 Example.w0 Example.w0 Example.w0
              Example.w0 Example.w0
              Example.w_behind Example.w_behind Example.w_behind
              Example.w_behind
              eq_refl eq_refl eq_refl eq_refl eq_refl eq_refl eq_refl eq_refl
              eq_refl eq_refl eq_refl eq_refl eq_refl eq_refl)
    as (dirs & s1 & answer & rest & Hlen & _ & _ & Ht & _).
  by exists dirs, s1, answer, rest.
Defined.

(** ** [unlink] removes the node it has walked to *)



(** ** Errors of the tree that the client does not see *)

(** X20.  What [Walk], [Remove], [Stat], [Attach] and [Clunk] can respond
    with, in every run.  The errors that the tree returns to [Walk] and to
    [Remove] do not reach the client: an error response of [Walk] is the
    unlinked-fid error, the permission error or the not-exist error, and
    one of [Remove] is the unlinked-fid error, the permission error or
    the not-empty error.  [Stat] fails with the unlinked-fid error only,
    and [Attach] and [Clunk] do not fail. *)
Theorem tree_errors_are_translated {W : Type} (env : Env W)
    (Sprintf : string -> list Arg -> string) (r : Req) (s : State) (w : W) :
  let responds (p : Prog (unit * State)) (ok : Response -> Prop) :=
    Forall ok (responses (trace env p w)) in
  responds (Walk r s)
    (fun resp => match resp with
                 | Rwalk _ => True
                 | Rerror e => e ∈ [Eunlinked; Eperm; Enoent]
                 | _ => False
                 end)
  /\ responds (Remove Sprintf r s)
       (fun resp => match resp with
                    | Rremove => True
                    | Rerror e => e ∈ [Eunlinked; Eperm; Enotempty]
                    | _ => False
                    end)
  /\ responds (Stat r s)
       (fun resp => match resp with
                    | Rstat _ => True
                    | Rerror e => e = Eunlinked
                    | _ => False
                    end)
  /\ responds (Attach r s)
       (fun resp => match resp with Rattach _ => True | _ => False end)
  /\ responds (Clunk r s)
       (fun resp => match resp with Rclunk => True | _ => False end).
Proof.
  intros responds.
  assert (Hall : forall (p : Prog (unit * State)) ok,
    always p (fun t _ => Forall ok (responses t)) -> responds p ok).
  { intros p ok H. exact (always_run p _ H W env w). }
  repeat apply conj; apply Hall; clear Hall responds.
  - unfold Walk. handler_runs response_of; read_events;
      repeat first [apply Forall_nil_2 | apply Forall_cons_2];
      first [exact I | rewrite !elem_of_cons; tauto].
  - unfold Remove. handler_runs response_of; read_events;
      repeat first [apply Forall_nil_2 | apply Forall_cons_2];
      first [exact I | rewrite !elem_of_cons; tauto].
  - unfold Stat. handler_runs response_of; read_events;
      repeat first [apply Forall_nil_2 | apply Forall_cons_2];
      first [exact I | reflexivity].
  - unfold Attach. handler_runs response_of; read_events;
      repeat first [apply Forall_nil_2 | apply Forall_cons_2]; exact I.
  - unfold Clunk. handler_runs response_of; read_events;
      repeat first [apply Forall_nil_2 | apply Forall_cons_2]; exact I.
Qed.

(** ** [Create] and [Wstat] go through [checkMode] *)




